(** * molplotly: hover resolution and tooltip assembly

    A shallow embedding of [src/molplotly/main.py]: [str2bool], the setup
    function [add_molecules] (image cache, curve-to-group map) and the hover
    callback [display_hover] it registers, together with the parts of the
    Python runtime they call ([str.lower], [int], slicing, [textwrap.fill],
    and the pandas operations on the data frame).

    Text is modelled over 8-bit code points: a Python [str] is a Rocq
    [string] whose characters are the code points 0..255.  Cells hold
    booleans, integers or strings; floating point cells are outside the
    embedding.

    The static export ([patch_file], [write_file], [ExternalResourceParser]
    and [make_static]) is embedded over Unicode text and bytes with the
    UTF-8 codec; the network and the HTML tokeniser are given from outside,
    and the calls to the file system are recorded. *)

From Stdlib Require Import ZArith NArith List String Ascii Bool Lia Arith PeanoNat.
From Stdlib Require Import DecimalString DecimalPos DecimalZ.
From Stdlib.Strings Require Byte.
Import ListNotations.

Open Scope string_scope.
Open Scope list_scope.

(* ================================================================== *)
(** ** Exceptions and results *)

(** The Python exceptions the embedded code can raise.  [Unmodelled] is not
    one of them: it marks an outcome the embedding leaves open. *)
Inductive exn : Type :=
| KeyError (key : string)
| IndexError (msg : string)
| ValueError (msg : string)
| TypeError (msg : string)
| ArgumentError (msg : string)
| SyntaxError (msg : string)
| Unmodelled (what : string).

(** A computation either returns or raises. *)
Inductive result (A : Type) : Type :=
| Ok (a : A)
| Raise (e : exn).

Arguments Ok {A} a.
Arguments Raise {A} e.

Definition bind {A B : Type} (c : result A) (k : A -> result B) : result B :=
  match c with
  | Ok a => k a
  | Raise e => Raise e
  end.

Notation "x <- c ;; k" := (bind c (fun x => k))
  (at level 61, c at next level, right associativity).

Definition is_ok {A : Type} (c : result A) : bool :=
  match c with Ok _ => true | Raise _ => false end.

(* ================================================================== *)
(** ** Python values and strings *)

Module Py.

(** A cell of the data frame, a trace label once coerced, or a hovered
    coordinate. *)
Inductive value : Type :=
| VBool (b : bool)
| VInt (n : Z)
| VStr (s : string).

(** Python's [==] on these values: [True == 1] and [False == 0] hold, a
    string equals only an identical string. *)
Definition value_eqb (a b : value) : bool :=
  match a, b with
  | VBool x, VBool y => Bool.eqb x y
  | VInt x, VInt y => Z.eqb x y
  | VStr x, VStr y => String.eqb x y
  | VBool x, VInt y => Z.eqb (Z.b2z x) y
  | VInt x, VBool y => Z.eqb x (Z.b2z y)
  | _, _ => false
  end.

Definition chr (n : nat) : ascii := ascii_of_nat n.
Definition ord (c : ascii) : nat := nat_of_ascii c.

Definition in_range (lo hi : nat) (c : ascii) : bool :=
  (lo <=? ord c)%nat && (ord c <=? hi)%nat.

(** [str.lower] on one code point below 256: A-Z and the Latin-1 capitals
    (U+00C0..U+00DE without the multiplication sign U+00D7). *)
Definition lower_char (c : ascii) : ascii :=
  if in_range 65 90 c || in_range 192 214 c || in_range 216 222 c
  then chr (ord c + 32)
  else c.

Fixpoint lower (s : string) : string :=
  match s with
  | EmptyString => EmptyString
  | String c s' => String (lower_char c) (lower s')
  end.

(** [str.isspace] on one code point below 256. *)
Definition isspace (c : ascii) : bool :=
  in_range 9 13 c || in_range 28 32 c || in_range 133 133 c
  || in_range 160 160 c.

(** [str.strip()] on a list of characters. *)
Fixpoint lstrip (sp : ascii -> bool) (s : list ascii) : list ascii :=
  match s with
  | c :: s' => if sp c then lstrip sp s' else s
  | [] => []
  end.

Definition strip (sp : ascii -> bool) (s : list ascii) : list ascii :=
  rev (lstrip sp (rev (lstrip sp s))).

(** [len] of a value: only strings have a length. *)
Definition len (v : value) : result Z :=
  match v with
  | VStr s => Ok (Z.of_nat (String.length s))
  | VBool _ => Raise (TypeError "object of type 'bool' has no len()")
  | VInt _ => Raise (TypeError "object of type 'int' has no len()")
  end.

(** [str(v)], which is also what an f-string field [{v}] renders. *)
Definition str (v : value) : string :=
  match v with
  | VStr s => s
  | VBool true => "True"
  | VBool false => "False"
  | VInt n => NilEmpty.string_of_int (Z.to_int n)
  end.

(** The slice [s[:k]]: the first [k] characters, and for a negative [k]
    all but the last [-k]. *)
Fixpoint firstn_string (n : nat) (s : string) : string :=
  match n, s with
  | S n', String c s' => String c (firstn_string n' s')
  | _, _ => EmptyString
  end.

Definition slice_to (k : Z) (s : string) : string :=
  if (k <? 0)%Z
  then firstn_string (Z.to_nat (Z.of_nat (String.length s) + k)) s
  else firstn_string (Z.to_nat k) s.

(** [int(s)] in base 10: surrounding whitespace is dropped, one sign is
    allowed, and single underscores may separate digits. *)
Definition int_space (c : ascii) : bool :=
  in_range 9 13 c || in_range 32 32 c || in_range 133 133 c
  || in_range 160 160 c.

Definition is_digit (c : ascii) : bool := in_range 48 57 c.

Fixpoint digits (acc : Z) (after_digit : bool) (s : list ascii) : option Z :=
  match s with
  | [] => if after_digit then Some acc else None
  | c :: s' =>
      if is_digit c
      then digits (10 * acc + Z.of_nat (ord c - 48))%Z true s'
      else if Ascii.eqb c "_"%char
           then if after_digit then digits acc false s' else None
           else None
  end.

Definition int (s : string) : result Z :=
  let bad := Raise (ValueError "invalid literal for int() with base 10") in
  match strip int_space (list_ascii_of_string s) with
  | c :: r =>
      if Ascii.eqb c "-"%char
      then match digits 0 false r with Some n => Ok (- n)%Z | None => bad end
      else if Ascii.eqb c "+"%char
      then match digits 0 false r with Some n => Ok n | None => bad end
      else match digits 0 false (c :: r) with Some n => Ok n | None => bad end
  | [] => bad
  end.

(** [i in d] / [d[i]] on a dict, kept as an association list. *)
Fixpoint dict_get {V : Type} (d : list (Z * V)) (k : Z) : option V :=
  match d with
  | [] => None
  | (k', v) :: d' => if Z.eqb k' k then Some v else dict_get d' k
  end.

(** [enumerate(l)] *)
Fixpoint enumerate_from {A : Type} (i : Z) (l : list A) : list (Z * A) :=
  match l with
  | [] => []
  | x :: l' => (i, x) :: enumerate_from (i + 1)%Z l'
  end.

Definition enumerate {A : Type} (l : list A) : list (Z * A) :=
  enumerate_from 0%Z l.

End Py.

Import Py.

(* ================================================================== *)
(** ** main.py, line 22: str2bool *)

Definition str2bool (v : string) : bool :=
  existsb (String.eqb (lower v)) ["yes"; "true"; "t"; "1"].

(* ================================================================== *)
(** ** textwrap.fill, as the hover callback calls it

    [textwrap.fill(title, width=wraplen)] builds a [TextWrapper] with the
    default options: tabs expanded to 8 columns, whitespace replaced by
    blanks, long words broken, hyphenated words broken after a hyphen,
    whitespace dropped at line ends, no indent, no line limit. *)

Module textwrap.

Definition text := list ascii.

(** [_whitespace = '\t\n\x0b\x0c\r '] *)
Definition whitespace (c : ascii) : bool :=
  in_range 9 13 c || in_range 32 32 c.

(** The character classes of [wordsep_re]: [\w] (word_char), [[^\d\W]]
    (letter) and word_punct, which adds seven punctuation marks to [\w]. *)
Definition word_char (c : ascii) : bool :=
  in_range 48 57 c || in_range 65 90 c || in_range 95 95 c
  || in_range 97 122 c || in_range 170 170 c || in_range 178 179 c
  || in_range 181 181 c || in_range 185 186 c || in_range 188 190 c
  || in_range 192 214 c || in_range 216 246 c || in_range 248 255 c.

Definition letter (c : ascii) : bool := word_char c && negb (is_digit c).

Definition word_punct (c : ascii) : bool :=
  word_char c || in_range 33 34 c || in_range 38 39 c || in_range 44 44 c
  || in_range 46 46 c || in_range 63 63 c.

Definition dash (c : ascii) : bool := in_range 45 45 c.

(** [str.expandtabs(tabsize)]: the column restarts after a line feed or a
    carriage return. *)
Fixpoint expandtabs (tabsize line_pos : nat) (s : text) : text :=
  match s with
  | [] => []
  | c :: s' =>
      if in_range 9 9 c
      then if (0 <? tabsize)%nat
           then let incr := (tabsize - line_pos mod tabsize)%nat in
                repeat " "%char incr
                ++ expandtabs tabsize (line_pos + incr)%nat s'
           else expandtabs tabsize line_pos s'
      else c :: expandtabs tabsize
                  (if in_range 10 10 c || in_range 13 13 c
                   then 0%nat else S line_pos) s'
  end.

(** [_munge_whitespace] *)
Definition _munge_whitespace (s : text) : text :=
  map (fun c => if whitespace c then " "%char else c) (expandtabs 8 0 s).

(** The longest prefix of [s] whose characters satisfy [p], and the rest. *)
Fixpoint span (p : ascii -> bool) (s : text) : text * text :=
  match s with
  | c :: s' =>
      if p c then let (m, r) := span p s' in (c :: m, r) else ([], s)
  | [] => ([], [])
  end.

Definition head_is (p : ascii -> bool) (s : text) : bool :=
  match s with c :: _ => p c | [] => false end.

(** The lookahead [(?= lt -? lt)]. *)
Definition ahead_letters (s : text) : bool :=
  match s with
  | a :: b :: r => letter a && ((dash b && head_is letter r) || letter b)
  | _ => false
  end.

(** The lookahead [(?=-{2,}\w)]. *)
Definition ahead_emdash (s : text) : bool :=
  let (d, r) := span dash s in (2 <=? List.length d)%nat && head_is word_char r.

(** The lookbehinds [(?<=lt{2}-) | (?<=lt-lt-)], tried right after a
    hyphen; [b] is the text before that hyphen, last character first. *)
Definition behind_hyphen (b : text) : bool :=
  match b with
  | x :: y :: r =>
      (letter x && letter y) || (letter x && dash y && head_is letter r)
  | _ => false
  end.

(** The third alternative of [wordsep_re] once its first character is
    taken: the lazy [nws+?] grows one character at a time until the word
    can end, after a hyphen inside a hyphenated word, before whitespace or
    the end of the text, or before an em-dash.  [b] is the text read so
    far, last character first; the result is the rest of the chunk and the
    text after it. *)
Fixpoint word_tail (b s : text) : text * text :=
  match s with
  | [] => ([], [])
  | c :: s' =>
      if dash c && behind_hyphen b && ahead_letters s' then ([c], s')
      else if whitespace c then ([], s)
      else if head_is word_punct b && ahead_emdash s then ([], s)
      else let (m, r) := word_tail (c :: b) s' in (c :: m, r)
  end.

(** One match of [wordsep_re] at the start of a non-empty [s]: a run of
    whitespace, an em-dash between words, or a word. *)
Definition wordsep_match (b s : text) : option (text * text) :=
  match s with
  | [] => None
  | c :: s' =>
      if whitespace c then Some (span whitespace s)
      else if head_is word_punct b && ahead_emdash s then Some (span dash s)
      else let (m, r) := word_tail (c :: b) s' in Some (c :: m, r)
  end.

(** [wordsep_re.split(text)] without the empty strings: the matches in
    order, and between two matches the text no match covers.  [gap] holds
    such text, last character first. *)
Definition flush (gap : text) (chunks : list text) : list text :=
  match gap with [] => chunks | _ => rev gap :: chunks end.

Fixpoint split_loop (fuel : nat) (b s gap : text) : option (list text) :=
  match s with
  | [] => Some (flush gap [])
  | c :: s' =>
      match fuel with
      | O => None
      | S fuel' =>
          match wordsep_match b s with
          | Some (m, r) =>
              match split_loop fuel' (rev m ++ b) r [] with
              | Some chunks => Some (flush gap (flush (rev m) chunks))
              | None => None
              end
          | None => split_loop fuel' (c :: b) s' (c :: gap)
          end
      end
  end.

(** [_split]: the chunks of a text. *)
Definition _split (s : text) : list text :=
  match split_loop (List.length s) [] s [] with
  | Some chunks => chunks
  | None => []
  end.

Definition _split_chunks (s : text) : list text :=
  _split (_munge_whitespace s).

(** [chunk.strip() == ''] *)
Definition blank (chunk : text) : bool := forallb isspace chunk.

Definition total_len (l : list text) : nat :=
  fold_right (fun c n => (List.length c + n)%nat) 0%nat l.

(** [chunk.rfind('-', 0, stop)]: the last hyphen among the first [stop]
    characters. *)
Fixpoint rfind_dash (i stop : nat) (chunk : text) : option nat :=
  match stop, chunk with
  | S stop', c :: chunk' =>
      match rfind_dash (S i) stop' chunk' with
      | Some j => Some j
      | None => if dash c then Some i else None
      end
  | _, _ => None
  end.

(** [_handle_long_word] with [break_long_words] and [break_on_hyphens]:
    the part of the chunk put on the current line, and the part left. *)
Definition _handle_long_word (chunk : text) (cur_len width : nat)
  : text * text :=
  let space_left := if (width <? 1)%nat then 1%nat else (width - cur_len)%nat in
  let stop :=
    if (space_left <? List.length chunk)%nat
    then match rfind_dash 0 space_left chunk with
         | Some hyphen =>
             if (0 <? hyphen)%nat
                && existsb (fun c => negb (dash c)) (firstn hyphen chunk)
             then S hyphen else space_left
         | None => space_left
         end
    else space_left in
  (firstn stop chunk, skipn stop chunk).

(** The inner loop of [_wrap_chunks]: chunks are moved to the current line
    while they fit. *)
Fixpoint take_fitting (width cur_len : nat) (chunks : list text)
  : list text * nat * list text :=
  match chunks with
  | c :: chunks' =>
      if (cur_len + List.length c <=? width)%nat
      then let '(line, n, rest) :=
             take_fitting width (cur_len + List.length c)%nat chunks' in
           (c :: line, n, rest)
      else ([], cur_len, chunks)
  | [] => ([], cur_len, [])
  end.

(** [del cur_line[-1]] when the last chunk of the line is blank. *)
Definition drop_last_blank (cur_line : list text) : list text :=
  match rev cur_line with
  | c :: r => if blank c then rev r else cur_line
  | [] => cur_line
  end.

(** One round of the outer loop of [_wrap_chunks], entered with chunks
    left: the line it appends, if any, and the chunks it leaves. *)
Definition wrap_line (width : nat) (lines : list text) (chunks : list text)
  : option text * list text :=
  let chunks1 :=
    match chunks, lines with
    | c :: chunks', _ :: _ => if blank c then chunks' else chunks
    | _, _ => chunks
    end in
  let '(cur_line, cur_len, chunks2) := take_fitting width 0 chunks1 in
  let '(cur_line1, chunks3) :=
    match chunks2 with
    | c :: chunks' =>
        if (width <? List.length c)%nat
        then let (piece, left) := _handle_long_word c cur_len width in
             (cur_line ++ [piece], left :: chunks')
        else (cur_line, chunks2)
    | [] => (cur_line, chunks2)
    end in
  let cur_line2 := drop_last_blank cur_line1 in
  (match cur_line2 with [] => None | _ => Some (List.concat cur_line2) end,
   chunks3).

Fixpoint wrap_loop (fuel width : nat) (chunks lines : list text)
  : option (list text) :=
  match chunks with
  | [] => Some lines
  | _ :: _ =>
      match fuel with
      | O => None
      | S fuel' =>
          let (line, rest) := wrap_line width lines chunks in
          wrap_loop fuel' width rest
            (match line with Some l => lines ++ [l] | None => lines end)
      end
  end.

(** What bounds the rounds of the outer loop: every round drops a chunk or
    shortens the first one. *)
Definition weight (chunks : list text) : nat :=
  fold_right (fun c n => S (List.length c + n)) 0%nat chunks.

(** [_wrap_chunks] *)
Definition _wrap_chunks (width : Z) (chunks : list text)
  : result (list text) :=
  if (width <=? 0)%Z
  then Raise (ValueError "invalid width (must be > 0)")
  else Ok (match wrap_loop (weight chunks) (Z.to_nat width) chunks [] with
           | Some lines => lines
           | None => []
           end).

(** [TextWrapper.wrap] and [TextWrapper.fill] *)
Definition wrap (s : text) (width : Z) : result (list text) :=
  _wrap_chunks width (_split_chunks s).

Fixpoint join (sep : text) (l : list text) : text :=
  match l with
  | [] => []
  | [x] => x
  | x :: l' => x ++ sep ++ join sep l'
  end.

Definition newline : ascii := chr 10.

Definition fill (s : text) (width : Z) : result text :=
  lines <- wrap s width ;;
  Ok (join [newline] lines).

End textwrap.

(* ================================================================== *)
(** ** The data frame

    A pandas [DataFrame] is kept row by row: every row carries its index
    label and its cells by column name; the columns and their dtypes are
    listed once.  The index may hold a label more than once, as in pandas. *)

Module pandas.

(** The dtypes [add_molecules] tells apart: [bool], [int], and any other,
    which strings have. *)
Inductive dtype : Type := dtype_bool | dtype_int | dtype_object.

(** One row: column name to cell. *)
Definition Series := list (string * value).

Fixpoint series_find (col : string) (row : Series) : option value :=
  match row with
  | [] => None
  | (c, v) :: row' => if String.eqb c col then Some v else series_find col row'
  end.

(** [row[col]] *)
Definition getitem (row : Series) (col : string) : result value :=
  match series_find col row with
  | Some v => Ok v
  | None => Raise (KeyError col)
  end.

Fixpoint series_set (col : string) (v : value) (row : Series) : Series :=
  match row with
  | [] => [(col, v)]
  | (c, x) :: row' =>
      if String.eqb c col then (c, v) :: row'
      else (c, x) :: series_set col v row'
  end.

Record DataFrame : Type := {
  columns : list (string * dtype);
  rows : list (Z * Series)
}.

Fixpoint find_dtype (col : string) (cols : list (string * dtype))
  : option dtype :=
  match cols with
  | [] => None
  | (c, t) :: cols' => if String.eqb c col then Some t else find_dtype col cols'
  end.

(** [df[col].dtype]; [df[col]] raises when there is no such column. *)
Definition column_dtype (df : DataFrame) (col : string) : result dtype :=
  match find_dtype col (columns df) with
  | Some t => Ok t
  | None => Raise (KeyError col)
  end.

(** [df[cols].copy()] for a list of column names. *)
Definition project (cols : list string) (row : Series) : Series :=
  flat_map (fun c => match series_find c row with
                     | Some v => [(c, v)]
                     | None => []
                     end) cols.

Fixpoint select_dtypes (cols : list string) (df : DataFrame)
  : result (list (string * dtype)) :=
  match cols with
  | [] => Ok []
  | c :: cols' =>
      t <- column_dtype df c ;;
      ts <- select_dtypes cols' df ;;
      Ok ((c, t) :: ts)
  end.

Definition select (cols : list string) (df : DataFrame) : result DataFrame :=
  ts <- select_dtypes cols df ;;
  Ok {| columns := ts;
        rows := map (fun ir => (fst ir, project cols (snd ir))) (rows df) |}.

(** [df.loc[i, col] = v]: the cell is set in every row labelled [i]; a
    column that does not exist yet is created. *)
Definition loc_set (i : Z) (col : string) (v : value) (df : DataFrame)
  : DataFrame :=
  {| columns := match find_dtype col (columns df) with
                | Some _ => columns df
                | None => columns df ++ [(col, dtype_object)]
                end;
     rows := map (fun ir => if Z.eqb (fst ir) i
                            then (fst ir, series_set col v (snd ir))
                            else ir) (rows df) |}.

(** The mask [df[col] == v], row by row: a missing cell equals nothing. *)
Definition cell_is (col : string) (v : value) (row : Series) : bool :=
  match series_find col row with
  | Some x => value_eqb x v
  | None => false
  end.

(** [df[df[col] == v].reset_index(drop=True)]: the rows that pass, in their
    order, addressed from 0 again. *)
Definition where_eq (col : string) (v : value) (df : DataFrame)
  : list Series :=
  map snd (filter (fun ir => cell_is col v (snd ir)) (rows df)).

(** [.iloc[num]] on rows: a position, counted from the end when negative. *)
Definition iloc {A : Type} (l : list A) (num : Z) : result A :=
  let n := Z.of_nat (List.length l) in
  let k := if (num <? 0)%Z then (num + n)%Z else num in
  if ((0 <=? k) && (k <? n))%Z
  then match nth_error l (Z.to_nat k) with
       | Some a => Ok a
       | None => Raise (IndexError "single positional indexer is out-of-bounds")
       end
  else Raise (IndexError "single positional indexer is out-of-bounds").

(** Line 328 hands pandas the text [f"{col} == @smiles"], so the column name
    is read as Python.  Three cases are told apart: a plain name, which the
    expression looks up as a column; several plain names in a row, which is
    no expression at all; and every other text (operators, keywords, dots,
    quotes, letters outside ASCII, ...), whose reading is left open. *)
Definition ident_start (c : ascii) : bool :=
  in_range 65 90 c || in_range 97 122 c || in_range 95 95 c.

Definition ident_char (c : ascii) : bool := ident_start c || in_range 48 57 c.

(** [keyword.kwlist] *)
Definition keywords : list string :=
  ["False"; "None"; "True"; "and"; "as"; "assert"; "async"; "await";
   "break"; "class"; "continue"; "def"; "del"; "elif"; "else"; "except";
   "finally"; "for"; "from"; "global"; "if"; "import"; "in"; "is";
   "lambda"; "nonlocal"; "not"; "or"; "pass"; "raise"; "return"; "try";
   "while"; "with"; "yield"].

(** An ASCII identifier that is no keyword and does not carry the tag
    pandas gives to the names written with [@]. *)
Definition identifier (s : string) : bool :=
  match list_ascii_of_string s with
  | c :: r => ident_start c && forallb ident_char r
  | [] => false
  end
  && negb (existsb (String.eqb s) keywords)
  && negb (String.prefix "__pd_eval_local_" s).

(** The pieces of a text between its blanks. *)
Fixpoint fields (cur : list ascii) (s : list ascii) : list string :=
  match s with
  | [] => match cur with [] => [] | _ => [string_of_list_ascii (rev cur)] end
  | c :: s' =>
      if Ascii.eqb c " "%char
      then match cur with
           | [] => fields [] s'
           | _ => string_of_list_ascii (rev cur) :: fields [] s'
           end
      else fields (c :: cur) s'
  end.

Inductive column_reading : Type :=
| PlainName
| SeveralNames
| OtherText.

Definition read_column (col : string) : column_reading :=
  if identifier col then PlainName
  else let names := fields [] (list_ascii_of_string col) in
       if (2 <=? List.length names)%nat
          && forallb identifier names
          && negb (String.prefix " " col)
       then SeveralNames
       else OtherText.

(** [df.query(f"{col} == @v")[out].values[0]]: for a plain name that is a
    column, the [out] cell of the first row whose [col] cell equals [v];
    several names in a row do not parse.  A plain name that is no column is
    looked up by pandas among the names of the index, and any other text is
    an expression of its own: both are left open. *)
Definition query_first (df : DataFrame) (col : string) (v : value)
  (out : string) : result value :=
  match read_column col with
  | PlainName =>
      _ <- match find_dtype col (columns df) with
           | Some t => Ok t
           | None => Raise (Unmodelled "a name that is no column of the frame")
           end ;;
      _ <- column_dtype df out ;;
      match filter (fun ir => cell_is col v (snd ir)) (rows df) with
      | [] => Raise (IndexError "index 0 is out of bounds for axis 0 with size 0")
      | ir :: _ => getitem (snd ir) out
      end
  | SeveralNames => Raise (SyntaxError "invalid syntax")
  | OtherText => Raise (Unmodelled "the query expression of this column name")
  end.

End pandas.

Import pandas.

(* ================================================================== *)
(** ** The figure, the options and the drawing library *)

(** A plotly trace: its label and its marker colour. *)
Record Trace : Type := { name : string; marker_color : string }.

Record Figure : Type := {
  data : list Trace;
  xaxis_title : string;
  yaxis_title : string
}.

Inductive str_or_list : Type :=
| One (s : string)
| Many (l : list string).

(** The keyword arguments of [add_molecules].  The two opacities are kept as
    the text an f-string makes of them. *)
Record Options : Type := {
  smiles_col : str_or_list;
  show_img : bool;
  svg_size : Z;
  alpha : string;
  img_alpha : string;
  title_col : option string;
  show_coords : bool;
  caption_cols : option (list string);
  caption_transform : string -> option (value -> value);
  color_col : option string;
  wrap : bool;
  wraplen : Z;
  width : Z;
  fontfamily : string;
  fontsize : Z
}.

(** What the setup needs from RDKit and base64: [Chem.MolFromSmiles], which
    gives [None] for an encoding it cannot decode, the SVG text of a drawn
    molecule on a square canvas, and [base64.b64encode]. *)
Record Drawing : Type := {
  mol : Type;
  MolFromSmiles : string -> option mol;
  GetDrawingText : Z -> mol -> string;
  b64encode : string -> string
}.

(** A drawing library to run the definitions on: an encoding decodes when
    its parentheses match, and the picture spells out the encoding. *)
Fixpoint parens_match (depth : nat) (s : string) : bool :=
  match s with
  | EmptyString => Nat.eqb depth 0
  | String c s' =>
      if Ascii.eqb c "("%char then parens_match (S depth) s'
      else if Ascii.eqb c ")"%char
           then match depth with
                | O => false
                | S d => parens_match d s'
                end
           else parens_match depth s'
  end.

Definition sample_drawing : Drawing :=
  {| mol := string;
     MolFromSmiles := fun s => if parens_match 0 s then Some s else None;
     GetDrawingText := fun size m => ("<svg>" ++ m ++ "</svg>")%string;
     b64encode := fun s => s |}.

(* ================================================================== *)
(** ** main.py, lines 145-455: add_molecules and display_hover *)

(** The blocks of the hover box, and the [html.Div] that holds them. *)
Inductive element : Type :=
| Img (src : value) (style : list (string * value))
| H2 (text : string) (style : list (string * value))
| P (text : string) (style : list (string * value)).

Inductive container : Type :=
| Div (children : list element) (style : list (string * value)).

(** dash's [no_update], or a new value for an output. *)
Inductive output (A : Type) : Type :=
| no_update
| update (a : A).

Arguments no_update {A}.
Arguments update {A} a.

(** The anchor rectangle of a hovered point. *)
Record BBox : Type := { x0 : Z; x1 : Z; y0 : Z; y1 : Z }.

(** One entry of [hoverData["points"]]. *)
Record Point : Type := {
  bbox : BBox;
  pointNumber : Z;
  curveNumber : Z;
  x : value;
  y : value
}.

(** The [value] of the component [smiles-menu]: a name, a list of names, or
    nothing. *)
Inductive menu_value : Type :=
| MenuStr (s : string)
| MenuList (l : list string)
| MenuNone.

(** What [display_hover] closes over once [add_molecules] has run. *)
Record App : Type := {
  fig : Figure;
  df : DataFrame;
  options : Options;
  smiles_cols : list string;
  df_data : DataFrame;
  colors : list (Z * string);
  curve_dict : list (Z * value)
}.

Section Setup.

Variable rdkit : Drawing.

(** Lines 232-241: the image of one cell as a data URI. *)
Definition draw_image (size : Z) (cell : value) : result string :=
  match cell with
  | VStr smiles =>
      match MolFromSmiles rdkit smiles with
      | Some m =>
          Ok ("data:image/svg+xml;base64,"
              ++ b64encode rdkit (GetDrawingText rdkit size m))%string
      | None =>
          Raise (ArgumentError "MolDraw2D.DrawMolecule(MolDraw2DSVG, NoneType)")
      end
  | _ => Raise (ArgumentError "Chem.MolFromSmiles: not a string")
  end.

(** Lines 228-243: the columns of one row. *)
Fixpoint draw_row (size : Z) (i : Z) (row : Series) (cols : list string)
  (acc : DataFrame) : result DataFrame :=
  match cols with
  | [] => Ok acc
  | col :: cols' =>
      cell <- getitem row col ;;
      img_str <- draw_image size cell ;;
      draw_row size i row cols' (loc_set i (col ++ "_img")%string (VStr img_str) acc)
  end.

(** Lines 227-243: [for i, row in df_data.iterrows()]; the rows iterated are
    those the frame had when the loop began. *)
Fixpoint draw_rows (size : Z) (its : list (Z * Series)) (cols : list string)
  (acc : DataFrame) : result DataFrame :=
  match its with
  | [] => Ok acc
  | (i, row) :: its' =>
      acc' <- draw_row size i row cols acc ;;
      draw_rows size its' cols acc'
  end.

(** Lines 224-243: the image cache. *)
Definition build_images (df : DataFrame) (cols : list string) (size : Z)
  : result DataFrame :=
  df_data <- select cols df ;;
  draw_rows size (rows df_data) cols df_data.

(** Lines 250-257: the label of every trace, coerced to the dtype of the
    colour column. *)
Fixpoint int_names (l : list (Z * Trace)) : result (list (Z * value)) :=
  match l with
  | [] => Ok []
  | (index, t) :: l' =>
      n <- Py.int (name t) ;;
      d <- int_names l' ;;
      Ok ((index, VInt n) :: d)
  end.

Definition build_curve_dict (fig : Figure) (t : dtype)
  : result (list (Z * value)) :=
  match t with
  | dtype_bool =>
      Ok (map (fun ix => (fst ix, VBool (str2bool (name (snd ix)))))
              (enumerate (data fig)))
  | dtype_int => int_names (enumerate (data fig))
  | dtype_object =>
      Ok (map (fun ix => (fst ix, VStr (name (snd ix))))
              (enumerate (data fig)))
  end.

(** Lines 246-261: the colours and the curve-to-group map. *)
Definition build_series (fig : Figure) (df : DataFrame)
  (color_col : option string)
  : result (list (Z * string) * list (Z * value)) :=
  if negb (Nat.eqb (List.length (data fig)) 1)
  then match color_col with
       | Some c =>
           let colors :=
             map (fun ix => (fst ix, marker_color (snd ix)))
                 (enumerate (data fig)) in
           t <- column_dtype df c ;;
           d <- build_curve_dict fig t ;;
           Ok (colors, d)
       | None =>
           Raise (ValueError
             "color_col needs to be specified if there is more than one plotly curve in the figure!")
       end
  else Ok ([(0%Z, "black")], []).

(** Lines 202-267: the setup.  The page layout built around the callback is
    left out. *)
Definition add_molecules (fig : Figure) (df : DataFrame) (o : Options)
  : result App :=
  let cols := match smiles_col o with One s => [s] | Many l => l end in
  df_data <- build_images df cols (svg_size o) ;;
  cd <- build_series fig df (color_col o) ;;
  Ok {| fig := fig; df := df; options := o; smiles_cols := cols;
        df_data := df_data; colors := fst cd; curve_dict := snd cd |}.

End Setup.

(** Lines 314-318: the row a hovered point stands for. *)
Definition resolve_row (app : App) (num curve_num : Z) : result Series :=
  if negb (Nat.eqb (List.length (data (fig app))) 1)
  then match color_col (options app) with
       | Some c =>
           _ <- column_dtype (df app) c ;;
           match dict_get (curve_dict app) curve_num with
           | Some group =>
               iloc (where_eq c group (df app)) num
           | None => Raise (KeyError (str (VInt curve_num)))
           end
       | None => Raise (KeyError "None")
       end
  else iloc (map snd (rows (df app))) num.

(** Lines 322-338: the image blocks. *)
Definition member (col : string) (chosen : menu_value) : result bool :=
  match chosen with
  | MenuStr s => Ok (existsb (String.eqb col) [s])
  | MenuList l => Ok (existsb (String.eqb col) l)
  | MenuNone => Raise (TypeError "argument of type 'NoneType' is not iterable")
  end.

Fixpoint image_blocks (app : App) (df_row : Series) (chosen : menu_value)
  (cols : list string) : result (list element) :=
  match cols with
  | [] => Ok []
  | col :: cols' =>
      active <- member col chosen ;;
      if active
      then smiles <- getitem df_row col ;;
           img_str <- query_first (df_data app) col smiles (col ++ "_img")%string ;;
           rest <- image_blocks app df_row chosen cols' ;;
           Ok (Img img_str
                 [("width", VStr "100%");
                  ("background-color",
                   VStr ("rgba(255,255,255," ++ img_alpha (options app) ++ ")"))]
               :: rest)
      else image_blocks app df_row chosen cols'
  end.

(** Lines 341-346: the text of the title. *)
Definition title_text (o : Options) (title : value) : result string :=
  n <- len title ;;
  match title with
  | VStr s =>
      if (wraplen o <? n)%Z
      then if wrap o
           then t <- textwrap.fill (list_ascii_of_string s) (wraplen o) ;;
                Ok (string_of_list_ascii t)
           else Ok (slice_to (wraplen o) s ++ "...")%string
      else Ok s
  | _ => Ok (str title)
  end.

(** Lines 340-356: the title block. *)
Definition title_block (app : App) (df_row : Series) (curve_num : Z)
  : result (list element) :=
  match title_col (options app) with
  | Some tc =>
      title <- getitem df_row tc ;;
      t <- title_text (options app) title ;;
      match dict_get (colors app) curve_num with
      | Some color =>
          Ok [H2 t [("color", VStr color);
                    ("font-family", VStr (fontfamily (options app)));
                    ("fontSize", VInt (fontsize (options app) + 2))]]
      | None => Raise (KeyError (str (VInt curve_num)))
      end
  | None => Ok []
  end.

Definition caption_style (o : Options) : list (string * value) :=
  [("color", VStr "black");
   ("font-family", VStr (fontfamily o));
   ("fontSize", VInt (fontsize o))].

(** Lines 357-405: the two axis captions. *)
Definition coord_blocks (app : App) (pt : Point) : list element :=
  let o := options app in
  if show_coords o
  then let x_label := xaxis_title (fig app) in
       let y_label := yaxis_title (fig app) in
       [match caption_transform o x_label with
        | Some f => P (x_label ++ " : " ++ str (f (x pt)))%string (caption_style o)
        | None => P (x_label ++ ": " ++ str (x pt))%string (caption_style o)
        end;
        match caption_transform o y_label with
        | Some f => P (y_label ++ " : " ++ str (f (y pt)))%string (caption_style o)
        | None => P (y_label ++ " : " ++ str (y pt))%string (caption_style o)
        end]
  else [].

(** Lines 406-431: the extra captions. *)
Fixpoint caption_list (o : Options) (df_row : Series) (captions : list string)
  : result (list element) :=
  match captions with
  | [] => Ok []
  | caption :: captions' =>
      caption_val <- getitem df_row caption ;;
      rest <- caption_list o df_row captions' ;;
      Ok (match caption_transform o caption with
          | Some f => P (caption ++ " : " ++ str (f caption_val))%string (caption_style o)
          | None => P (caption ++ " : " ++ str caption_val)%string (caption_style o)
          end :: rest)
  end.

Definition caption_blocks (app : App) (df_row : Series)
  : result (list element) :=
  match caption_cols (options app) with
  | Some captions => caption_list (options app) df_row captions
  | None => Ok []
  end.

(** Lines 300-442: the hover callback. *)
Definition display_hover (app : App) (hoverData : option (list Point))
  (value : menu_value)
  : result (bool * output BBox * output (list container)) :=
  match hoverData with
  | None => Ok (false, no_update, no_update)
  | Some points =>
      match points with
      | [] => Raise (IndexError "list index out of range")
      | pt :: _ =>
          df_row <- resolve_row app (pointNumber pt) (curveNumber pt) ;;
          images <- (if show_img (options app)
                     then image_blocks app df_row value (smiles_cols app)
                     else Ok []) ;;
          title <- title_block app df_row (curveNumber pt) ;;
          captions <- caption_blocks app df_row ;;
          Ok (true, update (bbox pt),
              update [Div (images ++ title ++ coord_blocks app pt ++ captions)
                          [("width", VStr (str (VInt (width (options app))) ++ "px"));
                           ("white-space", VStr "normal")]])
      end
  end.

(* ================================================================== *)
(** ** Notions the statements use *)

(** The capital of a small ASCII letter. *)
Definition upper_char (c : ascii) : ascii :=
  if in_range 97 122 c then chr (ord c - 32) else c.

(** [v] spells the word [w] in some mix of letter cases. *)
Fixpoint any_case_of (w v : string) : Prop :=
  match w, v with
  | EmptyString, EmptyString => True
  | String a w', String b v' => (b = a \/ b = upper_char a) /\ any_case_of w' v'
  | _, _ => False
  end.

(** Small letters and digits only. *)
Fixpoint plain_word (w : string) : bool :=
  match w with
  | EmptyString => true
  | String a w' => (in_range 97 122 a || in_range 48 57 a) && plain_word w'
  end.

Definition all_chars : list ascii := map ascii_of_nat (seq 0 256).

(** How many of the rows before position [k] pass the mask. *)
Definition matches_before (col : string) (v : value) (ds : DataFrame)
  (k : nat) : nat :=
  List.length (filter (fun ir => cell_is col v (snd ir)) (firstn k (rows ds))).

(** The words of a text: its longest runs without whitespace. *)
Fixpoint words_from (cur : textwrap.text) (s : textwrap.text)
  : list textwrap.text :=
  match s with
  | [] => textwrap.flush cur []
  | c :: s' =>
      if textwrap.whitespace c
      then textwrap.flush cur (words_from [] s')
      else words_from (c :: cur) s'
  end.



(** *** Sample data: four molecules, two of them active *)

Definition sample_options : Options :=
  {| smiles_col := One "SMILES";
     show_img := true;
     svg_size := 200;
     alpha := "0.75";
     img_alpha := "0.7";
     title_col := Some "name";
     show_coords := true;
     caption_cols := Some ["mw"];
     caption_transform :=
       fun c => if String.eqb c "mw"
                then Some (fun v => VStr (str v ++ " Da")%string)
                else None;
     color_col := Some "active";
     wrap := true;
     wraplen := 20;
     width := 150;
     fontfamily := "Arial";
     fontsize := 12 |}.

Definition sample_columns : list (string * dtype) :=
  [("SMILES", dtype_object); ("name", dtype_object);
   ("active", dtype_bool); ("mw", dtype_int)].

Definition sample_row (smiles nm : string) (active : bool) (mw : Z) : Series :=
  [("SMILES", VStr smiles); ("name", VStr nm);
   ("active", VBool active); ("mw", VInt mw)].

Definition sample_df : DataFrame :=
  {| columns := sample_columns;
     rows := [(0%Z, sample_row "CC" "ethane" true 30);
              (1%Z, sample_row "CCO" "ethanol" false 46);
              (2%Z, sample_row "CC(C)O" "propan-2-ol" true 60);
              (3%Z, sample_row "c1ccccc1" "benzene" false 78)] |}.

Definition one_series : Figure :=
  {| data := [{| name := ""; marker_color := "#636efa" |}];
     xaxis_title := "logp";
     yaxis_title := "mw" |}.

Definition two_series : Figure :=
  {| data := [{| name := "True"; marker_color := "#636efa" |};
              {| name := "False"; marker_color := "#EF553B" |}];
     xaxis_title := "logp";
     yaxis_title := "mw" |}.

Definition sample_point (curve num : Z) : Point :=
  {| bbox := {| x0 := 10; x1 := 14; y0 := 20; y1 := 24 |};
     pointNumber := num;
     curveNumber := curve;
     x := VInt 2;
     y := VInt 46 |}.

Definition empty_frame : DataFrame := {| columns := []; rows := [] |}.

(** The state [add_molecules] leaves for the grouped sample chart. *)
Definition sample_app : App :=
  {| fig := two_series;
     df := sample_df;
     options := sample_options;
     smiles_cols := ["SMILES"];
     df_data :=
       match build_images sample_drawing sample_df ["SMILES"] 200 with
       | Ok d => d
       | Raise _ => empty_frame
       end;
     colors := [(0%Z, "#636efa"); (1%Z, "#EF553B")];
     curve_dict := [(0%Z, VBool true); (1%Z, VBool false)] |}.

(** The rows a series stands for: all of them when the chart has one
    series, else those whose colour cell equals the group of the series. *)
Definition series_rows (app : App) (curve_num : Z) : option (list Series) :=
  if Nat.eqb (List.length (data (fig app))) 1
  then Some (map snd (rows (df app)))
  else match color_col (options app) with
       | Some c =>
           match column_dtype (df app) c, dict_get (curve_dict app) curve_num with
           | Ok _, Some group => Some (where_eq c group (df app))
           | _, _ => None
           end
       | None => None
       end.

(** The sample frame with one encoding that does not decode. *)
Definition sample_df_undecodable : DataFrame :=
  {| columns := sample_columns;
     rows := [(0%Z, sample_row "CC" "ethane" true 30);
              (1%Z, sample_row "C(C" "broken" false 0);
              (2%Z, sample_row "CCO" "ethanol" false 46)] |}.


(** The lines of a text: what [str.split] gives at the line feeds. *)
Fixpoint text_lines (cur : textwrap.text) (s : textwrap.text)
  : list textwrap.text :=
  match s with
  | [] => [rev cur]
  | c :: s' =>
      if in_range 10 10 c
      then rev cur :: text_lines [] s'
      else text_lines (c :: cur) s'
  end.

(** What the cache loop makes of one row of the frame.  [stamp_row] is the
    pass over the columns for one iterated row [src]; [stamp_rows] applies
    it for every iterated row that carries the label [l]. *)
Fixpoint stamp_row (rdkit : Drawing) (size : Z) (src : Series)
  (cols : list string) (r : Series) : Series :=
  match cols with
  | [] => r
  | col :: cols' =>
      match series_find col src with
      | Some cell =>
          match draw_image rdkit size cell with
          | Ok img =>
              stamp_row rdkit size src cols'
                (series_set (col ++ "_img")%string (VStr img) r)
          | Raise _ => r
          end
      | None => r
      end
  end.

Fixpoint stamp_rows (rdkit : Drawing) (size : Z) (its : list (Z * Series))
  (cols : list string) (l : Z) (r : Series) : Series :=
  match its with
  | [] => r
  | (i, src) :: its' =>
      stamp_rows rdkit size its' cols l
        (if Z.eqb l i then stamp_row rdkit size src cols r else r)
  end.






(** The characters of a text that are no whitespace, in their order: what
    wrapping has to keep. *)
Definition ink (s : textwrap.text) : textwrap.text :=
  filter (fun c => negb (isspace c)) s.

(** A hover state for the title alone: the grouped sample chart with its
    title column, under a wrap length and a wrap switch to choose. *)
Definition title_options (wrap_on : bool) (len : Z) : Options :=
  {| smiles_col := One "SMILES";
     show_img := true;
     svg_size := 200;
     alpha := "0.75";
     img_alpha := "0.7";
     title_col := Some "name";
     show_coords := true;
     caption_cols := None;
     caption_transform := fun _ => None;
     color_col := Some "active";
     wrap := wrap_on;
     wraplen := len;
     width := 150;
     fontfamily := "Arial";
     fontsize := 12 |}.

(** A frame whose structure column is named by two words, and the state
    [add_molecules] leaves for it under a chart of one series. *)
Definition spaced_df : DataFrame :=
  {| columns := [("mol smiles", dtype_object); ("name", dtype_object)];
     rows := [(0%Z, [("mol smiles", VStr "CC"); ("name", VStr "ethane")]);
              (1%Z, [("mol smiles", VStr "CCO"); ("name", VStr "ethanol")])] |}.

Definition spaced_options : Options :=
  {| smiles_col := One "mol smiles";
     show_img := true;
     svg_size := 200;
     alpha := "0.75";
     img_alpha := "0.7";
     title_col := Some "name";
     show_coords := true;
     caption_cols := None;
     caption_transform := fun _ => None;
     color_col := None;
     wrap := true;
     wraplen := 20;
     width := 150;
     fontfamily := "Arial";
     fontsize := 12 |}.

Definition spaced_app : App :=
  match add_molecules sample_drawing one_series spaced_df spaced_options with
  | Ok app => app
  | Raise _ => sample_app
  end.

(** A group value of the kind a colour column of dtype [t] holds. *)
Definition has_dtype (t : dtype) (g : value) : Prop :=
  match t, g with
  | dtype_bool, VBool _ => True
  | dtype_int, VInt _ => True
  | dtype_object, VStr _ => True
  | _, _ => False
  end.

(** The characters [str] writes for a decimal number. *)
Definition digit_chars (d : Decimal.uint) : list ascii :=
  list_ascii_of_string (NilEmpty.string_of_uint d).

(** The grouped sample chart under other options. *)
Definition sample_app_with (o : Options) : App :=
  {| fig := two_series;
     df := sample_df;
     options := o;
     smiles_cols := ["SMILES"];
     df_data := df_data sample_app;
     colors := colors sample_app;
     curve_dict := curve_dict sample_app |}.

(** Options that show no image, with a title column and caption columns to
    choose. *)
Definition bare_options (title : option string) (captions : option (list string))
  : Options :=
  {| smiles_col := One "SMILES";
     show_img := false;
     svg_size := 200;
     alpha := "0.75";
     img_alpha := "0.7";
     title_col := title;
     show_coords := true;
     caption_cols := captions;
     caption_transform := fun _ => None;
     color_col := Some "active";
     wrap := true;
     wraplen := 20;
     width := 150;
     fontfamily := "Arial";
     fontsize := 12 |}.

(* ================================================================== *)
(** ** Unicode text and bytes *)

(** The static export reads pages off the network, so its text is not
    confined to 8-bit code points: here a Python [str] is the list of its
    code points, and [bytes] a list of bytes. *)
Module unicode.

Definition ustr := list N.
Definition bytes := list Byte.byte.

(** A literal of the source. *)
Definition u (s : string) : ustr := map N_of_ascii (list_ascii_of_string s).

(** The double quote, which the literals above cannot hold. *)
Definition quote : ustr := [34%N].

Fixpoint eqb (a b : ustr) : bool :=
  match a, b with
  | [], [] => true
  | x :: a', y :: b' => N.eqb x y && eqb a' b'
  | _, _ => false
  end.

(** [s.startswith(p)] *)
Fixpoint startswith (p s : ustr) : bool :=
  match p, s with
  | [], _ => true
  | x :: p', y :: s' => N.eqb x y && startswith p' s'
  | _ :: _, [] => false
  end.

(** [s.endswith(p)] *)
Definition endswith (p s : ustr) : bool := startswith (rev p) (rev s).

(** [s.replace(old, new)]: the occurrences of [old] are taken from the left
    and do not overlap.  [skip] counts the characters of an occurrence that
    are still to be passed over. *)
Fixpoint replace_from (old new : ustr) (skip : nat) (s : ustr) : ustr :=
  match s with
  | [] => []
  | c :: s' =>
      match skip with
      | S k => replace_from old new k s'
      | O =>
          if startswith old s
          then new ++ replace_from old new (List.length old - 1) s'
          else c :: replace_from old new 0 s'
      end
  end.

Definition replace (old new s : ustr) : ustr :=
  match old with
  | [] => new ++ flat_map (fun c => c :: new) s
  | _ :: _ => replace_from old new 0 s
  end.

(** [sep.join(items)] *)
Fixpoint join (sep : ustr) (items : list ustr) : ustr :=
  match items with
  | [] => []
  | [x] => x
  | x :: items' => x ++ sep ++ join sep items'
  end.

(** [s.lstrip(chars)] and [s.rstrip(chars)] *)
Fixpoint lstrip (chars s : ustr) : ustr :=
  match s with
  | c :: s' => if existsb (N.eqb c) chars then lstrip chars s' else s
  | [] => []
  end.

Definition rstrip (chars s : ustr) : ustr := rev (lstrip chars (rev s)).

(** [s.split(sep)] for a separator of one character: the first field and
    the fields after it. *)
Fixpoint split (sep : N) (s : ustr) : ustr * list ustr :=
  match s with
  | [] => ([], [])
  | c :: s' =>
      let (first, others) := split sep s' in
      if N.eqb c sep then ([], first :: others) else (c :: first, others)
  end.

(** *** UTF-8 *)

Definition byte_of (n : N) : Byte.byte :=
  match Byte.of_N n with
  | Some b => b
  | None => Byte.x00
  end.

Definition between (lo hi : N) (b : Byte.byte) : bool :=
  (lo <=? Byte.to_N b)%N && (Byte.to_N b <=? hi)%N.

(** The six low bits of a continuation byte. *)
Definition low6 (b : Byte.byte) : N := (Byte.to_N b - 0x80)%N.

(** [b.decode("utf8")], strict: the well-formed byte sequences of the
    Unicode standard, so no overlong form, no surrogate and nothing above
    U+10FFFF; [None] stands for UnicodeDecodeError. *)
Fixpoint decode (b : bytes) : option ustr :=
  match b with
  | [] => Some []
  | b0 :: r0 =>
      let n0 := Byte.to_N b0 in
      if (n0 <? 0x80)%N
      then option_map (cons n0) (decode r0)
      else if between 0xC2 0xDF b0
      then match r0 with
           | b1 :: r1 =>
               if between 0x80 0xBF b1
               then option_map (cons ((n0 - 0xC0) * 64 + low6 b1)%N) (decode r1)
               else None
           | _ => None
           end
      else if between 0xE0 0xEF b0
      then match r0 with
           | b1 :: b2 :: r2 =>
               if between (if (n0 =? 0xE0)%N then 0xA0 else 0x80)
                          (if (n0 =? 0xED)%N then 0x9F else 0xBF) b1
                  && between 0x80 0xBF b2
               then option_map
                      (cons ((n0 - 0xE0) * 4096 + low6 b1 * 64 + low6 b2)%N)
                      (decode r2)
               else None
           | _ => None
           end
      else if between 0xF0 0xF4 b0
      then match r0 with
           | b1 :: b2 :: b3 :: r3 =>
               if between (if (n0 =? 0xF0)%N then 0x90 else 0x80)
                          (if (n0 =? 0xF4)%N then 0x8F else 0xBF) b1
                  && between 0x80 0xBF b2 && between 0x80 0xBF b3
               then option_map
                      (cons ((n0 - 0xF0) * 262144 + low6 b1 * 4096
                             + low6 b2 * 64 + low6 b3)%N)
                      (decode r3)
               else None
           | _ => None
           end
      else None
  end.

(** The bytes of one code point; a surrogate has none. *)
Definition encode_point (c : N) : option bytes :=
  if (c <? 0x80)%N then Some [byte_of c]
  else if (c <? 0x800)%N
  then Some [byte_of (0xC0 + c / 64); byte_of (0x80 + c mod 64)]
  else if (c <? 0x10000)%N
  then if (0xD800 <=? c)%N && (c <=? 0xDFFF)%N
       then None
       else Some [byte_of (0xE0 + c / 4096);
                  byte_of (0x80 + (c / 64) mod 64);
                  byte_of (0x80 + c mod 64)]
  else if (c <? 0x110000)%N
  then Some [byte_of (0xF0 + c / 262144);
             byte_of (0x80 + (c / 4096) mod 64);
             byte_of (0x80 + (c / 64) mod 64);
             byte_of (0x80 + c mod 64)]
  else None.

(** [s.encode("utf8")]; [None] stands for UnicodeEncodeError. *)
Fixpoint encode (s : ustr) : option bytes :=
  match s with
  | [] => Some []
  | c :: s' =>
      match encode_point c, encode s' with
      | Some b, Some bs => Some (b ++ bs)
      | _, _ => None
      end
  end.

End unicode.

(** [posixpath], which is [os.path] where the export is meant to run. *)
Module posixpath.

Import unicode.


(** [os.path.join(a, b)] *)
Definition join (a b : ustr) : ustr :=
  if startswith (u "/") b then b
  else if match a with [] => true | _ => endswith (u "/") a end
       then a ++ b
       else a ++ u "/" ++ b.

(** [p.rfind("/") + 1]: the length of [p] up to its last slash. *)
Fixpoint after_last_slash (p : ustr) : nat :=
  match p with
  | [] => 0
  | c :: p' =>
      match after_last_slash p' with
      | O => if N.eqb c 47 then 1 else 0
      | S k => S (S k)
      end
  end.

(** [os.path.dirname(p)] *)
Definition dirname (p : ustr) : ustr :=
  let head := firstn (after_last_slash p) p in
  if match head with [] => false | _ => true end
     && negb (forallb (N.eqb 47) head)
  then rstrip (u "/") head
  else head.

End posixpath.


(* ================================================================== *)
(** ** main.py, lines 26-122: the static export *)

Module static.

Import unicode.

(** The exceptions of this part: those of the codec, the one a call on
    [None] raises, those of the operating system (by the name of their
    class), and the built-in ones of the first part. *)
Inductive export_exn : Type :=
| UnicodeDecodeError
| UnicodeEncodeError
| AttributeError (msg : string)
| OSError (name : string)
| Builtin (e : exn).

Inductive outcome (A : Type) : Type :=
| Returns (a : A)
| Raises (e : export_exn).

Arguments Returns {A} a.
Arguments Raises {A} e.

Definition and_then {A B : Type} (c : outcome A) (k : A -> outcome B)
  : outcome B :=
  match c with
  | Returns a => k a
  | Raises e => Raises e
  end.

Notation "x <~ c ;; k" := (and_then c (fun x => k))
  (at level 61, c at next level, right associativity).

Definition decode_utf8 (b : bytes) : outcome ustr :=
  match decode b with
  | Some s => Returns s
  | None => Raises UnicodeDecodeError
  end.

Definition encode_utf8 (s : ustr) : outcome bytes :=
  match encode s with
  | Some b => Returns b
  | None => Raises UnicodeEncodeError
  end.

(** Text of several lines, as the triple-quoted literals have it. *)
Definition lines (l : list string) : ustr := join [10%N] (map u l).

(** Line 31: the list comprehension over [extra.items()]. *)
Fixpoint extra_items (items : list (ustr * bytes)) : outcome (list ustr) :=
  match items with
  | [] => Returns []
  | (k, v) :: items' =>
      text <~ decode_utf8 v ;;
      rest <~ extra_items items' ;;
      Returns ((u "'/" ++ k ++ u "':" ++ text ++ u "") :: rest)
  end.

(** Lines 29-33 *)
Definition extra_jsons (items : list ustr) : ustr :=
  lines [""; "        var patched_jsons_content={"; "        "]
  ++ join (u ",") items
  ++ lines [""; "        };"; "        "].

(** Lines 37-57: what takes the place of the footer tag. *)
Definition footer_patch (items : list ustr) : ustr :=
  lines [""; "            <footer>"; "            <script>"; "            "]
  ++ extra_jsons items
  ++ lines [""; "            const origFetch = window.fetch;";
            "            window.fetch = function () {";
            "                const e = arguments[0]";
            "                if (patched_jsons_content.hasOwnProperty(e)) {";
            "                    return Promise.resolve({";
            "                        json: () => Promise.resolve(patched_jsons_content[e]),";
            "                        headers: new Headers({'content-type': 'application/json'}),";
            "                        status: 200,";
            "                    });";
            "                } else {";
            "                    return origFetch.apply(this, arguments)";
            "                }";
            "            }";
            "            </script>";
            "            "].

(** Lines 26-64.  [extra] is a dict in insertion order, or [None]. *)
Definition patch_file (file_path : ustr) (content : bytes)
  (extra : option (list (ustr * bytes))) : outcome bytes :=
  if eqb file_path (u "index.html")
  then
    index_html_content <~ decode_utf8 content ;;
    items <~ match extra with
             | Some d => extra_items d
             | None =>
                 Raises (AttributeError
                           "'NoneType' object has no attribute 'items'")
             end ;;
    let patched_content :=
      replace (u "src=" ++ quote ++ u "/") (u "src=" ++ quote)
        (replace (u "href=" ++ quote ++ u "/") (u "href=" ++ quote)
           (replace (u "<footer>") (footer_patch items) index_html_content)) in
    encode_utf8 patched_content
  else Returns content.

(** What the export does to the world around it, in the order it happens:
    a request sent, a line printed, a call to make a directory, a call to
    write a file.  A call is recorded whether or not it succeeds. *)
Inductive effect : Type :=
| Request (url : ustr)
| Print (line : ustr)
| Makedirs (path : ustr)
| WriteFile (path : ustr) (content : bytes).

(** A computation that adds to the effects so far and returns or raises. *)
Definition io (A : Type) : Type := list effect -> list effect * outcome A.

Definition ret {A : Type} (a : A) : io A := fun log => (log, Returns a).

Definition lift {A : Type} (c : outcome A) : io A := fun log => (log, c).

Definition emit (e : effect) : io unit := fun log => (log ++ [e], Returns tt).

Definition io_then {A B : Type} (c : io A) (k : A -> io B) : io B :=
  fun log =>
    match c log with
    | (log', Returns a) => k a log'
    | (log', Raises e) => (log', Raises e)
    end.

Notation "x <<~ c ;; k" := (io_then c (fun x => k))
  (at level 61, c at next level, right associativity).

(** What the file system answers: the error, if any, that
    [os.makedirs(path, exist_ok=True)] and that opening [path] for writing
    and writing [content] run into, given the calls made before. *)
Record Filesystem : Type := {
  makedirs_error : list effect -> ustr -> option export_exn;
  write_error : list effect -> ustr -> bytes -> option export_exn
}.

(** [os.makedirs(path, exist_ok=True)]: the empty path names no directory,
    whatever the file system holds. *)
Definition os_makedirs (fs : Filesystem) (path : ustr) : io unit :=
  fun log =>
    (log ++ [Makedirs path],
     match path with
     | [] => Raises (OSError "FileNotFoundError")
     | _ :: _ =>
         match makedirs_error fs log path with
         | Some e => Raises e
         | None => Returns tt
         end
     end).

(** [with open(path, "wb") as f: f.write(content)]: the empty path names no
    file, and a path that ends in a slash names a directory. *)
Definition open_write (fs : Filesystem) (path : ustr) (content : bytes)
  : io unit :=
  fun log =>
    (log ++ [WriteFile path content],
     match path with
     | [] => Raises (OSError "FileNotFoundError")
     | _ :: _ =>
         if endswith (u "/") path
         then Raises (OSError "IsADirectoryError")
         else match write_error fs log path content with
              | Some e => Raises e
              | None => Returns tt
              end
     end).

(** Lines 67-77 *)
Definition write_file (fs : Filesystem) (file_path : ustr) (content : bytes)
  (target_dir : ustr) : io unit :=
  let target_file_path :=
    posixpath.join target_dir (fst (split 63 (lstrip (u "/") file_path))) in
  let target_leaf_dir := posixpath.dirname target_file_path in
  _ <<~ os_makedirs fs target_leaf_dir ;;
  open_write fs target_file_path content.

(** Lines 85-93: [ExternalResourceParser.handle_starttag], on the list
    [self.resources].  An attribute without a value has the value [None]. *)
Definition attr_values (key : ustr) (attrs : list (ustr * option ustr))
  (resources : list (option ustr)) : list (option ustr) :=
  fold_left (fun res kv => if eqb (fst kv) key then res ++ [snd kv] else res)
            attrs resources.

Definition handle_starttag (resources : list (option ustr)) (tag : ustr)
  (attrs : list (ustr * option ustr)) : list (option ustr) :=
  let resources :=
    if eqb tag (u "link") then attr_values (u "href") attrs resources
    else resources in
  if eqb tag (u "script") then attr_values (u "src") attrs resources
  else resources.

(** What the export is given from outside: the body [requests.get] receives
    for a URL, which may depend on how many requests were sent before, and
    the start tags [HTMLParser.feed] reports for a text, each with its
    attributes, in document order. *)
Record Web : Type := {
  get : nat -> ustr -> bytes;
  starttags : ustr -> list (ustr * list (ustr * option ustr))
}.

Definition requests_sent (log : list effect) : nat :=
  List.length (filter (fun e => match e with Request _ => true | _ => false end)
                      log).

(** [requests.get(url).content] *)
Definition requests_get (w : Web) (url : ustr) : io bytes :=
  fun log => (log ++ [Request url], Returns (get w (requests_sent log) url)).

(** [parser.feed(text)] followed by [parser.resources] *)
Definition feed (w : Web) (text : ustr) : list (option ustr) :=
  fold_left (fun res ta => handle_starttag res (fst ta) (snd ta))
            (starttags w text) [].

(** [d[k] = v] on a dict kept in insertion order. *)
Fixpoint dict_set (k : ustr) (v : bytes) (d : list (ustr * bytes))
  : list (ustr * bytes) :=
  match d with
  | [] => [(k, v)]
  | (k', v') :: d' =>
      if eqb k' k then (k', v) :: d' else (k', v') :: dict_set k v d'
  end.

(** Lines 103-105 *)
Fixpoint fetch_jsons (w : Web) (base_url : ustr) (json_paths : list ustr)
  (extra_json : list (ustr * bytes)) : io (list (ustr * bytes)) :=
  match json_paths with
  | [] => ret extra_json
  | json_path :: json_paths' =>
      json_content <<~ requests_get w (base_url ++ json_path) ;;
      fetch_jsons w base_url json_paths' (dict_set json_path json_content extra_json)
  end.

(** Lines 117-122 *)
Fixpoint fetch_resources (w : Web) (fs : Filesystem)
  (base_url target_dir : ustr) (resources : list (option ustr)) : io unit :=
  match resources with
  | [] => ret tt
  | resource :: resources' =>
      resource_url <<~
        match resource with
        | Some url => ret url
        | None =>
            lift (Raises (Builtin (TypeError
              "can only concatenate str (not 'NoneType') to str")))
        end ;;
      let resource_url_full := base_url ++ resource_url in
      _ <<~ emit (Print (u "get " ++ resource_url_full)) ;;
      resource_bytes <<~ requests_get w resource_url_full ;;
      patched_bytes <<~ lift (patch_file resource_url resource_bytes None) ;;
      _ <<~ write_file fs resource_url patched_bytes target_dir ;;
      fetch_resources w fs base_url target_dir resources'
  end.

Definition extra_js : list ustr :=
  [u "_dash-component-suites/dash/dcc/async-graph.js";
   u "_dash-component-suites/dash/dcc/async-plotlyjs.js";
   u "_dash-component-suites/dash/dash_table/async-table.js";
   u "_dash-component-suites/dash/dash_table/async-highlight.js"].

(** Lines 96-122 *)
Definition make_static (w : Web) (fs : Filesystem)
  (base_url target_dir : ustr) : io unit :=
  index_html_bytes <<~ requests_get w base_url ;;
  extra_json <<~ fetch_jsons w base_url
                   [u "_dash-layout"; u "_dash-dependencies"] [] ;;
  patched_bytes <<~ lift (patch_file (u "index.html") index_html_bytes
                                     (Some extra_json)) ;;
  _ <<~ write_file fs (u "index.html") patched_bytes target_dir ;;
  text <<~ lift (decode_utf8 patched_bytes) ;;
  fetch_resources w fs base_url target_dir (feed w text ++ map Some extra_js).

(** *** Notions for the static export *)

(** A Unicode scalar value: a code point up to U+10FFFF that is not a
    surrogate.  Text made of these is what UTF-8 can write. *)
Definition scalar (c : N) : bool :=
  (c <? 0xD800)%N || ((0xDFFF <? c)%N && (c <? 0x110000)%N).

(** [p in s] *)
Fixpoint contains (p s : ustr) : bool :=
  startswith p s
  || match s with
     | [] => false
     | _ :: s' => contains p s'
     end.

(** The file a resource is stored in, as [write_file] computes it. *)
Definition target_path (target_dir file_path : ustr) : ustr :=
  posixpath.join target_dir (fst (split 63 (lstrip (u "/") file_path))).

(** What fetching resources one after the other leaves behind when nothing
    goes wrong: for each, the line printed, the request, and the body
    received written as it came. [n] requests were sent before. *)
Fixpoint resource_trace (w : Web) (base_url target_dir : ustr) (n : nat)
  (urls : list ustr) : list effect :=
  match urls with
  | [] => []
  | url :: urls' =>
      [Print (u "get " ++ base_url ++ url);
       Request (base_url ++ url);
       Makedirs (posixpath.dirname (target_path target_dir url));
       WriteFile (target_path target_dir url) (get w n (base_url ++ url))]
      ++ resource_trace w base_url target_dir (S n) urls'
  end.

(** A web to run the export on: every body is the text of its URL, except
    the page at [http://h/], which holds a footer and two links; the parser
    reports what [page_tags] lists. *)
Definition sample_page : ustr :=
  u "<link href=" ++ quote ++ u "/a.css" ++ quote ++ u "><footer>"
  ++ u "<script src=" ++ quote ++ u "/b.js?v=1" ++ quote ++ u "></script>".

Definition sample_web (tags : list (ustr * list (ustr * option ustr))) : Web :=
  {| get := fun _ url =>
              map byte_of (if eqb url (u "http://h/") then sample_page else url);
     starttags := fun _ => tags |}.

Definition page_tags : list (ustr * list (ustr * option ustr)) :=
  [(u "link", [(u "href", Some (u "a.css"))]);
   (u "footer", []);
   (u "script", [(u "src", Some (u "b.js?v=1"))])].

(** A file system that accepts every call it is free to accept. *)
Definition sample_fs : Filesystem :=
  {| makedirs_error := fun _ _ => None;
     write_error := fun _ _ _ => None |}.

(** A resource path names a file: without its leading slashes and its
    query it is not empty and does not end in a slash. *)
Definition names_file (file_path : ustr) : bool :=
  match fst (split 63 (lstrip (u "/") file_path)) with
  | [] => false
  | rel => negb (endswith (u "/") rel)
  end.

(** The same page when the parser reports a script tag whose [src] has no
    value. *)
Definition valueless_tags : list (ustr * list (ustr * option ustr)) :=
  [(u "link", [(u "href", Some (u "a.css"))]);
   (u "script", [(u "src", None)]);
   (u "script", [(u "src", Some (u "b.js?v=1"))])].

(** The effects of the export up to the index page: three requests, then
    the patched page written. *)
Definition index_trace (base_url target_dir : ustr) (patched : bytes)
  : list effect :=
  [Request base_url;
   Request (base_url ++ u "_dash-layout");
   Request (base_url ++ u "_dash-dependencies");
   Makedirs (posixpath.dirname (target_path target_dir (u "index.html")));
   WriteFile (target_path target_dir (u "index.html")) patched].

(** The dict [extra_json] the export builds from the second and third
    body it receives. *)
Definition extra_json_of (w : Web) (base_url : ustr) (n : nat)
  : list (ustr * bytes) :=
  [(u "_dash-layout", get w (S n) (base_url ++ u "_dash-layout"));
   (u "_dash-dependencies",
    get w (S (S n)) (base_url ++ u "_dash-dependencies"))].

End static.

(* ================================================================== *)
(** * Properties *)

(** ** Results *)

Lemma bind_ok {A B : Type} (c : result A) (k : A -> result B) (b : B) :
  bind c k = Ok b -> exists a, c = Ok a /\ k a = Ok b.
Proof.
  destruct c as [a | e]; simpl; intros H.
  - exists a. split; [reflexivity | exact H].
  - discriminate H.
Qed.

Lemma bind_raise {A B : Type} (c : result A) (k : A -> result B) (e : exn) :
  c = Raise e -> bind c k = Raise e.
Proof. intros ->. reflexivity. Qed.

(** ** Characters, checked over all 256 code points *)

Lemma all_chars_complete (c : ascii) : In c all_chars.
Proof.
  unfold all_chars.
  rewrite <- (ascii_nat_embedding c).
  apply in_map, in_seq.
  pose proof (nat_ascii_bounded c). lia.
Qed.

Lemma for_all_chars (p : ascii -> bool) :
  forallb p all_chars = true -> forall c, p c = true.
Proof.
  intros H c. rewrite forallb_forall in H. apply H, all_chars_complete.
Qed.

Lemma lower_char_plain (a b : ascii) :
  (in_range 97 122 a || in_range 48 57 a) = true ->
  lower_char b = a <-> (b = a \/ b = upper_char a).
Proof.
  intros Ha.
  assert (Hall : forallb (fun a => forallb (fun b =>
            implb (in_range 97 122 a || in_range 48 57 a)
              (Bool.eqb (Ascii.eqb (lower_char b) a)
                 (Ascii.eqb b a || Ascii.eqb b (upper_char a))))
            all_chars) all_chars = true) by (vm_compute; reflexivity).
  pose proof (for_all_chars _ (for_all_chars _ Hall a) b) as H.
  cbv beta in H. rewrite Ha in H. simpl in H.
  apply Bool.eqb_prop in H.
  split.
  - intros E. apply Ascii.eqb_eq in E. rewrite E in H.
    symmetry in H. apply orb_true_iff in H.
    destruct H as [H | H]; apply Ascii.eqb_eq in H; auto.
  - intros E. apply Ascii.eqb_eq. rewrite H. apply orb_true_iff.
    destruct E as [E | E]; [left | right]; apply Ascii.eqb_eq; exact E.
Qed.

Lemma lower_any_case (w : string) :
  plain_word w = true -> forall v, lower v = w <-> any_case_of w v.
Proof.
  induction w as [| a w IH]; intros Hw v.
  - destruct v; simpl; split; intros H; try reflexivity; try discriminate;
      try contradiction; exact I.
  - simpl in Hw. apply andb_true_iff in Hw. destruct Hw as [Ha Hw].
    destruct v as [| b v]; simpl.
    + split; [discriminate | contradiction].
    + split.
      * intros H. injection H as Hc Hs. split.
        -- apply (lower_char_plain a b Ha). exact Hc.
        -- apply IH; assumption.
      * intros [Hc Hs]. f_equal.
        -- apply (lower_char_plain a b Ha). exact Hc.
        -- apply IH; assumption.
Qed.

(** [str2bool] accepts exactly the four words, in any letter case. *)
Lemma str2bool_true_iff (v : string) :
  str2bool v = true <->
  exists w, In w ["yes"; "true"; "t"; "1"] /\ any_case_of w v.
Proof.
  unfold str2bool. rewrite existsb_exists. split.
  - intros [w [Hin Heq]]. exists w. split; [exact Hin |].
    apply String.eqb_eq in Heq.
    apply lower_any_case; [| exact Heq].
    simpl in Hin.
    destruct Hin as [<- | [<- | [<- | [<- | []]]]]; reflexivity.
  - intros [w [Hin Hany]]. exists w. split; [exact Hin |].
    apply String.eqb_eq.
    apply lower_any_case; [| exact Hany].
    simpl in Hin.
    destruct Hin as [<- | [<- | [<- | [<- | []]]]]; reflexivity.
Qed.

(** ** Dicts built by [enumerate] *)

Lemma dict_get_enumerate_from {A V : Type} (f : Z * A -> V) (l : list A) :
  forall (start : Z) (i : nat),
    dict_get (map (fun ix => (fst ix, f ix)) (enumerate_from start l))
             (start + Z.of_nat i)
    = option_map (fun a => f ((start + Z.of_nat i)%Z, a)) (nth_error l i).
Proof.
  induction l as [| a l IH]; intros start i.
  - destruct i; reflexivity.
  - destruct i as [| i]; simpl.
    + replace (start + 0)%Z with start by lia.
      rewrite Z.eqb_refl. reflexivity.
    + destruct (Z.eqb_spec start (start + Z.pos (Pos.of_succ_nat i))) as [E | _];
        [lia |].
      replace (start + Z.pos (Pos.of_succ_nat i))%Z
        with ((start + 1) + Z.of_nat i)%Z by lia.
      apply IH.
Qed.

Lemma dict_get_enumerate {A V : Type} (f : Z * A -> V) (l : list A) (i : nat) :
  dict_get (map (fun ix => (fst ix, f ix)) (enumerate l)) (Z.of_nat i)
  = option_map (fun a => f (Z.of_nat i, a)) (nth_error l i).
Proof. apply (dict_get_enumerate_from f l 0%Z i). Qed.

(** ** What a successful setup fixes *)

Lemma add_molecules_inv (rdkit : Drawing) (f : Figure) (d : DataFrame)
  (o : Options) (app : App) :
  add_molecules rdkit f d o = Ok app ->
  exists dd cd,
    build_images rdkit d (match smiles_col o with One s => [s] | Many l => l end)
                 (svg_size o) = Ok dd /\
    build_series f d (color_col o) = Ok cd /\
    app = {| fig := f; df := d; options := o;
             smiles_cols := match smiles_col o with One s => [s] | Many l => l end;
             df_data := dd; colors := fst cd; curve_dict := snd cd |}.
Proof.
  unfold add_molecules. intros H.
  apply bind_ok in H. destruct H as [dd [Hdd H]].
  apply bind_ok in H. destruct H as [cd [Hcd H]].
  injection H as <-. exists dd, cd. auto.
Qed.

Lemma build_series_grouped (f : Figure) (d : DataFrame) (cc : option string)
  (cd : list (Z * string) * list (Z * value)) :
  List.length (data f) <> 1%nat ->
  build_series f d cc = Ok cd ->
  exists c t,
    cc = Some c /\ column_dtype d c = Ok t /\
    build_curve_dict f t = Ok (snd cd).
Proof.
  intros Hn. unfold build_series.
  destruct (Nat.eqb_spec (List.length (data f)) 1) as [E | _]; [contradiction |].
  simpl. destruct cc as [c |]; [| discriminate].
  intros H. apply bind_ok in H. destruct H as [t [Ht H]].
  apply bind_ok in H. destruct H as [cdict [Hc H]].
  injection H as <-. exists c, t. auto.
Qed.

(** ** Rows by position *)

Lemma iloc_nth {A : Type} (l : list A) (k : nat) (a : A) :
  nth_error l k = Some a -> iloc l (Z.of_nat k) = Ok a.
Proof.
  intros H. unfold iloc.
  assert (Hk : (k < List.length l)%nat)
    by (apply nth_error_Some; rewrite H; discriminate).
  destruct (Z.ltb_spec (Z.of_nat k) 0) as [Hneg | _]; [lia |].
  destruct (Z.leb_spec 0 (Z.of_nat k)) as [_ | Hneg]; [| lia].
  destruct (Z.ltb_spec (Z.of_nat k) (Z.of_nat (List.length l))) as [_ | Hge];
    [| lia].
  simpl. rewrite Nat2Z.id, H. reflexivity.
Qed.

Lemma iloc_out_of_bounds {A : Type} (l : list A) (num : Z) :
  (Z.of_nat (List.length l) <= num \/ num < - Z.of_nat (List.length l))%Z ->
  iloc l num = Raise (IndexError "single positional indexer is out-of-bounds").
Proof.
  intros H. unfold iloc.
  destruct (Z.ltb_spec num 0) as [Hneg | Hpos].
  - destruct (Z.leb_spec 0 (num + Z.of_nat (List.length l))) as [Hk | _];
      [| reflexivity].
    destruct (Z.ltb_spec (num + Z.of_nat (List.length l))
                         (Z.of_nat (List.length l))) as [_ | Hge]; [| reflexivity].
    lia.
  - destruct (Z.leb_spec 0 num) as [_ | Hk]; [| reflexivity].
    destruct (Z.ltb_spec num (Z.of_nat (List.length l))) as [Hlt | _];
      [| reflexivity].
    lia.
Qed.

(** The [i]-th element that passes a filter is the element at the position
    before which exactly [i] elements pass. *)
Lemma nth_error_filter {A : Type} (p : A -> bool) (l : list A) :
  forall (i : nat) (a : A),
    nth_error (filter p l) i = Some a ->
    exists k, nth_error l k = Some a /\ p a = true /\
              List.length (filter p (firstn k l)) = i.
Proof.
  induction l as [| b l IH]; intros i a H.
  - destruct i; discriminate H.
  - simpl in H. destruct (p b) eqn:Hb.
    + destruct i as [| i]; simpl in H.
      * injection H as ->. exists 0%nat. auto.
      * destruct (IH i a H) as [k [Hk [Hp Hc]]].
        exists (S k). simpl. rewrite Hb. simpl. auto.
    + destruct (IH i a H) as [k [Hk [Hp Hc]]].
      exists (S k). simpl. rewrite Hb. auto.
Qed.

(** C10. When the colour column has dtype bool, setup maps the label of
    every series to [str2bool] of it, and never raises on a label: the value
    is true exactly for the words yes, true, t and 1 written in any letter
    case, and false for every other label. *)
Theorem C10_bool_labels (rdkit : Drawing) (f : Figure) (d : DataFrame)
  (o : Options) (c : string) (dd : DataFrame) :
  List.length (data f) <> 1%nat ->
  color_col o = Some c ->
  column_dtype d c = Ok dtype_bool ->
  build_images rdkit d (match smiles_col o with One s => [s] | Many l => l end)
               (svg_size o) = Ok dd ->
  exists app,
    add_molecules rdkit f d o = Ok app /\
    forall (i : nat) (t : Trace),
      nth_error (data f) i = Some t ->
      dict_get (curve_dict app) (Z.of_nat i) = Some (VBool (str2bool (name t))) /\
      (str2bool (name t) = true <->
       exists w, In w ["yes"; "true"; "t"; "1"] /\ any_case_of w (name t)).
Proof.
  intros Hn Hc Ht Hdd.
  unfold add_molecules. rewrite Hdd. simpl.
  unfold build_series.
  destruct (Nat.eqb_spec (List.length (data f)) 1) as [E | _]; [contradiction |].
  simpl. rewrite Hc, Ht. simpl.
  eexists. split; [reflexivity |].
  intros i t Hi. simpl. split.
  - rewrite (dict_get_enumerate
               (fun ix : Z * Trace => VBool (str2bool (name (snd ix))))).
    rewrite Hi. reflexivity.
  - apply str2bool_true_iff.
Qed.

Lemma C10_bool_labels_witness :
  exists app,
    add_molecules sample_drawing two_series sample_df sample_options = Ok app /\
    forall (i : nat) (t : Trace),
      nth_error (data two_series) i = Some t ->
      dict_get (curve_dict app) (Z.of_nat i) = Some (VBool (str2bool (name t))) /\
      (str2bool (name t) = true <->
       exists w, In w ["yes"; "true"; "t"; "1"] /\ any_case_of w (name t)).
Proof.
  eapply (C10_bool_labels sample_drawing two_series sample_df sample_options
            "active").
  - simpl. discriminate.
  - reflexivity.
  - reflexivity.
  - vm_compute. reflexivity.
Defined.

(** C2. With a single series the hovered point number is the position of
    the row in the whole data frame: resolving series 0, point [k] returns
    the row at position [k], whatever the row holds; nothing is filtered. *)
Theorem C2_ungrouped_resolve (app : App) (k : nat) (r : Z * Series) :
  List.length (data (fig app)) = 1%nat ->
  nth_error (rows (df app)) k = Some r ->
  resolve_row app (Z.of_nat k) 0 = Ok (snd r).
Proof.
  intros H1 Hr. unfold resolve_row. rewrite H1. simpl.
  apply iloc_nth. rewrite nth_error_map, Hr. reflexivity.
Qed.

Lemma C2_ungrouped_resolve_witness :
  resolve_row
    {| fig := one_series; df := sample_df; options := sample_options;
       smiles_cols := ["SMILES"]; df_data := df_data sample_app;
       colors := [(0%Z, "black")]; curve_dict := [] |}
    (Z.of_nat 2) 0
  = Ok (sample_row "CC(C)O" "propan-2-ol" true 60).
Proof.
  apply (C2_ungrouped_resolve
           {| fig := one_series; df := sample_df; options := sample_options;
              smiles_cols := ["SMILES"]; df_data := df_data sample_app;
              colors := [(0%Z, "black")]; curve_dict := [] |}
           2 (2%Z, sample_row "CC(C)O" "propan-2-ol" true 60)).
  - reflexivity.
  - reflexivity.
Defined.

(** C1. In a chart with several series, for a series [s] of the
    curve-to-group map and a point number [i] within the series, the row
    resolved is the [i]-th of the rows whose colour cell equals the group of
    [s], taken in their original order and counted from 0: it sits at a
    position of the data frame before which exactly [i] rows match, and its
    own colour cell equals the group of [s]. *)
Theorem C1_grouped_resolve (rdkit : Drawing) (f : Figure) (d : DataFrame)
  (o : Options) (app : App) (c : string) (s : Z) (group : value) (i : nat) :
  add_molecules rdkit f d o = Ok app ->
  List.length (data f) <> 1%nat ->
  color_col o = Some c ->
  dict_get (curve_dict app) s = Some group ->
  (i < List.length (where_eq c group d))%nat ->
  exists row,
    resolve_row app (Z.of_nat i) s = Ok row /\
    nth_error (where_eq c group d) i = Some row /\
    cell_is c group row = true /\
    exists k label,
      nth_error (rows d) k = Some (label, row) /\
      matches_before c group d k = i.
Proof.
  intros Hsetup Hn Hc Hs Hi.
  destruct (add_molecules_inv _ _ _ _ _ Hsetup) as [dd [cd [_ [Hcd Happ]]]].
  destruct (build_series_grouped _ _ _ _ Hn Hcd) as [c' [t [Hc' [Ht _]]]].
  rewrite Hc in Hc'. injection Hc' as <-.
  destruct (nth_error (where_eq c group d) i) as [row |] eqn:Hrow;
    [| apply nth_error_None in Hrow; lia].
  exists row. split.
  - unfold resolve_row. subst app. simpl.
    destruct (Nat.eqb_spec (List.length (data f)) 1) as [E | _];
      [contradiction |].
    simpl. rewrite Hc, Ht. simpl. simpl in Hs. rewrite Hs.
    apply iloc_nth. exact Hrow.
  - split; [reflexivity |].
    unfold where_eq in Hrow. rewrite nth_error_map in Hrow.
    destruct (nth_error (filter (fun ir => cell_is c group (snd ir)) (rows d)) i)
      as [[label row'] |] eqn:Hf; [| discriminate].
    simpl in Hrow. injection Hrow as <-.
    destruct (nth_error_filter _ _ _ _ Hf) as [k [Hk [Hp Hcount]]].
    split; [exact Hp |].
    exists k, label. split; [exact Hk | exact Hcount].
Qed.

Lemma C1_grouped_resolve_witness :
  exists row,
    resolve_row sample_app (Z.of_nat 0) 1 = Ok row /\
    nth_error (where_eq "active" (VBool false) sample_df) 0 = Some row /\
    cell_is "active" (VBool false) row = true /\
    exists k label,
      nth_error (rows sample_df) k = Some (label, row) /\
      matches_before "active" (VBool false) sample_df k = 0%nat.
Proof.
  apply (C1_grouped_resolve sample_drawing two_series sample_df sample_options
           sample_app "active" 1 (VBool false) 0).
  - vm_compute. reflexivity.
  - simpl. discriminate.
  - reflexivity.
  - reflexivity.
  - vm_compute. lia.
Defined.

(** C3. A chart with more than one series and no colour column never gets
    through setup: [add_molecules] returns no app, so no hover is ever
    handled.  The image cache is built before the series check: when it
    builds, [add_molecules] raises the ValueError that asks for
    [color_col]; when it does not, [add_molecules] raises the error of the
    cache instead. *)
Theorem C3_color_col_required (rdkit : Drawing) (f : Figure) (d : DataFrame)
  (o : Options) :
  (1 < List.length (data f))%nat ->
  color_col o = None ->
  (forall app, add_molecules rdkit f d o <> Ok app) /\
  build_series f d (color_col o)
  = Raise (ValueError
      "color_col needs to be specified if there is more than one plotly curve in the figure!") /\
  add_molecules rdkit f d o
  = match build_images rdkit d
            (match smiles_col o with One s => [s] | Many l => l end)
            (svg_size o) with
    | Ok _ =>
        Raise (ValueError
          "color_col needs to be specified if there is more than one plotly curve in the figure!")
    | Raise e => Raise e
    end.
Proof.
  intros Hn Hc.
  assert (Hs : build_series f d (color_col o)
               = Raise (ValueError
      "color_col needs to be specified if there is more than one plotly curve in the figure!")).
  { unfold build_series. rewrite Hc.
    destruct (Nat.eqb_spec (List.length (data f)) 1) as [E | _]; [lia |].
    reflexivity. }
  split; [| split].
  - intros app H.
    destruct (add_molecules_inv _ _ _ _ _ H) as [dd [cd [_ [Hcd _]]]].
    rewrite Hs in Hcd. discriminate Hcd.
  - exact Hs.
  - unfold add_molecules.
    destruct (build_images rdkit d
                (match smiles_col o with One s => [s] | Many l => l end)
                (svg_size o)) as [dd | e]; [| reflexivity].
    simpl. rewrite Hs. reflexivity.
Qed.

Lemma C3_color_col_required_witness :
  (forall app,
      add_molecules sample_drawing two_series sample_df
        {| smiles_col := One "SMILES"; show_img := true; svg_size := 200;
           alpha := "0.75"; img_alpha := "0.7"; title_col := None;
           show_coords := true; caption_cols := None;
           caption_transform := fun _ => None; color_col := None;
           wrap := true; wraplen := 20; width := 150;
           fontfamily := "Arial"; fontsize := 12 |} <> Ok app) /\
  add_molecules sample_drawing two_series sample_df
    {| smiles_col := One "SMILES"; show_img := true; svg_size := 200;
       alpha := "0.75"; img_alpha := "0.7"; title_col := None;
       show_coords := true; caption_cols := None;
       caption_transform := fun _ => None; color_col := None;
       wrap := true; wraplen := 20; width := 150;
       fontfamily := "Arial"; fontsize := 12 |}
  = Raise (ValueError
      "color_col needs to be specified if there is more than one plotly curve in the figure!").
Proof.
  pose proof (C3_color_col_required sample_drawing two_series sample_df
    {| smiles_col := One "SMILES"; show_img := true; svg_size := 200;
       alpha := "0.75"; img_alpha := "0.7"; title_col := None;
       show_coords := true; caption_cols := None;
       caption_transform := fun _ => None; color_col := None;
       wrap := true; wraplen := 20; width := 150;
       fontfamily := "Arial"; fontsize := 12 |}) as H.
  destruct H as [H1 [_ H3]].
  - simpl. lia.
  - reflexivity.
  - split; [exact H1 |].
    rewrite H3. vm_compute. reflexivity.
Defined.

(** C3 as claimed fails: two series, no colour column, and one encoding
    that does not decode.  The cache loop runs first and raises its own
    error; the ValueError of the series check is never reached. *)
Lemma C3_counterexample :
  List.length (data two_series) = 2%nat
  /\ MolFromSmiles sample_drawing "C(C" = None
  /\ add_molecules sample_drawing two_series sample_df_undecodable
       {| smiles_col := One "SMILES"; show_img := true; svg_size := 200;
          alpha := "0.75"; img_alpha := "0.7"; title_col := None;
          show_coords := true; caption_cols := None;
          caption_transform := fun _ => None; color_col := None;
          wrap := true; wraplen := 20; width := 150;
          fontfamily := "Arial"; fontsize := 12 |}
     = Raise (ArgumentError "MolDraw2D.DrawMolecule(MolDraw2DSVG, NoneType)").
Proof. repeat split; vm_compute; reflexivity. Qed.

(** ** Out-of-range points *)

Lemma resolve_row_iloc (app : App) (num curve_num : Z) (subset : list Series) :
  series_rows app curve_num = Some subset ->
  resolve_row app num curve_num = iloc subset num.
Proof.
  unfold series_rows, resolve_row.
  destruct (Nat.eqb (List.length (data (fig app))) 1); simpl.
  - intros H. injection H as <-. reflexivity.
  - destruct (color_col (options app)) as [c |]; [| discriminate].
    destruct (column_dtype (df app) c) as [t | e]; [| discriminate].
    destruct (dict_get (curve_dict app) curve_num) as [group |]; [| discriminate].
    intros H. injection H as <-. reflexivity.
Qed.

(** C4, as the code has it.  A point number outside the rows of its series
    (at or past their count, or below minus their count, a negative number
    counting from the end) makes the callback raise IndexError: nothing is
    returned.  The result that hides the tooltip comes only from an empty
    hover event. *)
Theorem C4_out_of_range_raises (app : App) (pt : Point) (rest : list Point)
  (value : menu_value) (subset : list Series) :
  series_rows app (curveNumber pt) = Some subset ->
  (Z.of_nat (List.length subset) <= pointNumber pt
   \/ pointNumber pt < - Z.of_nat (List.length subset))%Z ->
  display_hover app (Some (pt :: rest)) value
  = Raise (IndexError "single positional indexer is out-of-bounds")
  /\ display_hover app None value = Ok (false, no_update, no_update)
  /\ forall hoverData shown box children,
       display_hover app hoverData value = Ok (shown, box, children) ->
       shown = false ->
       hoverData = None.
Proof.
  intros Hsub Hout. split; [| split].
  - simpl. rewrite (resolve_row_iloc _ _ _ _ Hsub).
    rewrite (iloc_out_of_bounds _ _ Hout). reflexivity.
  - reflexivity.
  - intros [points |] shown box children H Hshown; [| reflexivity].
    exfalso. simpl in H.
    destruct points as [| p ps]; [discriminate H |].
    apply bind_ok in H. destruct H as [r [_ H]].
    apply bind_ok in H. destruct H as [imgs [_ H]].
    apply bind_ok in H. destruct H as [ttl [_ H]].
    apply bind_ok in H. destruct H as [caps [_ H]].
    injection H as H _ _. congruence.
Qed.

Lemma C4_out_of_range_raises_witness :
  display_hover sample_app (Some [sample_point 1 2]) (MenuStr "SMILES")
  = Raise (IndexError "single positional indexer is out-of-bounds")
  /\ display_hover sample_app None (MenuStr "SMILES")
     = Ok (false, no_update, no_update)
  /\ forall hoverData shown box children,
       display_hover sample_app hoverData (MenuStr "SMILES")
       = Ok (shown, box, children) ->
       shown = false ->
       hoverData = None.
Proof.
  apply (C4_out_of_range_raises sample_app (sample_point 1 2) []
           (MenuStr "SMILES")
           [sample_row "CCO" "ethanol" false 46;
            sample_row "c1ccccc1" "benzene" false 78]).
  - reflexivity.
  - left. simpl. lia.
Defined.

(** C4 as claimed fails: series 1 of the sample chart has two rows, and a
    hover on its point 2 raises instead of returning the hidden tooltip; so
    does a hover on point 4 of the four-row chart with one series. *)
Lemma C4_counterexample :
  series_rows sample_app 1
  = Some [sample_row "CCO" "ethanol" false 46;
          sample_row "c1ccccc1" "benzene" false 78]
  /\ display_hover sample_app (Some [sample_point 1 2]) (MenuStr "SMILES")
     = Raise (IndexError "single positional indexer is out-of-bounds")
  /\ display_hover
       {| fig := one_series; df := sample_df; options := sample_options;
          smiles_cols := ["SMILES"]; df_data := df_data sample_app;
          colors := [(0%Z, "black")]; curve_dict := [] |}
       (Some [sample_point 0 4]) (MenuStr "SMILES")
     = Raise (IndexError "single positional indexer is out-of-bounds").
Proof. repeat split; vm_compute; reflexivity. Qed.

(** ** The image cache *)

Lemma series_find_app (col : string) (r1 r2 : Series) :
  series_find col (r1 ++ r2)
  = match series_find col r1 with
    | Some v => Some v
    | None => series_find col r2
    end.
Proof.
  induction r1 as [| [c v] r1 IH]; simpl; [reflexivity |].
  destruct (String.eqb c col); [reflexivity | exact IH].
Qed.

Lemma project_sound (cols : list string) (row : Series) (col : string)
  (v : value) :
  series_find col (project cols row) = Some v -> series_find col row = Some v.
Proof.
  unfold project. induction cols as [| c cols IH]; simpl; [discriminate |].
  rewrite series_find_app.
  destruct (series_find c row) as [x |] eqn:Hc; simpl.
  - destruct (String.eqb_spec c col) as [-> | _].
    + intros H. injection H as <-. exact Hc.
    + exact IH.
  - exact IH.
Qed.

Lemma project_complete (cols : list string) (row : Series) (col : string)
  (v : value) :
  In col cols -> series_find col row = Some v ->
  series_find col (project cols row) = Some v.
Proof.
  unfold project. induction cols as [| c cols IH]; simpl; [contradiction |].
  intros Hin Hv. rewrite series_find_app.
  destruct (series_find c row) as [x |] eqn:Hc; simpl.
  - destruct (String.eqb_spec c col) as [-> | Hne].
    + congruence.
    + destruct Hin as [-> | Hin]; [contradiction | auto].
  - destruct Hin as [-> | Hin]; [congruence | auto].
Qed.

Lemma draw_row_ok (rdkit : Drawing) (size i : Z) (row : Series) :
  forall (cols : list string) (acc out : DataFrame),
    draw_row rdkit size i row cols acc = Ok out ->
    forall col, In col cols ->
      exists cell img, getitem row col = Ok cell
                       /\ draw_image rdkit size cell = Ok img.
Proof.
  induction cols as [| c cols IH]; intros acc out H col Hin; [contradiction |].
  simpl in H.
  apply bind_ok in H. destruct H as [cell [Hcell H]].
  apply bind_ok in H. destruct H as [img [Himg H]].
  destruct Hin as [<- | Hin].
  - exists cell, img. auto.
  - apply (IH _ _ H col Hin).
Qed.

Lemma draw_rows_ok (rdkit : Drawing) (size : Z) (cols : list string) :
  forall (its : list (Z * Series)) (acc out : DataFrame),
    draw_rows rdkit size its cols acc = Ok out ->
    forall i row col, In (i, row) its -> In col cols ->
      exists cell img, getitem row col = Ok cell
                       /\ draw_image rdkit size cell = Ok img.
Proof.
  induction its as [| [j r] its IH]; intros acc out H i row col Hin Hcol;
    [contradiction |].
  simpl in H. apply bind_ok in H. destruct H as [acc' [Hrow H]].
  destruct Hin as [E | Hin].
  - injection E as -> ->. apply (draw_row_ok _ _ _ _ _ _ _ Hrow col Hcol).
  - apply (IH _ _ H i row col Hin Hcol).
Qed.

(** Setup succeeds only when every configured cell decodes. *)
Lemma setup_ok_all_decode (rdkit : Drawing) (f : Figure) (d : DataFrame)
  (o : Options) (app : App) :
  add_molecules rdkit f d o = Ok app ->
  forall label row col,
    In (label, row) (rows d) ->
    In col (smiles_cols app) ->
    forall cell, series_find col row = Some cell ->
      exists smiles m img,
        cell = VStr smiles /\ MolFromSmiles rdkit smiles = Some m
        /\ draw_image rdkit (svg_size o) cell = Ok img.
Proof.
  intros Hsetup label row col Hrow Hcol cell Hcell.
  destruct (add_molecules_inv _ _ _ _ _ Hsetup) as [dd [cd [Hdd [_ Happ]]]].
  subst app. simpl in Hcol.
  unfold build_images in Hdd.
  apply bind_ok in Hdd. destruct Hdd as [sel [Hsel Hdraw]].
  unfold select in Hsel.
  apply bind_ok in Hsel. destruct Hsel as [ts [_ Hsel]].
  injection Hsel as <-. simpl in Hdraw.
  set (cols := match smiles_col o with One s => [s] | Many l => l end) in *.
  assert (Hin : In (label, project cols row)
                   (map (fun ir => (fst ir, project cols (snd ir))) (rows d))).
  { apply in_map_iff. exists (label, row). auto. }
  destruct (draw_rows_ok _ _ _ _ _ _ Hdraw _ _ col Hin Hcol)
    as [cell' [img [Hget Himg]]].
  unfold getitem in Hget.
  rewrite (project_complete _ _ _ _ Hcol Hcell) in Hget.
  injection Hget as <-.
  unfold draw_image in Himg.
  destruct cell as [b | n | smiles]; try discriminate Himg.
  destruct (MolFromSmiles rdkit smiles) as [m |] eqn:Hm; [| discriminate Himg].
  exists smiles, m, img.
  split; [reflexivity | split; [exact Hm |]].
  unfold draw_image. rewrite Hm. exact Himg.
Qed.

(** C5, as the code has it.  A structure cell that does not decode is not
    skipped: building the image cache raises at that cell and setup returns
    no app, whatever the other rows hold. *)
Theorem C5_undecodable_cell_aborts (rdkit : Drawing) (f : Figure)
  (d : DataFrame) (o : Options) (label : Z) (row : Series)
  (col smiles : string) :
  In (label, row) (rows d) ->
  In col (match smiles_col o with One s => [s] | Many l => l end) ->
  series_find col row = Some (VStr smiles) ->
  MolFromSmiles rdkit smiles = None ->
  exists e, add_molecules rdkit f d o = Raise e.
Proof.
  intros Hrow Hcol Hcell Hnone.
  destruct (add_molecules rdkit f d o) as [app | e] eqn:Hsetup;
    [| exists e; reflexivity].
  exfalso.
  assert (Hcols : smiles_cols app
                  = match smiles_col o with One s => [s] | Many l => l end).
  { destruct (add_molecules_inv _ _ _ _ _ Hsetup) as [dd [cd [_ [_ ->]]]].
    reflexivity. }
  rewrite <- Hcols in Hcol.
  destruct (setup_ok_all_decode _ _ _ _ _ Hsetup _ _ _ Hrow Hcol _ Hcell)
    as [s [m [img [Hs [Hm _]]]]].
  injection Hs as <-. congruence.
Qed.

Lemma C5_undecodable_cell_aborts_witness :
  exists e,
    add_molecules sample_drawing one_series sample_df_undecodable
      sample_options = Raise e.
Proof.
  apply (C5_undecodable_cell_aborts sample_drawing one_series
           sample_df_undecodable sample_options
           1 (sample_row "C(C" "broken" false 0) "SMILES" "C(C").
  - simpl. right. left. reflexivity.
  - simpl. left. reflexivity.
  - reflexivity.
  - reflexivity.
Defined.

(** C5 as claimed fails: with one undecodable encoding among three rows the
    setup raises; no cache and no app come out of it, although the two
    other rows decode. *)
Lemma C5_counterexample :
  MolFromSmiles sample_drawing "C(C" = None
  /\ MolFromSmiles sample_drawing "CC" = Some "CC"
  /\ MolFromSmiles sample_drawing "CCO" = Some "CCO"
  /\ build_images sample_drawing sample_df_undecodable ["SMILES"] 200
     = Raise (ArgumentError "MolDraw2D.DrawMolecule(MolDraw2DSVG, NoneType)")
  /\ add_molecules sample_drawing one_series sample_df_undecodable
       sample_options
     = Raise (ArgumentError "MolDraw2D.DrawMolecule(MolDraw2DSVG, NoneType)").
Proof. repeat split; vm_compute; reflexivity. Qed.


(** ** Captions *)

Lemma caption_list_nth (o : Options) (row : Series) :
  forall (captions : list string) (blocks : list element),
    caption_list o row captions = Ok blocks ->
    forall (k : nat) (c : string),
      nth_error captions k = Some c ->
      exists v,
        series_find c row = Some v /\
        nth_error blocks k
        = Some (match caption_transform o c with
                | Some f => P (c ++ " : " ++ str (f v))%string (caption_style o)
                | None => P (c ++ " : " ++ str v)%string (caption_style o)
                end).
Proof.
  induction captions as [| c0 captions IH]; intros blocks H k c Hk.
  - destruct k; discriminate Hk.
  - simpl in H.
    apply bind_ok in H. destruct H as [v0 [Hv0 H]].
    apply bind_ok in H. destruct H as [rest [Hrest H]].
    injection H as <-.
    destruct k as [| k]; simpl in Hk.
    + injection Hk as <-. exists v0. split; [| reflexivity].
      unfold getitem in Hv0.
      destruct (series_find c0 row); [congruence | discriminate].
    + apply (IH _ Hrest k c Hk).
Qed.

(** C9. Whenever the callback returns a hover box, a caption whose name has
    a transform registered shows the name, [" : "] and the text of the
    transform's output, and nothing else: on the x axis (first axis block),
    on the y axis (second axis block) and for every extra caption column
    (the block at the column's place in the list).  The raw value enters
    the block only through the transform. *)
Theorem C9_transform_fills_caption (app : App) (pt : Point) (rest : list Point)
  (value : menu_value) (shown : bool) (box : output BBox)
  (children : output (list container)) :
  display_hover app (Some (pt :: rest)) value = Ok (shown, box, children) ->
  exists row images title captions style,
    resolve_row app (pointNumber pt) (curveNumber pt) = Ok row /\
    children
    = update [Div (images ++ title ++ coord_blocks app pt ++ captions) style] /\
    (forall f,
        show_coords (options app) = true ->
        caption_transform (options app) (xaxis_title (fig app)) = Some f ->
        nth_error (coord_blocks app pt) 0
        = Some (P (xaxis_title (fig app) ++ " : " ++ str (f (x pt)))%string
                  (caption_style (options app)))) /\
    (forall f,
        show_coords (options app) = true ->
        caption_transform (options app) (yaxis_title (fig app)) = Some f ->
        nth_error (coord_blocks app pt) 1
        = Some (P (yaxis_title (fig app) ++ " : " ++ str (f (y pt)))%string
                  (caption_style (options app)))) /\
    (forall cs k c f,
        caption_cols (options app) = Some cs ->
        nth_error cs k = Some c ->
        caption_transform (options app) c = Some f ->
        exists v,
          series_find c row = Some v /\
          nth_error captions k
          = Some (P (c ++ " : " ++ str (f v))%string
                    (caption_style (options app)))).
Proof.
  intros H. simpl in H.
  apply bind_ok in H. destruct H as [row [Hrow H]].
  apply bind_ok in H. destruct H as [images [_ H]].
  apply bind_ok in H. destruct H as [title [_ H]].
  apply bind_ok in H. destruct H as [captions [Hcap H]].
  injection H as _ _ <-.
  exists row, images, title, captions.
  eexists. split; [exact Hrow |]. split; [reflexivity |].
  split; [| split].
  - intros f Hshow Hf. unfold coord_blocks. rewrite Hshow, Hf. reflexivity.
  - intros f Hshow Hf. unfold coord_blocks. rewrite Hshow, Hf. reflexivity.
  - intros cs k c f Hcs Hk Hf.
    unfold caption_blocks in Hcap. rewrite Hcs in Hcap.
    destruct (caption_list_nth _ _ _ _ Hcap k c Hk) as [v [Hv Hn]].
    exists v. split; [exact Hv |]. rewrite Hn, Hf. reflexivity.
Qed.

Lemma C9_transform_fills_caption_witness :
  exists row images title captions style,
    resolve_row sample_app 0 1 = Ok row /\
    update
      [Div
         [Img (VStr "data:image/svg+xml;base64,<svg>CCO</svg>")
            [("width", VStr "100%");
             ("background-color", VStr "rgba(255,255,255,0.7)")];
          H2 "ethanol"
            [("color", VStr "#EF553B"); ("font-family", VStr "Arial");
             ("fontSize", VInt 14)];
          P "logp: 2" (caption_style sample_options);
          P "mw : 46 Da" (caption_style sample_options);
          P "mw : 46 Da" (caption_style sample_options)]
         [("width", VStr "150px"); ("white-space", VStr "normal")]]
    = update [Div (images ++ title ++ coord_blocks sample_app (sample_point 1 0)
                     ++ captions) style] /\
    (forall f,
        show_coords sample_options = true ->
        caption_transform sample_options "logp" = Some f ->
        nth_error (coord_blocks sample_app (sample_point 1 0)) 0
        = Some (P ("logp" ++ " : " ++ str (f (VInt 2)))%string
                  (caption_style sample_options))) /\
    (forall f,
        show_coords sample_options = true ->
        caption_transform sample_options "mw" = Some f ->
        nth_error (coord_blocks sample_app (sample_point 1 0)) 1
        = Some (P ("mw" ++ " : " ++ str (f (VInt 46)))%string
                  (caption_style sample_options))) /\
    (forall cs k c f,
        caption_cols sample_options = Some cs ->
        nth_error cs k = Some c ->
        caption_transform sample_options c = Some f ->
        exists v,
          series_find c row = Some v /\
          nth_error captions k
          = Some (P (c ++ " : " ++ str (f v))%string
                    (caption_style sample_options))).
Proof.
  apply (C9_transform_fills_caption sample_app (sample_point 1 0) []
           (MenuStr "SMILES") true
           (update {| x0 := 10; x1 := 14; y0 := 20; y1 := 24 |})).
  vm_compute. reflexivity.
Defined.

(** ** textwrap: the text is kept, the loops end *)

Lemma total_len_app (a b : list textwrap.text) :
  textwrap.total_len (a ++ b)
  = (textwrap.total_len a + textwrap.total_len b)%nat.
Proof.
  unfold textwrap.total_len.
  induction a as [| x a IH]; simpl; [reflexivity |].
  fold (textwrap.total_len a) in *. rewrite IH. lia.
Qed.

Lemma length_concat_total (l : list textwrap.text) :
  List.length (List.concat l) = textwrap.total_len l.
Proof.
  unfold textwrap.total_len.
  induction l as [| x l IH]; simpl; [reflexivity |].
  rewrite length_app, IH. reflexivity.
Qed.

Lemma weight_app (a b : list textwrap.text) :
  textwrap.weight (a ++ b) = (textwrap.weight a + textwrap.weight b)%nat.
Proof.
  unfold textwrap.weight.
  induction a as [| x a IH]; simpl; [reflexivity |].
  rewrite IH. lia.
Qed.

Lemma take_fitting_spec (width : nat) :
  forall (chunks : list textwrap.text) (n : nat) line n' rest,
    textwrap.take_fitting width n chunks = (line, n', rest) ->
    chunks = line ++ rest
    /\ n' = (n + textwrap.total_len line)%nat
    /\ ((n <= width)%nat -> (n' <= width)%nat)
    /\ (forall c rest', rest = c :: rest' ->
                        (width < n' + List.length c)%nat).
Proof.
  induction chunks as [| c chunks IH]; intros n line n' rest H; simpl in H.
  - injection H as <- <- <-. simpl. repeat split; try lia. discriminate.
  - destruct (Nat.leb_spec (n + List.length c) width) as [Hfit | Hno].
    + destruct (textwrap.take_fitting width (n + List.length c) chunks)
        as [[line0 n0] rest0] eqn:Ht.
      injection H as <- <- <-.
      destruct (IH _ _ _ _ Ht) as [Hc [Hn [Hw Hr]]].
      split; [simpl; f_equal; exact Hc |].
      split; [unfold textwrap.total_len in *; simpl; lia |].
      split; [intros _; apply Hw; exact Hfit | exact Hr].
    + injection H as <- <- <-. simpl.
      split; [reflexivity |]. split; [lia |]. split; [lia |].
      intros c' rest' E. injection E as <- <-. lia.
Qed.

Lemma rfind_dash_bound :
  forall (stop : nat) (chunk : textwrap.text) (i j : nat),
    textwrap.rfind_dash i stop chunk = Some j ->
    (i <= j < i + stop)%nat.
Proof.
  induction stop as [| stop IH]; intros chunk i j H; simpl in H.
  - discriminate.
  - destruct chunk as [| c chunk]; [discriminate |].
    destruct (textwrap.rfind_dash (S i) stop chunk) as [k |] eqn:Hk.
    + injection H as <-. apply IH in Hk. lia.
    + destruct (textwrap.dash c); [| discriminate].
      injection H as <-. lia.
Qed.

Lemma handle_long_word_spec (c : textwrap.text) (cur_len width : nat)
  (piece left : textwrap.text) :
  textwrap._handle_long_word c cur_len width = (piece, left) ->
  piece ++ left = c
  /\ (List.length left <= List.length c)%nat
  /\ ((1 <= width)%nat -> (cur_len <= width)%nat ->
      (cur_len + List.length piece <= width)%nat)
  /\ (cur_len = 0%nat -> (width < List.length c)%nat ->
      (List.length left < List.length c)%nat).
Proof.
  unfold textwrap._handle_long_word.
  set (space_left := if (width <? 1)%nat then 1%nat else (width - cur_len)%nat).
  set (stop := if (space_left <? List.length c)%nat
               then match textwrap.rfind_dash 0 space_left c with
                    | Some hyphen =>
                        if (0 <? hyphen)%nat
                           && existsb (fun c0 => negb (textwrap.dash c0))
                                      (firstn hyphen c)
                        then S hyphen else space_left
                    | None => space_left
                    end
               else space_left).
  intros H. injection H as <- <-.
  assert (Hstop : (stop <= space_left)%nat /\
                  ((1 <= space_left)%nat -> (1 <= stop)%nat)).
  { unfold stop.
    destruct (space_left <? List.length c)%nat; [| lia].
    destruct (textwrap.rfind_dash 0 space_left c) as [h |] eqn:Hh; [| lia].
    apply rfind_dash_bound in Hh.
    destruct ((0 <? h)%nat && _); lia. }
  destruct Hstop as [Hle Hge].
  split; [apply firstn_skipn |].
  split; [rewrite length_skipn; lia |].
  split.
  - intros Hw Hcur. rewrite length_firstn.
    assert (space_left = (width - cur_len)%nat).
    { unfold space_left. destruct (Nat.ltb_spec width 1); [lia | reflexivity]. }
    lia.
  - intros Hcur Hlong. rewrite length_skipn.
    assert (1 <= space_left)%nat.
    { unfold space_left. destruct (Nat.ltb_spec width 1); lia. }
    specialize (Hge H). lia.
Qed.

Lemma drop_last_blank_cases (l : list textwrap.text) :
  textwrap.drop_last_blank l = l
  \/ exists c, textwrap.blank c = true
               /\ l = textwrap.drop_last_blank l ++ [c].
Proof.
  unfold textwrap.drop_last_blank.
  destruct (rev l) as [| c r] eqn:Hr; [left; reflexivity |].
  destruct (textwrap.blank c) eqn:Hb; [| left; reflexivity].
  right. exists c. split; [exact Hb |].
  rewrite <- (rev_involutive l), Hr. reflexivity.
Qed.

Lemma drop_last_blank_len (l : list textwrap.text) :
  (textwrap.total_len (textwrap.drop_last_blank l) <= textwrap.total_len l)%nat.
Proof.
  destruct (drop_last_blank_cases l) as [-> | [c [_ E]]]; [lia |].
  rewrite E at 2. rewrite total_len_app. lia.
Qed.

Lemma weight_pos (c : textwrap.text) (l : list textwrap.text) :
  (1 <= textwrap.weight (c :: l))%nat.
Proof. unfold textwrap.weight. simpl. lia. Qed.

Lemma weight_cons (c : textwrap.text) (l : list textwrap.text) :
  textwrap.weight (c :: l) = S (List.length c + textwrap.weight l).
Proof. reflexivity. Qed.

(** Every round of the outer loop of [_wrap_chunks] leaves less to do. *)
Lemma wrap_line_weight (width : nat) (lines chunks : list textwrap.text) :
  chunks <> [] ->
  (textwrap.weight (snd (textwrap.wrap_line width lines chunks))
   < textwrap.weight chunks)%nat.
Proof.
  intros Hne. unfold textwrap.wrap_line.
  set (chunks1 := match chunks with
                  | [] => chunks
                  | c :: chunks' =>
                      match lines with
                      | [] => chunks
                      | _ :: _ => if textwrap.blank c then chunks' else chunks
                      end
                  end).
  assert (H1 : (textwrap.weight chunks1 <= textwrap.weight chunks)%nat).
  { unfold chunks1. destruct chunks as [| c chunks']; [lia |].
    destruct lines; [lia |].
    destruct (textwrap.blank c); [| lia].
    rewrite weight_cons. lia. }
  clearbody chunks1.
  destruct (textwrap.take_fitting width 0 chunks1) as [[cur_line cur_len] chunks2]
    eqn:Ht.
  destruct (take_fitting_spec _ _ _ _ _ _ Ht) as [Hc [Hn [_ Hr]]].
  assert (H2 : (textwrap.weight chunks1
                = textwrap.weight cur_line + textwrap.weight chunks2)%nat)
    by (rewrite Hc; apply weight_app).
  assert (Hline : cur_line = [] \/ (1 <= textwrap.weight cur_line)%nat).
  { destruct cur_line; [left; reflexivity | right; apply weight_pos]. }
  destruct chunks2 as [| c chunks'].
  - cbn [snd]. destruct chunks as [| c0 chunks0]; [contradiction |].
    rewrite weight_cons. unfold textwrap.weight at 1. simpl. lia.
  - rewrite weight_cons in H2.
    destruct (Nat.ltb_spec width (List.length c)) as [Hlong | Hfit].
    + destruct (textwrap._handle_long_word c cur_len width) as [piece left]
        eqn:Hh.
      destruct (handle_long_word_spec _ _ _ _ _ Hh) as [_ [Hle [_ Hlt]]].
      cbn [snd]. rewrite weight_cons.
      destruct Hline as [-> | Hline].
      * simpl in Hn. specialize (Hlt Hn Hlong).
        change (textwrap.weight []) with 0%nat in H2. lia.
      * lia.
    + cbn [snd]. rewrite weight_cons. destruct Hline as [-> | Hline].
      * simpl in Hn. specialize (Hr c chunks' eq_refl). lia.
      * lia.
Qed.

(** No line is longer than the width. *)
Lemma wrap_line_width (width : nat) (lines chunks : list textwrap.text)
  (l : textwrap.text) :
  (1 <= width)%nat ->
  fst (textwrap.wrap_line width lines chunks) = Some l ->
  (List.length l <= width)%nat.
Proof.
  intros Hw. unfold textwrap.wrap_line.
  set (chunks1 := match chunks with
                  | [] => chunks
                  | c :: chunks' =>
                      match lines with
                      | [] => chunks
                      | _ :: _ => if textwrap.blank c then chunks' else chunks
                      end
                  end).
  destruct (textwrap.take_fitting width 0 chunks1) as [[cur_line cur_len] chunks2]
    eqn:Ht.
  destruct (take_fitting_spec _ _ _ _ _ _ Ht) as [_ [Hn [Hfit _]]].
  specialize (Hfit (Nat.le_0_l width)). simpl in Hn.
  assert (Hgen : forall cur_line1 : list textwrap.text,
             (textwrap.total_len cur_line1 <= width)%nat ->
             match textwrap.drop_last_blank cur_line1 with
             | [] => None
             | _ :: _ => Some (List.concat (textwrap.drop_last_blank cur_line1))
             end = Some l ->
             (List.length l <= width)%nat).
  { intros cur_line1 Hlen H.
    pose proof (drop_last_blank_len cur_line1) as Hd.
    pose proof (length_concat_total (textwrap.drop_last_blank cur_line1)) as Hl.
    destruct (textwrap.drop_last_blank cur_line1) as [| x xs] eqn:E;
      [discriminate |].
    injection H as H. rewrite <- H.
    change (x ++ List.concat xs) with (List.concat (x :: xs)). lia. }
  destruct chunks2 as [| c chunks'].
  - simpl. apply Hgen. lia.
  - destruct (Nat.ltb_spec width (List.length c)) as [Hlong | Hshort].
    + destruct (textwrap._handle_long_word c cur_len width) as [piece left]
        eqn:Hh.
      destruct (handle_long_word_spec _ _ _ _ _ Hh) as [_ [_ [Hp _]]].
      specialize (Hp Hw Hfit).
      simpl. apply Hgen. rewrite total_len_app.
      unfold textwrap.total_len at 2. simpl. lia.
    + simpl. apply Hgen. lia.
Qed.


Lemma wrap_loop_total (width : nat) :
  forall (fuel : nat) (chunks acc : list textwrap.text),
    (textwrap.weight chunks <= fuel)%nat ->
    exists lines, textwrap.wrap_loop fuel width chunks acc = Some lines.
Proof.
  induction fuel as [| fuel IH]; intros chunks acc Hw.
  - destruct chunks as [| c chunks]; [exists acc; reflexivity |].
    pose proof (weight_pos c chunks). lia.
  - destruct chunks as [| c chunks]; [exists acc; reflexivity |].
    simpl.
    pose proof (wrap_line_weight width acc (c :: chunks)) as Hd.
    destruct (textwrap.wrap_line width acc (c :: chunks)) as [line rest].
    cbn [snd] in Hd. apply IH.
    assert (c :: chunks <> []) by discriminate.
    specialize (Hd H). lia.
Qed.

Lemma wrap_loop_width (width : nat) :
  (1 <= width)%nat ->
  forall (fuel : nat) (chunks acc lines : list textwrap.text),
    textwrap.wrap_loop fuel width chunks acc = Some lines ->
    Forall (fun l => (List.length l <= width)%nat) acc ->
    Forall (fun l => (List.length l <= width)%nat) lines.
Proof.
  intros Hw. induction fuel as [| fuel IH]; intros chunks acc lines H Hacc.
  - destruct chunks; [| discriminate]. injection H as <-. exact Hacc.
  - destruct chunks as [| c chunks]; [injection H as <-; exact Hacc |].
    simpl in H.
    pose proof (wrap_line_width width acc (c :: chunks)) as Hl.
    destruct (textwrap.wrap_line width acc (c :: chunks)) as [line rest].
    simpl in Hl. apply (IH _ _ _ H).
    destruct line as [l |]; [| exact Hacc].
    apply Forall_app. split; [exact Hacc |].
    constructor; [| constructor]. apply Hl; [exact Hw | reflexivity].
Qed.


Lemma span_app (p : ascii -> bool) :
  forall (s m r : textwrap.text), textwrap.span p s = (m, r) -> m ++ r = s.
Proof.
  induction s as [| c s IH]; intros m r H; simpl in H.
  - injection H as <- <-. reflexivity.
  - destruct (p c).
    + destruct (textwrap.span p s) as [m0 r0].
      injection H as <- <-. simpl. f_equal. apply IH. reflexivity.
    + injection H as <- <-. reflexivity.
Qed.

Lemma word_tail_app :
  forall (s b m r : textwrap.text),
    textwrap.word_tail b s = (m, r) -> m ++ r = s.
Proof.
  induction s as [| c s IH]; intros b m r H; simpl in H.
  - injection H as <- <-. reflexivity.
  - destruct (textwrap.dash c && textwrap.behind_hyphen b
              && textwrap.ahead_letters s).
    + injection H as <- <-. reflexivity.
    + destruct (textwrap.whitespace c).
      * injection H as <- <-. reflexivity.
      * destruct (textwrap.head_is textwrap.word_punct b
                  && textwrap.ahead_emdash (c :: s)).
        -- injection H as <- <-. reflexivity.
        -- destruct (textwrap.word_tail (c :: b) s) as [m0 r0] eqn:Hw.
           injection H as <- <-. simpl. f_equal. apply (IH _ _ _ Hw).
Qed.

(** A match of [wordsep_re] is a non-empty prefix of the text. *)
Lemma wordsep_match_app (b s m r : textwrap.text) :
  textwrap.wordsep_match b s = Some (m, r) -> m ++ r = s /\ m <> [].
Proof.
  unfold textwrap.wordsep_match.
  destruct s as [| c s]; [discriminate |].
  destruct (textwrap.whitespace c) eqn:Hws.
  - intros H.
    assert (Hs : textwrap.span textwrap.whitespace (c :: s) = (m, r))
      by (injection H as H; exact H).
    split; [apply (span_app _ _ _ _ Hs) |].
    simpl in Hs. rewrite Hws in Hs.
    destruct (textwrap.span textwrap.whitespace s).
    injection Hs as <- _. discriminate.
  - destruct (textwrap.head_is textwrap.word_punct b
              && textwrap.ahead_emdash (c :: s)) eqn:Hd.
    + intros H.
      assert (Hs : textwrap.span textwrap.dash (c :: s) = (m, r))
        by (injection H as H; exact H).
      split; [apply (span_app _ _ _ _ Hs) |].
      apply andb_true_iff in Hd. destruct Hd as [_ Hd].
      unfold textwrap.ahead_emdash in Hd. rewrite Hs in Hd.
      apply andb_true_iff in Hd. destruct Hd as [Hd _].
      destruct m; [discriminate Hd | discriminate].
    + destruct (textwrap.word_tail (c :: b) s) as [m0 r0] eqn:Hw.
      intros H. injection H as <- <-.
      split; [simpl; f_equal; apply (word_tail_app _ _ _ _ Hw) | discriminate].
Qed.

Lemma concat_flush (gap : textwrap.text) (chunks : list textwrap.text) :
  List.concat (textwrap.flush gap chunks) = rev gap ++ List.concat chunks.
Proof. destruct gap; reflexivity. Qed.

Lemma split_loop_step (fuel : nat) (b s gap : textwrap.text) (c : ascii) :
  textwrap.split_loop (S fuel) b (c :: s) gap
  = match textwrap.wordsep_match b (c :: s) with
    | Some (m, r) =>
        match textwrap.split_loop fuel (rev m ++ b) r [] with
        | Some chunks =>
            Some (textwrap.flush gap (textwrap.flush (rev m) chunks))
        | None => None
        end
    | None => textwrap.split_loop fuel (c :: b) s (c :: gap)
    end.
Proof. reflexivity. Qed.

(** [_split] ends and loses nothing: the chunks, put together, are the
    text. *)
Lemma split_loop_content :
  forall (fuel : nat) (b s gap : textwrap.text),
    (List.length s <= fuel)%nat ->
    exists chunks,
      textwrap.split_loop fuel b s gap = Some chunks
      /\ List.concat chunks = rev gap ++ s.
Proof.
  induction fuel as [| fuel IH]; intros b s gap Hlen.
  - destruct s; [| simpl in Hlen; lia].
    eexists. split; [reflexivity |]. apply concat_flush.
  - destruct s as [| c s].
    + eexists. split; [reflexivity |]. apply concat_flush.
    + rewrite split_loop_step.
      destruct (textwrap.wordsep_match b (c :: s)) as [[m r] |] eqn:Hm.
      * destruct (wordsep_match_app _ _ _ _ Hm) as [Happ Hne].
        assert (Hr : (List.length r <= fuel)%nat).
        { assert (Hl : List.length (m ++ r) = List.length (c :: s))
            by (rewrite Happ; reflexivity).
          rewrite length_app in Hl. destruct m; [contradiction |].
          simpl in Hl, Hlen. lia. }
        destruct (IH (rev m ++ b) r [] Hr) as [chunks [Hs Hc]].
        rewrite Hs. eexists. split; [reflexivity |].
        rewrite !concat_flush, rev_involutive, Hc, <- Happ. reflexivity.
      * simpl in Hlen.
        destruct (IH (c :: b) s (c :: gap)) as [chunks [Hs Hc]]; [lia |].
        exists chunks. split; [exact Hs |].
        rewrite Hc. simpl. rewrite <- app_assoc. reflexivity.
Qed.

Lemma split_content (s : textwrap.text) :
  List.concat (textwrap._split s) = s.
Proof.
  unfold textwrap._split.
  destruct (split_loop_content (List.length s) [] s [] (Nat.le_refl _))
    as [chunks [-> Hc]].
  exact Hc.
Qed.

(** [textwrap.wrap] with a positive width returns lines, none longer than
    the width. *)
Lemma wrap_ok (s : textwrap.text) (w : Z) :
  (0 < w)%Z ->
  exists lines,
    textwrap.wrap s w = Ok lines
    /\ textwrap.wrap_loop (textwrap.weight (textwrap._split_chunks s))
         (Z.to_nat w) (textwrap._split_chunks s) [] = Some lines
    /\ Forall (fun l => (Z.of_nat (List.length l) <= w)%Z) lines.
Proof.
  intros Hw. unfold textwrap.wrap, textwrap._wrap_chunks.
  destruct (Z.leb_spec w 0) as [Hle | _]; [lia |].
  destruct (wrap_loop_total (Z.to_nat w)
              (textwrap.weight (textwrap._split_chunks s))
              (textwrap._split_chunks s) [] (Nat.le_refl _)) as [lines Hl].
  rewrite Hl. exists lines. split; [reflexivity |]. split; [reflexivity |].
  assert (H1 : (1 <= Z.to_nat w)%nat) by lia.
  pose proof (wrap_loop_width (Z.to_nat w) H1 _ _ _ _ Hl (Forall_nil _)) as Hf.
  eapply Forall_impl; [| exact Hf].
  intros l Hlen. simpl in Hlen. lia.
Qed.

(** ** Lines of a joined text *)

Lemma text_lines_short (n : nat) :
  forall (l cur : textwrap.text),
    (List.length cur + List.length l <= n)%nat ->
    Forall (fun x => (List.length x <= n)%nat) (text_lines cur l).
Proof.
  induction l as [| c l IH]; intros cur H; simpl.
  - constructor; [| constructor]. rewrite length_rev. simpl in H. lia.
  - simpl in H. destruct (in_range 10 10 c).
    + constructor; [rewrite length_rev; lia |]. apply IH. simpl. lia.
    + apply IH. simpl. lia.
Qed.

Lemma text_lines_app :
  forall (a cur b : textwrap.text),
    text_lines cur (a ++ textwrap.newline :: b)
    = text_lines cur a ++ text_lines [] b.
Proof.
  induction a as [| c a IH]; intros cur b; simpl.
  - reflexivity.
  - destruct (in_range 10 10 c).
    + rewrite IH. reflexivity.
    + apply IH.
Qed.

Lemma text_lines_join (n : nat) (lines : list textwrap.text) :
  Forall (fun l => (List.length l <= n)%nat) lines ->
  Forall (fun l => (List.length l <= n)%nat)
         (text_lines [] (textwrap.join [textwrap.newline] lines)).
Proof.
  induction lines as [| x lines IH]; intros H.
  - simpl. constructor; [simpl; lia | constructor].
  - inversion H as [| ? ? Hx Hrest]; subst.
    destruct lines as [| y lines].
    + simpl. apply text_lines_short. simpl. lia.
    + change (textwrap.join [textwrap.newline] (x :: y :: lines))
        with (x ++ textwrap.newline
                :: textwrap.join [textwrap.newline] (y :: lines)).
      rewrite text_lines_app. apply Forall_app. split.
      * apply text_lines_short. simpl. lia.
      * apply IH. exact Hrest.
Qed.

(** ** Strings *)

Lemma firstn_string_substring (n : nat) (s : string) :
  firstn_string n s = substring 0 n s.
Proof.
  revert s. induction n as [| n IH]; intros s; destruct s; simpl;
    try reflexivity.
  rewrite IH. reflexivity.
Qed.

Lemma firstn_string_length (n : nat) (s : string) :
  (n <= String.length s)%nat -> String.length (firstn_string n s) = n.
Proof.
  revert s. induction n as [| n IH]; intros s H; destruct s; simpl in *;
    try reflexivity; try lia.
  rewrite IH; [reflexivity | lia].
Qed.

Lemma string_length_append (a b : string) :
  String.length (a ++ b) = (String.length a + String.length b)%nat.
Proof. induction a as [| c a IH]; simpl; [reflexivity | rewrite IH; reflexivity]. Qed.

(** ** Words are kept when a plain title is wrapped *)



























(** ** Wrapping changes whitespace only *)

Lemma ink_app (a b : textwrap.text) : ink (a ++ b) = ink a ++ ink b.
Proof. apply filter_app. Qed.

Lemma ink_blank (c : textwrap.text) : textwrap.blank c = true -> ink c = [].
Proof.
  unfold textwrap.blank, ink. induction c as [| x c IH]; [reflexivity |].
  simpl. intros H. apply andb_true_iff in H. destruct H as [Hx Hc].
  rewrite Hx. simpl. apply IH. exact Hc.
Qed.

Lemma ink_concat_app (a b : list textwrap.text) :
  ink (List.concat (a ++ b)) = ink (List.concat a) ++ ink (List.concat b).
Proof. rewrite concat_app. apply ink_app. Qed.

Lemma ink_drop_last_blank (l : list textwrap.text) :
  ink (List.concat (textwrap.drop_last_blank l)) = ink (List.concat l).
Proof.
  destruct (drop_last_blank_cases l) as [E | [c [Hc E]]].
  - rewrite E. reflexivity.
  - rewrite E at 2. rewrite ink_concat_app. simpl. rewrite app_nil_r.
    rewrite (ink_blank c Hc), app_nil_r. reflexivity.
Qed.

(** One round of the outer loop keeps the ink: what goes on the line and
    what is left hold the ink of the chunks it was given. *)
Lemma wrap_line_ink (width : nat) (lines chunks : list textwrap.text) :
  ink (match fst (textwrap.wrap_line width lines chunks) with
       | Some l => l
       | None => []
       end)
  ++ ink (List.concat (snd (textwrap.wrap_line width lines chunks)))
  = ink (List.concat chunks).
Proof.
  unfold textwrap.wrap_line.
  set (chunks1 := match chunks with
                  | [] => chunks
                  | c :: chunks' =>
                      match lines with
                      | [] => chunks
                      | _ :: _ => if textwrap.blank c then chunks' else chunks
                      end
                  end).
  assert (H1 : ink (List.concat chunks1) = ink (List.concat chunks)).
  { unfold chunks1. destruct chunks as [| c chunks']; [reflexivity |].
    destruct lines; [reflexivity |].
    destruct (textwrap.blank c) eqn:Hb; [| reflexivity].
    simpl. rewrite ink_app, (ink_blank c Hb). reflexivity. }
  clearbody chunks1. rewrite <- H1. clear H1.
  destruct (textwrap.take_fitting width 0 chunks1) as [[cur_line cur_len] chunks2]
    eqn:Ht.
  destruct (take_fitting_spec _ _ _ _ _ _ Ht) as [Hc _]. subst chunks1.
  assert (Hstep : forall cur_line1 chunks3,
             ink (List.concat cur_line1) ++ ink (List.concat chunks3)
             = ink (List.concat (cur_line ++ chunks2)) ->
             ink (match (match textwrap.drop_last_blank cur_line1 with
                         | [] => None
                         | _ :: _ =>
                             Some (List.concat
                                     (textwrap.drop_last_blank cur_line1))
                         end) with
                  | Some l => l
                  | None => []
                  end)
             ++ ink (List.concat chunks3)
             = ink (List.concat (cur_line ++ chunks2))).
  { intros cur_line1 chunks3 H. rewrite <- H. f_equal.
    rewrite <- (ink_drop_last_blank cur_line1).
    destruct (textwrap.drop_last_blank cur_line1); reflexivity. }
  destruct chunks2 as [| c chunks'].
  - simpl fst. simpl snd. apply Hstep. rewrite ink_concat_app. reflexivity.
  - destruct (width <? List.length c)%nat.
    + destruct (textwrap._handle_long_word c cur_len width) as [piece left]
        eqn:Hh.
      destruct (handle_long_word_spec _ _ _ _ _ Hh) as [Hpl _].
      simpl fst. simpl snd. apply Hstep.
      rewrite !ink_concat_app. simpl. rewrite !ink_app, app_nil_r.
      rewrite <- Hpl, ink_app, <- !app_assoc. reflexivity.
    + simpl fst. simpl snd. apply Hstep. rewrite ink_concat_app. reflexivity.
Qed.

Lemma wrap_loop_ink (width : nat) :
  forall (fuel : nat) (chunks acc lines : list textwrap.text),
    textwrap.wrap_loop fuel width chunks acc = Some lines ->
    ink (List.concat lines)
    = ink (List.concat acc) ++ ink (List.concat chunks).
Proof.
  induction fuel as [| fuel IH]; intros chunks acc lines H.
  - destruct chunks; [| discriminate]. injection H as <-.
    simpl. rewrite app_nil_r. reflexivity.
  - destruct chunks as [| c chunks].
    + injection H as <-. simpl. rewrite app_nil_r. reflexivity.
    + simpl in H.
      pose proof (wrap_line_ink width acc (c :: chunks)) as Hl.
      destruct (textwrap.wrap_line width acc (c :: chunks)) as [line rest].
      simpl fst in Hl. simpl snd in Hl.
      rewrite (IH _ _ _ H), <- Hl.
      destruct line as [l |].
      * rewrite ink_concat_app. simpl. rewrite app_nil_r, <- app_assoc.
        reflexivity.
      * reflexivity.
Qed.

Lemma ink_join (lines : list textwrap.text) :
  ink (textwrap.join [textwrap.newline] lines) = ink (List.concat lines).
Proof.
  induction lines as [| l lines IH]; [reflexivity |].
  destruct lines as [| l' lines].
  - simpl. rewrite app_nil_r. reflexivity.
  - change (textwrap.join [textwrap.newline] (l :: l' :: lines))
      with (l ++ [textwrap.newline]
              ++ textwrap.join [textwrap.newline] (l' :: lines)).
    rewrite !ink_app, IH.
    change (List.concat (l :: l' :: lines))
      with (l ++ List.concat (l' :: lines)).
    rewrite ink_app. reflexivity.
Qed.

Lemma whitespace_isspace (c : ascii) :
  textwrap.whitespace c = true -> isspace c = true.
Proof.
  intros Hw.
  assert (Hall : forall x, implb (textwrap.whitespace x) (isspace x) = true)
    by (apply for_all_chars; vm_compute; reflexivity).
  specialize (Hall c). rewrite Hw in Hall. exact Hall.
Qed.

Lemma tab_isspace (c : ascii) : in_range 9 9 c = true -> isspace c = true.
Proof.
  intros Ht.
  assert (Hall : forall x, implb (in_range 9 9 x) (isspace x) = true)
    by (apply for_all_chars; vm_compute; reflexivity).
  specialize (Hall c). rewrite Ht in Hall. exact Hall.
Qed.

Lemma newline_whitespace (c : ascii) :
  in_range 10 10 c = true -> textwrap.whitespace c = true.
Proof.
  intros Ht.
  assert (Hall : forall x, implb (in_range 10 10 x) (textwrap.whitespace x)
                           = true)
    by (apply for_all_chars; vm_compute; reflexivity).
  specialize (Hall c). rewrite Ht in Hall. exact Hall.
Qed.

Lemma ink_repeat_blank (n : nat) : ink (repeat " "%char n) = [].
Proof. induction n as [| n IH]; [reflexivity | exact IH]. Qed.

Lemma ink_expandtabs (tabsize : nat) :
  forall (s : textwrap.text) (pos : nat),
    ink (textwrap.expandtabs tabsize pos s) = ink s.
Proof.
  induction s as [| c s IH]; intros pos; [reflexivity |].
  cbn [textwrap.expandtabs].
  destruct (in_range 9 9 c) eqn:Htab.
  - pose proof (tab_isspace c Htab) as Hsp.
    cbn [ink filter]. rewrite Hsp. cbn [negb].
    fold (ink s).
    destruct (0 <? tabsize)%nat.
    + rewrite ink_app, ink_repeat_blank. apply IH.
    + apply IH.
  - cbn [ink filter]. fold (ink s).
    fold (ink (textwrap.expandtabs tabsize
                 (if in_range 10 10 c || in_range 13 13 c then 0%nat
                  else S pos) s)).
    rewrite IH. reflexivity.
Qed.

Lemma ink_munge (s : textwrap.text) :
  ink (textwrap._munge_whitespace s) = ink s.
Proof.
  unfold textwrap._munge_whitespace. rewrite <- (ink_expandtabs 8 s 0).
  induction (textwrap.expandtabs 8 0 s) as [| c t IH]; [reflexivity |].
  cbn [map ink filter]. fold (ink t).
  fold (ink (map (fun c => if textwrap.whitespace c then " "%char else c) t)).
  rewrite IH.
  destruct (textwrap.whitespace c) eqn:Hw; [| reflexivity].
  rewrite (whitespace_isspace c Hw). reflexivity.
Qed.

(** [textwrap.fill] keeps the ink of the text. *)
Lemma fill_ink (s : textwrap.text) (w : Z) (t : textwrap.text) :
  textwrap.fill s w = Ok t -> ink t = ink s.
Proof.
  unfold textwrap.fill, textwrap.wrap, textwrap._wrap_chunks.
  destruct (w <=? 0)%Z; [discriminate |].
  simpl bind. intros H. injection H as <-.
  destruct (wrap_loop_total (Z.to_nat w)
              (textwrap.weight (textwrap._split_chunks s))
              (textwrap._split_chunks s) [] (Nat.le_refl _)) as [lines Hl].
  rewrite Hl, ink_join, (wrap_loop_ink _ _ _ _ _ Hl). simpl app.
  unfold textwrap._split_chunks. rewrite split_content. apply ink_munge.
Qed.

(** ** No word of a text is longer than its longest line *)

Lemma text_lines_first :
  forall (s cur : textwrap.text),
    exists l ls, text_lines cur s = l :: ls
                 /\ (List.length cur <= List.length l)%nat.
Proof.
  induction s as [| c s IH]; intros cur; simpl.
  - exists (rev cur), []. rewrite length_rev. split; [reflexivity | lia].
  - destruct (in_range 10 10 c).
    + exists (rev cur), (text_lines [] s). rewrite length_rev.
      split; [reflexivity | lia].
    + destruct (IH (c :: cur)) as [l [ls [E Hl]]].
      exists l, ls. split; [exact E |]. simpl in Hl. lia.
Qed.

Lemma flush_short (n : nat) (cur : textwrap.text) (l : list textwrap.text) :
  (List.length cur <= n)%nat ->
  Forall (fun x => (List.length x <= n)%nat) l ->
  Forall (fun x => (List.length x <= n)%nat) (textwrap.flush cur l).
Proof.
  intros Hc Hl. unfold textwrap.flush. destruct cur as [| x cur]; [exact Hl |].
  constructor; [rewrite length_rev; exact Hc | exact Hl].
Qed.

Lemma words_within_lines (n : nat) :
  forall (s cur acc : textwrap.text),
    (List.length cur <= List.length acc)%nat ->
    Forall (fun x => (List.length x <= n)%nat) (text_lines acc s) ->
    Forall (fun x => (List.length x <= n)%nat) (words_from cur s).
Proof.
  induction s as [| c s IH]; intros cur acc Hcur Hlines; simpl in *.
  - inversion Hlines as [| ? ? Hl _]; subst. rewrite length_rev in Hl.
    apply flush_short; [lia | constructor].
  - destruct (textwrap.whitespace c) eqn:Hw.
    + destruct (in_range 10 10 c).
      * inversion Hlines as [| ? ? Hl Hrest]; subst. rewrite length_rev in Hl.
        apply flush_short; [lia |].
        apply (IH [] []); [simpl; lia | exact Hrest].
      * destruct (text_lines_first s (c :: acc)) as [l [ls [E Hl]]].
        rewrite E in Hlines. inversion Hlines as [| ? ? Hl' _]; subst.
        simpl in Hl.
        apply flush_short; [lia |].
        apply (IH [] (c :: acc)); [simpl; lia |].
        rewrite E. exact Hlines.
    + assert (Hnl : in_range 10 10 c = false).
      { destruct (in_range 10 10 c) eqn:E; [| reflexivity].
        rewrite (newline_whitespace c E) in Hw. discriminate. }
      rewrite Hnl in Hlines.
      apply (IH (c :: cur) (c :: acc)); [simpl; lia | exact Hlines].
Qed.

(** What [textwrap.fill] returns for a positive width. *)
Lemma fill_spec (s : textwrap.text) (w : Z) :
  (0 < w)%Z ->
  exists lines,
    textwrap.wrap s w = Ok lines
    /\ textwrap.fill s w = Ok (textwrap.join [textwrap.newline] lines)
    /\ Forall (fun l => (Z.of_nat (List.length l) <= w)%Z) lines
    /\ Forall (fun l => (Z.of_nat (List.length l) <= w)%Z)
              (text_lines [] (textwrap.join [textwrap.newline] lines))
    /\ ink (textwrap.join [textwrap.newline] lines) = ink s
    /\ Forall (fun wd => (Z.of_nat (List.length wd) <= w)%Z)
              (words_from [] (textwrap.join [textwrap.newline] lines)).
Proof.
  intros Hpos.
  destruct (wrap_ok s w Hpos) as [lines [Hl [_ Hf]]].
  assert (Hfill : textwrap.fill s w
                  = Ok (textwrap.join [textwrap.newline] lines))
    by (unfold textwrap.fill; rewrite Hl; reflexivity).
  assert (Hlines : Forall (fun l => (List.length l <= Z.to_nat w)%nat)
                          (text_lines [] (textwrap.join [textwrap.newline] lines))).
  { apply text_lines_join.
    eapply Forall_impl; [| exact Hf]. intros l H. simpl in H. lia. }
  exists lines. split; [exact Hl |]. split; [exact Hfill |].
  split; [exact Hf |]. split; [| split].
  - eapply Forall_impl; [| exact Hlines]. intros l H. simpl in H. lia.
  - apply (fill_ink s w). exact Hfill.
  - pose proof (words_within_lines (Z.to_nat w) _ [] [] (Nat.le_refl _) Hlines)
      as Hwords.
    eapply Forall_impl; [| exact Hwords]. intros l H. simpl in H. lia.
Qed.


(** ** The title *)

Lemma title_text_str (o : Options) (s : string) :
  title_text o (VStr s)
  = if (wraplen o <? Z.of_nat (String.length s))%Z
    then if wrap o
         then t <- textwrap.fill (list_ascii_of_string s) (wraplen o) ;;
              Ok (string_of_list_ascii t)
         else Ok (slice_to (wraplen o) s ++ "...")%string
    else Ok s.
Proof. reflexivity. Qed.

(** C7. With a title column configured and a title that is text, under a
    threshold that is not negative, and not zero when wrapping is on, the
    title block holds: the title itself when its length is at most the
    threshold (equal included); what [textwrap.fill] makes of it at that
    width when it is longer and wrapping is on, a text whose lines and
    whose words are at most the threshold long and whose characters other
    than whitespace are those of the title, in their order; its first
    threshold characters followed by three dots when it is longer and
    wrapping is off. *)
Theorem C7_title_block (app : App) (row : Series) (tc s : string) (curve : Z)
  (color : string) :
  title_col (options app) = Some tc ->
  series_find tc row = Some (VStr s) ->
  dict_get (colors app) curve = Some color ->
  (0 <= wraplen (options app))%Z ->
  (wrap (options app) = true -> wraplen (options app) <> 0%Z) ->
  exists text,
    title_block app row curve
    = Ok [H2 text [("color", VStr color);
                   ("font-family", VStr (fontfamily (options app)));
                   ("fontSize", VInt (fontsize (options app) + 2))]]
    /\ ((Z.of_nat (String.length s) <= wraplen (options app))%Z -> text = s)
    /\ ((wraplen (options app) < Z.of_nat (String.length s))%Z ->
        wrap (options app) = true ->
        (exists lines,
            textwrap.wrap (list_ascii_of_string s) (wraplen (options app))
            = Ok lines
            /\ text = string_of_list_ascii
                        (textwrap.join [textwrap.newline] lines)
            /\ Forall (fun l => (Z.of_nat (List.length l)
                                 <= wraplen (options app))%Z) lines)
        /\ textwrap.fill (list_ascii_of_string s) (wraplen (options app))
           = Ok (list_ascii_of_string text)
        /\ Forall (fun l => (Z.of_nat (List.length l)
                             <= wraplen (options app))%Z)
                  (text_lines [] (list_ascii_of_string text))
        /\ ink (list_ascii_of_string text) = ink (list_ascii_of_string s)
        /\ Forall (fun wd => (Z.of_nat (List.length wd)
                              <= wraplen (options app))%Z)
                  (words_from [] (list_ascii_of_string text)))
    /\ ((wraplen (options app) < Z.of_nat (String.length s))%Z ->
        wrap (options app) = false ->
        text = (substring 0 (Z.to_nat (wraplen (options app))) s ++ "...")%string
        /\ Z.of_nat (String.length text) = (wraplen (options app) + 3)%Z).
Proof.
  intros Htc Hrow Hcolor Hpos Hwrap.
  unfold title_block. rewrite Htc. unfold getitem. rewrite Hrow. simpl bind.
  rewrite title_text_str.
  destruct (Z.ltb_spec (wraplen (options app)) (Z.of_nat (String.length s)))
    as [Hlong | Hshort].
  - destruct (wrap (options app)) eqn:Hw.
    + assert (H0 : (0 < wraplen (options app))%Z)
        by (specialize (Hwrap eq_refl); lia).
      destruct (fill_spec (list_ascii_of_string s) _ H0)
        as [lines [Hl [Hfill [Hf [Hlines [Hink Hwords]]]]]].
      rewrite Hfill. simpl bind. rewrite Hcolor.
      eexists. split; [reflexivity |].
      split; [intros H; lia |].
      split; [| intros _ H; discriminate H].
      intros _ _. rewrite list_ascii_of_string_of_list_ascii.
      split; [exists lines; auto |].
      split; [reflexivity |]. split; [exact Hlines |].
      split; [exact Hink | exact Hwords].
    + simpl bind. rewrite Hcolor.
      eexists. split; [reflexivity |].
      split; [intros H; lia |].
      split; [intros _ H; discriminate H |].
      intros _ _. unfold slice_to.
      destruct (Z.ltb_spec (wraplen (options app)) 0) as [Hneg | _]; [lia |].
      rewrite firstn_string_substring. split; [reflexivity |].
      rewrite string_length_append, <- firstn_string_substring.
      rewrite firstn_string_length by lia. simpl. lia.
  - simpl bind. rewrite Hcolor.
    eexists. split; [reflexivity |].
    split; [intros _; reflexivity |].
    split; intros H; lia.
Qed.

Lemma C7_title_block_witness :
  (exists text,
      title_block (sample_app_with (title_options true 5))
                  (sample_row "CC(C)O" "propan-2-ol" true 60) 0
      = Ok [H2 text [("color", VStr "#636efa");
                     ("font-family", VStr "Arial");
                     ("fontSize", VInt (12 + 2))]]
      /\ (exists lines,
             textwrap.wrap (list_ascii_of_string "propan-2-ol") 5 = Ok lines
             /\ text = string_of_list_ascii
                         (textwrap.join [textwrap.newline] lines)
             /\ Forall (fun l => (Z.of_nat (List.length l) <= 5)%Z) lines)
      /\ textwrap.fill (list_ascii_of_string "propan-2-ol") 5
         = Ok (list_ascii_of_string text)
      /\ Forall (fun l => (Z.of_nat (List.length l) <= 5)%Z)
                (text_lines [] (list_ascii_of_string text))
      /\ ink (list_ascii_of_string text)
         = ink (list_ascii_of_string "propan-2-ol")
      /\ Forall (fun wd => (Z.of_nat (List.length wd) <= 5)%Z)
                (words_from [] (list_ascii_of_string text)))
  /\ (exists text,
         title_block (sample_app_with (title_options false 5))
                     (sample_row "CC(C)O" "propan-2-ol" true 60) 0
         = Ok [H2 text [("color", VStr "#636efa");
                        ("font-family", VStr "Arial");
                        ("fontSize", VInt (12 + 2))]]
         /\ text = (substring 0 (Z.to_nat 5) "propan-2-ol" ++ "...")%string
         /\ Z.of_nat (String.length text) = (5 + 3)%Z).
Proof.
  split.
  - destruct (C7_title_block (sample_app_with (title_options true 5))
                (sample_row "CC(C)O" "propan-2-ol" true 60)
                "name" "propan-2-ol" 0 "#636efa")
      as [text [Hblock [_ [Hwrapped _]]]].
    + reflexivity.
    + reflexivity.
    + reflexivity.
    + simpl. lia.
    + intros _. simpl. lia.
    + exists text. split; [exact Hblock |].
      apply Hwrapped; [simpl; lia | reflexivity].
  - destruct (C7_title_block (sample_app_with (title_options false 5))
                (sample_row "CC(C)O" "propan-2-ol" true 60)
                "name" "propan-2-ol" 0 "#636efa")
      as [text [Hblock [_ [_ Hcut]]]].
    + reflexivity.
    + reflexivity.
    + reflexivity.
    + simpl. lia.
    + intros H. discriminate H.
    + exists text. split; [exact Hblock |].
      apply Hcut; [simpl; lia | reflexivity].
Defined.

(** C7 as claimed fails outside that range of the threshold.  At a
    threshold of zero with wrapping on, a title of seven characters is not
    wrapped: [textwrap] rejects the width and the hover raises.  At a
    threshold of minus two with wrapping off it is not cut to the
    threshold: it loses its last two characters. *)
Lemma C7_counterexample :
  title_block (sample_app_with (title_options true 0))
              (sample_row "CCO" "ethanol" false 46) 1
  = Raise (ValueError "invalid width (must be > 0)")
  /\ title_block (sample_app_with (title_options false (-2)))
                 (sample_row "CCO" "ethanol" false 46) 1
     = Ok [H2 "ethan..." [("color", VStr "#EF553B");
                          ("font-family", VStr "Arial");
                          ("fontSize", VInt 14)]]
  /\ String.length "ethanol" = 7%nat.
Proof. repeat split; vm_compute; reflexivity. Qed.




(** ** The image cache under distinct index labels *)

Lemma value_eqb_refl (v : value) : value_eqb v v = true.
Proof.
  destruct v as [b | n | s]; simpl.
  - destruct b; reflexivity.
  - apply Z.eqb_refl.
  - apply String.eqb_refl.
Qed.

Lemma value_eqb_str (v : value) (s : string) :
  value_eqb v (VStr s) = true -> v = VStr s.
Proof.
  destruct v as [b | n | t]; simpl; try discriminate.
  intros H. apply String.eqb_eq in H. congruence.
Qed.

Lemma series_find_set_same (col : string) (v : value) (r : Series) :
  series_find col (series_set col v r) = Some v.
Proof.
  induction r as [| [c x] r IH]; simpl.
  - rewrite String.eqb_refl. reflexivity.
  - destruct (String.eqb c col) eqn:E; simpl; rewrite E; [reflexivity | exact IH].
Qed.

Lemma series_find_set_other (col col' : string) (v : value) (r : Series) :
  col' <> col ->
  series_find col' (series_set col v r) = series_find col' r.
Proof.
  intros Hne. induction r as [| [c x] r IH]; simpl.
  - destruct (String.eqb_spec col col'); [congruence | reflexivity].
  - destruct (String.eqb_spec c col) as [-> | Hc]; simpl.
    + destruct (String.eqb_spec col col'); [congruence | reflexivity].
    + destruct (String.eqb c col'); [reflexivity | exact IH].
Qed.

Lemma append_cancel_r (a b s : string) :
  (a ++ s)%string = (b ++ s)%string -> a = b.
Proof.
  intros H.
  assert (Hlen : String.length a = String.length b).
  { apply (f_equal String.length) in H.
    rewrite !string_length_append in H. lia. }
  revert b H Hlen. induction a as [| c a IH]; intros b H Hlen.
  - destruct b; [reflexivity | discriminate Hlen].
  - destruct b as [| c' b]; [discriminate Hlen |].
    simpl in H. injection H as -> H. f_equal. apply IH; [exact H |].
    simpl in Hlen. lia.
Qed.

Lemma draw_row_rows (rdkit : Drawing) (size i : Z) (src : Series) :
  forall (cols : list string) (acc out : DataFrame),
    draw_row rdkit size i src cols acc = Ok out ->
    rows out
    = map (fun ir => if Z.eqb (fst ir) i
                     then (fst ir, stamp_row rdkit size src cols (snd ir))
                     else ir) (rows acc).
Proof.
  induction cols as [| col cols IH]; intros acc out H; simpl in H.
  - injection H as <-. rewrite <- (map_id (rows acc)) at 1.
    apply map_ext. intros [l r]. simpl. destruct (Z.eqb l i); reflexivity.
  - apply bind_ok in H. destruct H as [cell [Hcell H]].
    apply bind_ok in H. destruct H as [img [Himg H]].
    rewrite (IH _ _ H). simpl. rewrite map_map.
    apply map_ext. intros [l r]. simpl.
    unfold getitem in Hcell.
    destruct (series_find col src) as [cell' |]; [| discriminate].
    injection Hcell as ->. rewrite Himg.
    destruct (Z.eqb l i) eqn:E; simpl; rewrite E; reflexivity.
Qed.

Lemma draw_rows_rows (rdkit : Drawing) (size : Z) (cols : list string) :
  forall (its : list (Z * Series)) (acc out : DataFrame),
    draw_rows rdkit size its cols acc = Ok out ->
    rows out
    = map (fun ir => (fst ir, stamp_rows rdkit size its cols (fst ir) (snd ir)))
          (rows acc).
Proof.
  induction its as [| [i src] its IH]; intros acc out H; simpl in H.
  - injection H as <-. rewrite <- (map_id (rows acc)) at 1.
    apply map_ext. intros [l r]. reflexivity.
  - apply bind_ok in H. destruct H as [acc' [Hrow H]].
    rewrite (IH _ _ H), (draw_row_rows _ _ _ _ _ _ _ Hrow), map_map.
    apply map_ext. intros [l r]. simpl.
    destruct (Z.eqb l i); reflexivity.
Qed.

Lemma stamp_rows_absent (rdkit : Drawing) (size : Z) (cols : list string)
  (l : Z) :
  forall (its : list (Z * Series)) (r : Series),
    ~ In l (map fst its) -> stamp_rows rdkit size its cols l r = r.
Proof.
  induction its as [| [i src] its IH]; intros r Hl; simpl; [reflexivity |].
  simpl in Hl.
  destruct (Z.eqb_spec l i) as [-> | _]; [tauto |].
  apply IH. tauto.
Qed.

Lemma stamp_rows_unique (rdkit : Drawing) (size : Z) (cols : list string)
  (l : Z) (src : Series) :
  forall (its : list (Z * Series)),
    NoDup (map fst its) -> In (l, src) its ->
    forall r, stamp_rows rdkit size its cols l r
              = stamp_row rdkit size src cols r.
Proof.
  induction its as [| [i s0] its IH]; intros Hnd Hin r; [contradiction |].
  simpl in Hnd. inversion Hnd as [| ? ? Hi Hnd']; subst.
  simpl. destruct Hin as [E | Hin].
  - injection E as -> ->. rewrite Z.eqb_refl.
    apply stamp_rows_absent. exact Hi.
  - destruct (Z.eqb_spec l i) as [-> | _].
    + exfalso. apply Hi. apply in_map_iff. exists (i, src). auto.
    + apply IH; assumption.
Qed.

Lemma stamp_row_keep (rdkit : Drawing) (size : Z) (src : Series) (key : string) :
  forall (cols : list string) (r : Series),
    (forall c, In c cols -> key <> (c ++ "_img")%string) ->
    series_find key (stamp_row rdkit size src cols r) = series_find key r.
Proof.
  induction cols as [| col cols IH]; intros r Hkey; simpl; [reflexivity |].
  destruct (series_find col src) as [cell |]; [| reflexivity].
  destruct (draw_image rdkit size cell) as [img | e]; [| reflexivity].
  rewrite IH by (intros c Hc; apply Hkey; right; exact Hc).
  apply series_find_set_other. apply Hkey. left. reflexivity.
Qed.

Lemma stamp_row_img (rdkit : Drawing) (size : Z) (src : Series) (col : string) :
  forall (cols : list string) (r : Series),
    In col cols ->
    (forall c, In c cols ->
       exists cell img, getitem src c = Ok cell
                        /\ draw_image rdkit size cell = Ok img) ->
    exists cell img,
      series_find col src = Some cell
      /\ draw_image rdkit size cell = Ok img
      /\ series_find (col ++ "_img")%string (stamp_row rdkit size src cols r)
         = Some (VStr img).
Proof.
  induction cols as [| c cols IH]; intros r Hin Hall; [contradiction |].
  destruct (Hall c (or_introl eq_refl)) as [cell [img [Hcell Himg]]].
  unfold getitem in Hcell.
  destruct (series_find c src) as [cell' |] eqn:Hfind; [| discriminate].
  injection Hcell as ->.
  simpl. rewrite Hfind, Himg.
  destruct (in_dec string_dec col cols) as [Hlater | Hlast].
  - apply IH; [exact Hlater |]. intros c' Hc'. apply Hall. right. exact Hc'.
  - destruct Hin as [-> | Hin]; [| contradiction].
    exists cell, img. split; [exact Hfind |]. split; [exact Himg |].
    rewrite stamp_row_keep.
    + apply series_find_set_same.
    + intros c' Hc' E. apply append_cancel_r in E. subst c'. contradiction.
Qed.

Lemma find_dtype_app (c : string) (a b : list (string * dtype)) :
  find_dtype c (a ++ b)
  = match find_dtype c a with
    | Some t => Some t
    | None => find_dtype c b
    end.
Proof.
  induction a as [| [k t] a IH]; simpl; [reflexivity |].
  destruct (String.eqb k c); [reflexivity | exact IH].
Qed.

Lemma loc_set_keeps_column (i : Z) (k : string) (v : value) (d : DataFrame)
  (c : string) (t : dtype) :
  find_dtype c (columns d) = Some t ->
  find_dtype c (columns (loc_set i k v d)) = Some t.
Proof.
  intros H. unfold loc_set. simpl.
  destruct (find_dtype k (columns d)); [exact H |].
  rewrite find_dtype_app, H. reflexivity.
Qed.

Lemma loc_set_has_column (i : Z) (k : string) (v : value) (d : DataFrame) :
  exists t, find_dtype k (columns (loc_set i k v d)) = Some t.
Proof.
  unfold loc_set. simpl.
  destruct (find_dtype k (columns d)) as [t |] eqn:E.
  - exists t. exact E.
  - exists dtype_object. rewrite find_dtype_app, E. simpl.
    rewrite String.eqb_refl. reflexivity.
Qed.

Lemma draw_row_columns (rdkit : Drawing) (size i : Z) (src : Series) :
  forall (cols : list string) (acc out : DataFrame),
    draw_row rdkit size i src cols acc = Ok out ->
    (forall c t, find_dtype c (columns acc) = Some t ->
                 find_dtype c (columns out) = Some t)
    /\ (forall col, In col cols ->
          exists t, find_dtype (col ++ "_img")%string (columns out) = Some t).
Proof.
  induction cols as [| col cols IH]; intros acc out H; simpl in H.
  - injection H as <-. split; [auto | intros col []].
  - apply bind_ok in H. destruct H as [cell [_ H]].
    apply bind_ok in H. destruct H as [img [_ H]].
    destruct (IH _ _ H) as [Hkeep Hnew]. split.
    + intros c t Hc. apply Hkeep, loc_set_keeps_column, Hc.
    + intros col' [<- | Hin]; [| apply Hnew; exact Hin].
      destruct (loc_set_has_column i (col ++ "_img")%string (VStr img) acc)
        as [t Ht].
      exists t. apply Hkeep. exact Ht.
Qed.

Lemma draw_rows_columns (rdkit : Drawing) (size : Z) (cols : list string) :
  forall (its : list (Z * Series)) (acc out : DataFrame),
    draw_rows rdkit size its cols acc = Ok out ->
    (forall c t, find_dtype c (columns acc) = Some t ->
                 find_dtype c (columns out) = Some t)
    /\ (its <> [] -> forall col, In col cols ->
          exists t, find_dtype (col ++ "_img")%string (columns out) = Some t).
Proof.
  induction its as [| [i src] its IH]; intros acc out H; simpl in H.
  - injection H as <-. split; [auto | intros E; contradiction].
  - apply bind_ok in H. destruct H as [acc' [Hrow H]].
    destruct (draw_row_columns _ _ _ _ _ _ _ Hrow) as [Hk1 Hn1].
    destruct (IH _ _ H) as [Hk2 _]. split.
    + intros c t Hc. apply Hk2, Hk1, Hc.
    + intros _ col Hin. destruct (Hn1 col Hin) as [t Ht].
      exists t. apply Hk2. exact Ht.
Qed.

Lemma select_dtypes_has (d : DataFrame) :
  forall (cols : list string) (ts : list (string * dtype)),
    select_dtypes cols d = Ok ts ->
    forall col, In col cols -> exists t, find_dtype col ts = Some t.
Proof.
  induction cols as [| c cols IH]; intros ts H col Hin; [contradiction |].
  simpl in H. apply bind_ok in H. destruct H as [t [_ H]].
  apply bind_ok in H. destruct H as [ts' [Hts' H]].
  injection H as <-. simpl.
  destruct (String.eqb_spec c col) as [_ | Hne]; [exists t; reflexivity |].
  destruct Hin as [-> | Hin]; [contradiction |].
  apply (IH _ Hts' col Hin).
Qed.

(** X11. With distinct index labels, and no structure column named like an
    image column, the cache holds for every row and structure column the image
    drawn from that row's own cell; and for a structure column whose name is
    a plain identifier, which the query expression of the hover path reads
    as that column, the lookup returns it. *)
Lemma own_image_when_labels_distinct (rdkit : Drawing) (f : Figure)
  (d : DataFrame) (o : Options) (app : App) (label : Z) (row : Series)
  (col : string) (cell : value) :
  add_molecules rdkit f d o = Ok app ->
  NoDup (map fst (rows d)) ->
  (forall c c', In c (smiles_cols app) -> In c' (smiles_cols app) ->
                c <> (c' ++ "_img")%string) ->
  In (label, row) (rows d) ->
  In col (smiles_cols app) ->
  identifier col = true ->
  series_find col row = Some cell ->
  exists img,
    draw_image rdkit (svg_size o) cell = Ok img
    /\ (exists stored,
          In (label, stored) (rows (df_data app))
          /\ series_find (col ++ "_img")%string stored = Some (VStr img))
    /\ query_first (df_data app) col cell (col ++ "_img")%string
       = Ok (VStr img).
Proof.
  intros Hsetup Hnd Hclash Hrow Hcol Hid Hcell.
  destruct (setup_ok_all_decode _ _ _ _ _ Hsetup _ _ _ Hrow Hcol _ Hcell)
    as [smiles [m [img [-> [_ Himg]]]]].
  destruct (add_molecules_inv _ _ _ _ _ Hsetup) as [dd [cd [Hdd [_ Happ]]]].
  subst app. cbn [smiles_cols df_data] in *.
  set (cols := match smiles_col o with One s => [s] | Many l => l end) in *.
  unfold build_images in Hdd.
  apply bind_ok in Hdd. destruct Hdd as [sel [Hsel Hdraw]].
  unfold select in Hsel.
  apply bind_ok in Hsel. destruct Hsel as [ts [Hts Hsel]].
  injection Hsel as <-. simpl in Hdraw.
  set (its := map (fun ir : Z * Series => (fst ir, project cols (snd ir)))
                  (rows d)) in *.
  assert (Hlabels : map fst its = map fst (rows d)).
  { unfold its. rewrite map_map. reflexivity. }
  assert (Hnd' : NoDup (map fst its)) by (rewrite Hlabels; exact Hnd).
  pose proof (draw_rows_rows _ _ _ _ _ _ Hdraw) as Hrows. simpl in Hrows.
  destruct (draw_rows_columns _ _ _ _ _ _ Hdraw) as [Hkeep Hnew].
  simpl in Hkeep.
  (* every row of the cache is its own row, stamped with its own images *)
  assert (Hfinal : forall l r,
             In (l, r) (rows dd) ->
             exists src, In (l, src) its
                         /\ r = stamp_row rdkit (svg_size o) src cols src).
  { intros l r Hin. rewrite Hrows in Hin. apply in_map_iff in Hin.
    destruct Hin as [[l0 src] [E Hin]]. simpl in E. injection E as <- <-.
    exists src. split; [exact Hin |].
    apply stamp_rows_unique; assumption. }
  assert (Hstamped : forall l src,
             In (l, src) its ->
             In (l, stamp_row rdkit (svg_size o) src cols src) (rows dd)).
  { intros l src Hin. rewrite Hrows. apply in_map_iff.
    exists (l, src). split; [| exact Hin]. simpl. f_equal.
    apply stamp_rows_unique; assumption. }
  assert (Hdrawn : forall l src c, In (l, src) its -> In c cols ->
             exists cell img, getitem src c = Ok cell
                              /\ draw_image rdkit (svg_size o) cell = Ok img).
  { intros l src c Hin Hc. apply (draw_rows_ok _ _ _ _ _ _ Hdraw l src c Hin Hc). }
  assert (Hkeepcol : forall src r c, In c cols ->
             series_find c (stamp_row rdkit (svg_size o) src cols r)
             = series_find c r).
  { intros src r c Hc. apply stamp_row_keep.
    intros c' Hc'. apply Hclash; assumption. }
  assert (Hmine : In (label, project cols row) its).
  { unfold its. apply in_map_iff. exists (label, row). auto. }
  exists img. split; [exact Himg |]. split.
  - exists (stamp_row rdkit (svg_size o) (project cols row) cols
                      (project cols row)).
    split; [apply Hstamped; exact Hmine |].
    destruct (stamp_row_img rdkit (svg_size o) (project cols row) col cols
                (project cols row) Hcol
                (fun c Hc => Hdrawn label _ c Hmine Hc))
      as [cell' [img' [Hc' [Hi' Hs']]]].
    rewrite (project_complete _ _ _ _ Hcol Hcell) in Hc'.
    injection Hc' as <-. rewrite Himg in Hi'. injection Hi' as <-.
    exact Hs'.
  - unfold query_first, read_column. rewrite Hid.
    destruct (select_dtypes_has _ _ _ Hts col Hcol) as [t Ht].
    rewrite (Hkeep _ _ Ht). simpl bind.
    assert (Hne : its <> []) by (intros E; rewrite E in Hmine; contradiction).
    destruct (Hnew Hne col Hcol) as [t' Ht'].
    unfold column_dtype. rewrite Ht'. simpl bind.
    destruct (filter (fun ir => cell_is col (VStr smiles) (snd ir)) (rows dd))
      as [| [l1 r1] hits] eqn:Hhits.
    + exfalso.
      assert (Hin : In (label, stamp_row rdkit (svg_size o) (project cols row)
                                 cols (project cols row))
                       (filter (fun ir => cell_is col (VStr smiles) (snd ir))
                               (rows dd))).
      { apply filter_In. split; [apply Hstamped; exact Hmine |].
        simpl. unfold cell_is. rewrite Hkeepcol by exact Hcol.
        rewrite (project_complete _ _ _ _ Hcol Hcell).
        apply value_eqb_refl. }
      rewrite Hhits in Hin. contradiction.
    + assert (Hin : In (l1, r1)
                       (filter (fun ir => cell_is col (VStr smiles) (snd ir))
                               (rows dd)))
        by (rewrite Hhits; left; reflexivity).
      apply filter_In in Hin. destruct Hin as [Hin Hmatch]. simpl in Hmatch.
      destruct (Hfinal _ _ Hin) as [src [Hsrc ->]].
      unfold cell_is in Hmatch. rewrite Hkeepcol in Hmatch by exact Hcol.
      destruct (stamp_row_img rdkit (svg_size o) src col cols src Hcol
                  (fun c Hc => Hdrawn l1 _ c Hsrc Hc))
        as [cell1 [img1 [Hc1 [Hi1 Hs1]]]].
      rewrite Hc1 in Hmatch. apply value_eqb_str in Hmatch. subst cell1.
      rewrite Himg in Hi1. injection Hi1 as <-.
      simpl. unfold getitem. rewrite Hs1. reflexivity.
Qed.

Lemma own_image_when_labels_distinct_witness :
  exists img,
    draw_image sample_drawing (svg_size sample_options) (VStr "CC(C)O") = Ok img
    /\ (exists stored,
          In (2%Z, stored) (rows (df_data sample_app))
          /\ series_find "SMILES_img" stored = Some (VStr img))
    /\ query_first (df_data sample_app) "SMILES" (VStr "CC(C)O") "SMILES_img"
       = Ok (VStr img).
Proof.
  apply (own_image_when_labels_distinct sample_drawing two_series sample_df
           sample_options sample_app 2
           (sample_row "CC(C)O" "propan-2-ol" true 60) "SMILES"
           (VStr "CC(C)O")).
  - vm_compute. reflexivity.
  - repeat constructor; simpl; intuition discriminate.
  - intros c c' [<- | []] [<- | []]. discriminate.
  - right. right. left. reflexivity.
  - left. reflexivity.
  - reflexivity.
  - reflexivity.
Defined.

(** ** The series maps of a grouped chart *)

Lemma dict_get_keys {V : Type} (d : list (Z * V)) (k : Z) :
  (exists v, dict_get d k = Some v) <-> In k (map fst d).
Proof.
  induction d as [| [k' v'] d IH]; simpl.
  - split; [intros [v H]; discriminate | contradiction].
  - destruct (Z.eqb_spec k' k) as [-> | Hne].
    + split; [intros _; left; reflexivity | intros _; exists v'; reflexivity].
    + rewrite IH. split; [intros H; right; exact H |].
      intros [E | H]; [contradiction | exact H].
Qed.

Lemma enumerate_from_keys {A : Type} (l : list A) :
  forall (start k : Z),
    In k (map fst (enumerate_from start l))
    <-> (start <= k < start + Z.of_nat (List.length l))%Z.
Proof.
  induction l as [| a l IH]; intros start k; simpl.
  - split; [contradiction | lia].
  - rewrite IH. lia.
Qed.

Lemma int_names_keys :
  forall (l : list (Z * Trace)) (d : list (Z * value)),
    int_names l = Ok d -> map fst d = map fst l.
Proof.
  induction l as [| [i t] l IH]; intros d H; simpl in H.
  - injection H as <-. reflexivity.
  - apply bind_ok in H. destruct H as [n [_ H]].
    apply bind_ok in H. destruct H as [d' [Hd' H]].
    injection H as <-. simpl. f_equal. apply IH. exact Hd'.
Qed.

Lemma build_curve_dict_keys (f : Figure) (t : dtype) (d : list (Z * value)) :
  build_curve_dict f t = Ok d ->
  map fst d = map fst (enumerate (data f)).
Proof.
  destruct t; simpl; intros H.
  - injection H as <-. rewrite map_map. reflexivity.
  - apply int_names_keys. exact H.
  - injection H as <-. rewrite map_map. reflexivity.
Qed.

(** X1. After the setup of a chart with several series, the curve-to-group
    map and the colour map have an entry for the indices of the traces,
    0 to n-1, and for no other number. *)
Theorem series_maps_cover_traces (rdkit : Drawing) (f : Figure)
  (d : DataFrame) (o : Options) (app : App) (s : Z) :
  add_molecules rdkit f d o = Ok app ->
  List.length (data f) <> 1%nat ->
  ((exists group, dict_get (curve_dict app) s = Some group)
   <-> (0 <= s < Z.of_nat (List.length (data f)))%Z)
  /\ ((exists color, dict_get (colors app) s = Some color)
      <-> (0 <= s < Z.of_nat (List.length (data f)))%Z).
Proof.
  intros Hsetup Hn.
  destruct (add_molecules_inv _ _ _ _ _ Hsetup) as [dd [cd [_ [Hcd Happ]]]].
  subst app. simpl.
  destruct (build_series_grouped _ _ _ _ Hn Hcd) as [c [t [Hc [Ht Hdict]]]].
  split.
  - rewrite dict_get_keys, (build_curve_dict_keys _ _ _ Hdict).
    unfold enumerate. rewrite enumerate_from_keys. lia.
  - unfold build_series in Hcd.
    destruct (Nat.eqb_spec (List.length (data f)) 1) as [E | _];
      [contradiction |].
    simpl in Hcd. rewrite Hc, Ht in Hcd. simpl in Hcd.
    rewrite Hdict in Hcd. simpl in Hcd. injection Hcd as <-. simpl.
    rewrite dict_get_keys, map_map. simpl.
    unfold enumerate. rewrite enumerate_from_keys. lia.
Qed.

Lemma series_maps_cover_traces_witness :
  ((exists group, dict_get (curve_dict sample_app) 2 = Some group)
   <-> (0 <= 2 < Z.of_nat (List.length (data two_series)))%Z)
  /\ ((exists color, dict_get (colors sample_app) 2 = Some color)
      <-> (0 <= 2 < Z.of_nat (List.length (data two_series)))%Z).
Proof.
  apply (series_maps_cover_traces sample_drawing two_series sample_df
           sample_options sample_app 2).
  - vm_compute. reflexivity.
  - simpl. discriminate.
Defined.

(** ** Labels read back *)

Lemma lstrip_none (sp : ascii -> bool) (s : list ascii) :
  forallb (fun c => negb (sp c)) s = true -> lstrip sp s = s.
Proof.
  destruct s as [| c s]; simpl; [reflexivity |].
  intros H. apply andb_true_iff in H. destruct H as [Hc _].
  apply negb_true_iff in Hc. rewrite Hc. reflexivity.
Qed.

Lemma strip_none (sp : ascii -> bool) (s : list ascii) :
  forallb (fun c => negb (sp c)) s = true -> strip sp s = s.
Proof.
  intros H. unfold strip. rewrite (lstrip_none sp s H).
  rewrite lstrip_none.
  - apply rev_involutive.
  - apply forallb_forall. intros c Hc. apply in_rev in Hc.
    rewrite forallb_forall in H. apply H. exact Hc.
Qed.

(** Reading the digits of a decimal number gives its value. *)
Lemma digits_of_uint :
  forall (d : Decimal.uint) (a : N) (b : bool),
    (d <> Decimal.Nil \/ b = true) ->
    digits (Z.of_N a) b (digit_chars d)
    = Some (Z.of_N (a * 10 ^ Unsigned.usize d
                    + Unsigned.of_lu (Decimal.rev d))).
Proof.
  assert (Hstep : forall (l : Decimal.uint) (a k : N),
             (k <= 9)%N ->
             (forall a' b', (l <> Decimal.Nil \/ b' = true) ->
                digits (Z.of_N a') b' (digit_chars l)
                = Some (Z.of_N (a' * 10 ^ Unsigned.usize l
                                + Unsigned.of_lu (Decimal.rev l)))) ->
             digits (10 * Z.of_N a + Z.of_N k) true (digit_chars l)
             = Some (Z.of_N (a * 10 ^ N.succ (Unsigned.usize l)
                             + (Unsigned.of_lu (Decimal.rev l)
                                + k * 10 ^ Unsigned.usize l)))).
  { intros l a k Hk IH.
    replace (10 * Z.of_N a + Z.of_N k)%Z with (Z.of_N (10 * a + k)) by lia.
    rewrite IH by (right; reflexivity).
    f_equal. f_equal. rewrite N.pow_succ_r'. lia. }
  induction d as [| d IH | d IH | d IH | d IH | d IH | d IH | d IH | d IH
                  | d IH | d IH]; intros a b Hb.
  - destruct Hb as [Hb | ->]; [contradiction |].
    simpl. f_equal. rewrite N.mul_1_r, N.add_0_r. reflexivity.
  - unfold Decimal.rev. simpl Decimal.revapp. rewrite Unsigned.of_lu_revapp.
    simpl Unsigned.usize. apply (Hstep d a 0%N); [lia | exact IH].
  - unfold Decimal.rev. simpl Decimal.revapp. rewrite Unsigned.of_lu_revapp.
    simpl Unsigned.usize. apply (Hstep d a 1%N); [lia | exact IH].
  - unfold Decimal.rev. simpl Decimal.revapp. rewrite Unsigned.of_lu_revapp.
    simpl Unsigned.usize. apply (Hstep d a 2%N); [lia | exact IH].
  - unfold Decimal.rev. simpl Decimal.revapp. rewrite Unsigned.of_lu_revapp.
    simpl Unsigned.usize. apply (Hstep d a 3%N); [lia | exact IH].
  - unfold Decimal.rev. simpl Decimal.revapp. rewrite Unsigned.of_lu_revapp.
    simpl Unsigned.usize. apply (Hstep d a 4%N); [lia | exact IH].
  - unfold Decimal.rev. simpl Decimal.revapp. rewrite Unsigned.of_lu_revapp.
    simpl Unsigned.usize. apply (Hstep d a 5%N); [lia | exact IH].
  - unfold Decimal.rev. simpl Decimal.revapp. rewrite Unsigned.of_lu_revapp.
    simpl Unsigned.usize. apply (Hstep d a 6%N); [lia | exact IH].
  - unfold Decimal.rev. simpl Decimal.revapp. rewrite Unsigned.of_lu_revapp.
    simpl Unsigned.usize. apply (Hstep d a 7%N); [lia | exact IH].
  - unfold Decimal.rev. simpl Decimal.revapp. rewrite Unsigned.of_lu_revapp.
    simpl Unsigned.usize. apply (Hstep d a 8%N); [lia | exact IH].
  - unfold Decimal.rev. simpl Decimal.revapp. rewrite Unsigned.of_lu_revapp.
    simpl Unsigned.usize. apply (Hstep d a 9%N); [lia | exact IH].
Qed.

Lemma digit_chars_all_digits (d : Decimal.uint) :
  forallb is_digit (digit_chars d) = true.
Proof.
  unfold digit_chars. induction d; simpl; try reflexivity; exact IHd.
Qed.

Lemma digit_is_plain (c : ascii) :
  is_digit c = true ->
  int_space c = false /\ Ascii.eqb c "-"%char = false
  /\ Ascii.eqb c "+"%char = false.
Proof.
  intros H.
  assert (Hall : forallb (fun c => implb (is_digit c)
                   (negb (int_space c) && negb (Ascii.eqb c "-"%char)
                    && negb (Ascii.eqb c "+"%char))) all_chars = true)
    by (vm_compute; reflexivity).
  pose proof (for_all_chars _ Hall c) as Hc. cbv beta in Hc.
  rewrite H in Hc. simpl in Hc.
  apply andb_true_iff in Hc. destruct Hc as [Hc H3].
  apply andb_true_iff in Hc. destruct Hc as [H1 H2].
  apply negb_true_iff in H1, H2, H3. auto.
Qed.

Lemma digit_chars_no_space (d : Decimal.uint) :
  forallb (fun c => negb (int_space c)) (digit_chars d) = true.
Proof.
  pose proof (digit_chars_all_digits d) as H.
  rewrite forallb_forall in H. apply forallb_forall.
  intros c Hc. destruct (digit_is_plain c (H c Hc)) as [-> _]. reflexivity.
Qed.

Lemma digits_value (d : Decimal.uint) :
  d <> Decimal.Nil ->
  digits 0 false (digit_chars d) = Some (Z.of_N (Pos.of_uint d)).
Proof.
  intros Hd.
  change 0%Z with (Z.of_N 0).
  rewrite (digits_of_uint d 0%N false (or_introl Hd)).
  rewrite Unsigned.of_uint_alt. f_equal.
Qed.

(** [int] reads back what [str] writes of an integer. *)
Lemma int_of_str (n : Z) : Py.int (str (VInt n)) = Ok n.
Proof.
  unfold str, Py.int.
  destruct n as [| p | p].
  - vm_compute. reflexivity.
  - simpl Z.to_int. simpl NilEmpty.string_of_int.
    assert (Hd : Pos.to_uint p <> Decimal.Nil).
    { intros E. pose proof (Unsigned.of_to p) as H. rewrite E in H.
      discriminate H. }
    fold (digit_chars (Pos.to_uint p)).
    rewrite (strip_none _ _ (digit_chars_no_space _)).
    pose proof (digits_value _ Hd) as Hv.
    pose proof (digit_chars_all_digits (Pos.to_uint p)) as Hall.
    rewrite Unsigned.of_to in Hv.
    destruct (digit_chars (Pos.to_uint p)) as [| c r] eqn:E.
    + discriminate Hv.
    + simpl in Hall. apply andb_true_iff in Hall. destruct Hall as [Hc _].
      destruct (digit_is_plain c Hc) as [_ [-> ->]].
      rewrite Hv. reflexivity.
  - simpl Z.to_int. simpl NilEmpty.string_of_int.
    assert (Hd : Pos.to_uint p <> Decimal.Nil).
    { intros E. pose proof (Unsigned.of_to p) as H. rewrite E in H.
      discriminate H. }
    change (list_ascii_of_string
              (String "-" (NilEmpty.string_of_uint (Pos.to_uint p))))
      with ("-"%char :: digit_chars (Pos.to_uint p)).
    rewrite strip_none.
    + simpl. rewrite (digits_value _ Hd), Unsigned.of_to. reflexivity.
    + simpl. apply digit_chars_no_space.
Qed.

Lemma int_names_get :
  forall (l : list Trace) (start : Z) (d : list (Z * value)) (i : nat)
         (t : Trace),
    int_names (enumerate_from start l) = Ok d ->
    nth_error l i = Some t ->
    exists n, Py.int (name t) = Ok n
              /\ dict_get d (start + Z.of_nat i) = Some (VInt n).
Proof.
  induction l as [| a l IH]; intros start d i t H Hi.
  - destruct i; discriminate Hi.
  - simpl in H.
    apply bind_ok in H. destruct H as [n [Hn H]].
    apply bind_ok in H. destruct H as [d' [Hd' H]].
    injection H as <-.
    destruct i as [| i]; simpl in Hi.
    + injection Hi as <-. exists n. split; [exact Hn |].
      simpl. replace (start + 0)%Z with start by lia.
      rewrite Z.eqb_refl. reflexivity.
    + destruct (IH _ _ _ _ Hd' Hi) as [m [Hm Hg]].
      exists m. split; [exact Hm |]. simpl.
      destruct (Z.eqb_spec start (start + Z.pos (Pos.of_succ_nat i)));
        [lia |].
      replace (start + Z.pos (Pos.of_succ_nat i))%Z
        with ((start + 1) + Z.of_nat i)%Z by lia.
      exact Hg.
Qed.

Lemma str2bool_of_str (b : bool) : str2bool (str (VBool b)) = b.
Proof. destruct b; reflexivity. Qed.

(** X2. The coercion undoes the labelling of the charting layer: when the
    trace of a series is labelled with the text of a group value of the
    kind the colour column holds (a bool for dtype bool, an int for dtype
    int, a string otherwise), the curve-to-group map gives that very value
    back for the series. *)
Theorem curve_dict_reads_labels_back (rdkit : Drawing) (f : Figure)
  (d : DataFrame) (o : Options) (app : App) (c : string) (t : dtype)
  (i : nat) (tr : Trace) (group : value) :
  add_molecules rdkit f d o = Ok app ->
  List.length (data f) <> 1%nat ->
  color_col o = Some c ->
  column_dtype d c = Ok t ->
  nth_error (data f) i = Some tr ->
  has_dtype t group ->
  name tr = str group ->
  dict_get (curve_dict app) (Z.of_nat i) = Some group.
Proof.
  intros Hsetup Hn Hc Ht Hi Hkind Hname.
  destruct (add_molecules_inv _ _ _ _ _ Hsetup) as [dd [cd [_ [Hcd Happ]]]].
  subst app. simpl.
  destruct (build_series_grouped _ _ _ _ Hn Hcd) as [c' [t' [Hc' [Ht' Hdict]]]].
  rewrite Hc in Hc'. injection Hc' as <-.
  rewrite Ht in Ht'. injection Ht' as <-.
  destruct t; destruct group as [b | n | s]; try contradiction; simpl in Hdict.
  - injection Hdict as <-.
    rewrite (dict_get_enumerate
               (fun ix : Z * Trace => VBool (str2bool (name (snd ix))))).
    rewrite Hi. simpl. rewrite Hname, str2bool_of_str. reflexivity.
  - destruct (int_names_get _ 0%Z _ _ _ Hdict Hi) as [m [Hm Hg]].
    rewrite Hname, int_of_str in Hm. injection Hm as <-. exact Hg.
  - injection Hdict as <-.
    rewrite (dict_get_enumerate
               (fun ix : Z * Trace => VStr (name (snd ix)))).
    rewrite Hi. simpl. rewrite Hname. reflexivity.
Qed.

Lemma curve_dict_reads_labels_back_witness :
  dict_get (curve_dict sample_app) (Z.of_nat 1) = Some (VBool false).
Proof.
  apply (curve_dict_reads_labels_back sample_drawing two_series sample_df
           sample_options sample_app "active" dtype_bool 1
           {| name := "False"; marker_color := "#EF553B" |} (VBool false)).
  - vm_compute. reflexivity.
  - simpl. discriminate.
  - reflexivity.
  - reflexivity.
  - reflexivity.
  - exact I.
  - reflexivity.
Defined.

(** ** Setup errors *)

Lemma int_raises (s : string) (e : exn) :
  Py.int s = Raise e ->
  e = ValueError "invalid literal for int() with base 10".
Proof.
  unfold Py.int.
  destruct (strip int_space (list_ascii_of_string s)) as [| c r].
  - intros H. injection H as <-. reflexivity.
  - destruct (Ascii.eqb c "-"%char).
    + destruct (digits 0 false r); [discriminate |].
      intros H. injection H as <-. reflexivity.
    + destruct (Ascii.eqb c "+"%char).
      * destruct (digits 0 false r); [discriminate |].
        intros H. injection H as <-. reflexivity.
      * destruct (digits 0 false (c :: r)); [discriminate |].
        intros H. injection H as <-. reflexivity.
Qed.

Lemma int_names_raises :
  forall (l : list (Z * Trace)) (i : Z) (t : Trace) (e : exn),
    In (i, t) l ->
    Py.int (name t) = Raise e ->
    int_names l
    = Raise (ValueError "invalid literal for int() with base 10").
Proof.
  induction l as [| [j a] l IH]; intros i t e Hin Hbad; [contradiction |].
  simpl. destruct (Py.int (name a)) as [n |e'] eqn:Ha.
  - simpl. destruct Hin as [E | Hin].
    + injection E as -> ->. congruence.
    + rewrite (IH _ _ _ Hin Hbad). reflexivity.
  - simpl. rewrite (int_raises _ _ Ha). reflexivity.
Qed.

Lemma in_enumerate_from {A : Type} (l : list A) (a : A) :
  forall start, In a l -> exists i, In (i, a) (enumerate_from start l).
Proof.
  induction l as [| b l IH]; intros start Hin; [contradiction |].
  destruct Hin as [-> | Hin].
  - exists start. left. reflexivity.
  - destruct (IH (start + 1)%Z Hin) as [i Hi]. exists i. right. exact Hi.
Qed.

(** X3. With a colour column of dtype int, a trace whose label [int] does
    not accept stops the setup: once the image cache is built,
    [add_molecules] raises the ValueError of [int]. *)
Theorem int_labels_must_parse (rdkit : Drawing) (f : Figure) (d : DataFrame)
  (o : Options) (c : string) (dd : DataFrame) (t : Trace) (e : exn) :
  List.length (data f) <> 1%nat ->
  color_col o = Some c ->
  column_dtype d c = Ok dtype_int ->
  build_images rdkit d (match smiles_col o with One s => [s] | Many l => l end)
               (svg_size o) = Ok dd ->
  In t (data f) ->
  Py.int (name t) = Raise e ->
  add_molecules rdkit f d o
  = Raise (ValueError "invalid literal for int() with base 10").
Proof.
  intros Hn Hc Ht Hdd Hin Hbad.
  unfold add_molecules. rewrite Hdd. simpl bind.
  unfold build_series.
  destruct (Nat.eqb_spec (List.length (data f)) 1) as [E | _]; [contradiction |].
  simpl negb. cbv iota. rewrite Hc, Ht. simpl bind.
  destruct (in_enumerate_from _ _ 0%Z Hin) as [i Hi].
  unfold build_curve_dict, enumerate.
  rewrite (int_names_raises _ _ _ _ Hi Hbad). reflexivity.
Qed.

Lemma int_labels_must_parse_witness :
  add_molecules sample_drawing two_series sample_df
    {| smiles_col := One "SMILES"; show_img := true; svg_size := 200;
       alpha := "0.75"; img_alpha := "0.7"; title_col := None;
       show_coords := true; caption_cols := None;
       caption_transform := fun _ => None; color_col := Some "mw";
       wrap := true; wraplen := 20; width := 150;
       fontfamily := "Arial"; fontsize := 12 |}
  = Raise (ValueError "invalid literal for int() with base 10").
Proof.
  eapply (int_labels_must_parse sample_drawing two_series sample_df _ "mw" _
            {| name := "True"; marker_color := "#636efa" |}).
  - simpl. discriminate.
  - reflexivity.
  - reflexivity.
  - vm_compute. reflexivity.
  - left. reflexivity.
  - vm_compute. reflexivity.
Defined.

Lemma select_dtypes_missing (d : DataFrame) :
  forall (cols : list string) (c : string),
    In c cols -> find_dtype c (columns d) = None ->
    exists c', In c' cols /\ find_dtype c' (columns d) = None
               /\ select_dtypes cols d = Raise (KeyError c').
Proof.
  induction cols as [| a cols IH]; intros c Hin Hc; [contradiction |].
  simpl. unfold column_dtype.
  destruct (find_dtype a (columns d)) as [t |] eqn:Ha.
  - destruct Hin as [-> | Hin]; [congruence |].
    destruct (IH c Hin Hc) as [c' [Hc' [Hm Hs]]].
    exists c'. split; [right; exact Hc' |]. split; [exact Hm |].
    simpl. rewrite Hs. reflexivity.
  - exists a. split; [left; reflexivity |]. split; [exact Ha | reflexivity].
Qed.

(** X10. A configured structure column that the data frame does not have
    stops the setup with a KeyError naming a missing column, before any
    molecule is drawn and whatever the figure holds. *)
Theorem structure_column_must_exist (rdkit : Drawing) (f : Figure)
  (d : DataFrame) (o : Options) (c : string) :
  In c (match smiles_col o with One s => [s] | Many l => l end) ->
  find_dtype c (columns d) = None ->
  exists c',
    In c' (match smiles_col o with One s => [s] | Many l => l end)
    /\ find_dtype c' (columns d) = None
    /\ add_molecules rdkit f d o = Raise (KeyError c').
Proof.
  intros Hin Hc.
  destruct (select_dtypes_missing d _ c Hin Hc) as [c' [Hc' [Hm Hs]]].
  exists c'. split; [exact Hc' |]. split; [exact Hm |].
  unfold add_molecules, build_images, select. rewrite Hs. reflexivity.
Qed.

Lemma structure_column_must_exist_witness :
  exists c',
    In c' ["smiles"]
    /\ find_dtype c' (columns sample_df) = None
    /\ add_molecules sample_drawing one_series sample_df
         {| smiles_col := One "smiles"; show_img := true; svg_size := 200;
            alpha := "0.75"; img_alpha := "0.7"; title_col := None;
            show_coords := true; caption_cols := None;
            caption_transform := fun _ => None; color_col := None;
            wrap := true; wraplen := 20; width := 150;
            fontfamily := "Arial"; fontsize := 12 |}
       = Raise (KeyError c').
Proof.
  apply (structure_column_must_exist sample_drawing one_series sample_df
           {| smiles_col := One "smiles"; show_img := true; svg_size := 200;
              alpha := "0.75"; img_alpha := "0.7"; title_col := None;
              show_coords := true; caption_cols := None;
              caption_transform := fun _ => None; color_col := None;
              wrap := true; wraplen := 20; width := 150;
              fontfamily := "Arial"; fontsize := 12 |} "smiles").
  - left. reflexivity.
  - reflexivity.
Defined.

(** ** The hover callback at its edges *)

Lemma display_hover_point (app : App) (pt : Point) (rest : list Point)
  (value : menu_value) :
  display_hover app (Some (pt :: rest)) value
  = (df_row <- resolve_row app (pointNumber pt) (curveNumber pt) ;;
     images <- (if show_img (options app)
                then image_blocks app df_row value (smiles_cols app)
                else Ok []) ;;
     title <- title_block app df_row (curveNumber pt) ;;
     captions <- caption_blocks app df_row ;;
     Ok (true, update (bbox pt),
         update [Div (images ++ title ++ coord_blocks app pt ++ captions)
                     [("width", VStr (str (VInt (width (options app))) ++ "px"));
                      ("white-space", VStr "normal")]])).
Proof. reflexivity. Qed.

Lemma image_blocks_none_chosen (app : App) (row : Series) :
  forall cols, image_blocks app row (MenuList []) cols = Ok [].
Proof.
  induction cols as [| c cols IH]; simpl; [reflexivity | exact IH].
Qed.

(** X4. The menu selection bears on the image blocks only.  Whenever the
    callback returns a hover box for some selection, it also returns one for
    the empty selection, and that box is the same without its image blocks:
    same anchor, same title, axis and caption blocks, same style. *)
Theorem selection_changes_images_only (app : App) (pt : Point)
  (rest : list Point) (value : menu_value) (shown : bool) (box : output BBox)
  (children : output (list container)) :
  display_hover app (Some (pt :: rest)) value = Ok (shown, box, children) ->
  exists images others style,
    children = update [Div (images ++ others) style]
    /\ display_hover app (Some (pt :: rest)) (MenuList [])
       = Ok (shown, box, update [Div others style])
    /\ (show_img (options app) = false -> images = []).
Proof.
  rewrite !display_hover_point. intros H.
  apply bind_ok in H. destruct H as [row [Hrow H]].
  apply bind_ok in H. destruct H as [images [Himg H]].
  apply bind_ok in H. destruct H as [title [Htitle H]].
  apply bind_ok in H. destruct H as [captions [Hcap H]].
  injection H as <- <- <-.
  exists images, (title ++ coord_blocks app pt ++ captions).
  eexists. split; [reflexivity |]. split.
  - rewrite Hrow. simpl bind.
    assert (Hnone : (if show_img (options app)
                     then image_blocks app row (MenuList []) (smiles_cols app)
                     else Ok []) = Ok [])
      by (destruct (show_img (options app));
          [apply image_blocks_none_chosen | reflexivity]).
    rewrite Hnone. simpl bind. rewrite Htitle. simpl bind.
    rewrite Hcap. reflexivity.
  - intros Hshow. rewrite Hshow in Himg. injection Himg as <-. reflexivity.
Qed.

Lemma selection_changes_images_only_witness :
  exists images others style,
    update
      [Div
         [Img (VStr "data:image/svg+xml;base64,<svg>CCO</svg>")
            [("width", VStr "100%");
             ("background-color", VStr "rgba(255,255,255,0.7)")];
          H2 "ethanol"
            [("color", VStr "#EF553B"); ("font-family", VStr "Arial");
             ("fontSize", VInt 14)];
          P "logp: 2" (caption_style sample_options);
          P "mw : 46 Da" (caption_style sample_options);
          P "mw : 46 Da" (caption_style sample_options)]
         [("width", VStr "150px"); ("white-space", VStr "normal")]]
    = update [Div (images ++ others) style]
    /\ display_hover sample_app (Some [sample_point 1 0]) (MenuList [])
       = Ok (true, update {| x0 := 10; x1 := 14; y0 := 20; y1 := 24 |},
             update [Div others style])
    /\ (show_img (options sample_app) = false -> images = []).
Proof.
  apply (selection_changes_images_only sample_app (sample_point 1 0) []
           (MenuStr "SMILES") true
           (update {| x0 := 10; x1 := 14; y0 := 20; y1 := 24 |})).
  vm_compute. reflexivity.
Defined.

(** X5. A selection that is neither a name nor a list (None) is not
    iterable: with images on and a structure column configured, a hover on
    any point that resolves raises TypeError. *)
Theorem missing_selection_raises (app : App) (pt : Point) (rest : list Point)
  (row : Series) (col : string) (cols : list string) :
  show_img (options app) = true ->
  smiles_cols app = col :: cols ->
  resolve_row app (pointNumber pt) (curveNumber pt) = Ok row ->
  display_hover app (Some (pt :: rest)) MenuNone
  = Raise (TypeError "argument of type 'NoneType' is not iterable").
Proof.
  intros Hshow Hcols Hrow.
  rewrite display_hover_point, Hrow, Hshow, Hcols. reflexivity.
Qed.

Lemma missing_selection_raises_witness :
  display_hover sample_app (Some [sample_point 1 0]) MenuNone
  = Raise (TypeError "argument of type 'NoneType' is not iterable").
Proof.
  apply (missing_selection_raises sample_app (sample_point 1 0) []
           (sample_row "CCO" "ethanol" false 46) "SMILES" []).
  - reflexivity.
  - reflexivity.
  - reflexivity.
Defined.

(** X24. A structure column named by several words, such as [mol smiles],
    cannot be hovered: the setup accepts it, but the callback writes the
    name into the query text as it is, so when the first structure column
    is such a name and is selected, a hover on any point that resolves to a
    row holding that column raises SyntaxError. *)
Theorem spaced_column_name_raises (app : App) (pt : Point) (rest : list Point)
  (value : menu_value) (row : Series) (col : string) (cols : list string)
  (cell : Py.value) :
  show_img (options app) = true ->
  smiles_cols app = col :: cols ->
  resolve_row app (pointNumber pt) (curveNumber pt) = Ok row ->
  member col value = Ok true ->
  series_find col row = Some cell ->
  read_column col = SeveralNames ->
  display_hover app (Some (pt :: rest)) value
  = Raise (SyntaxError "invalid syntax").
Proof.
  intros Hshow Hcols Hrow Hmem Hcell Hread.
  rewrite display_hover_point, Hrow, Hshow, Hcols.
  cbn [bind image_blocks]. rewrite Hmem. cbn [bind].
  unfold getitem. rewrite Hcell. cbn [bind].
  unfold query_first. rewrite Hread. reflexivity.
Qed.

Lemma spaced_column_name_raises_witness :
  add_molecules sample_drawing one_series spaced_df spaced_options
  = Ok spaced_app
  /\ display_hover spaced_app (Some [sample_point 0 1]) (MenuStr "mol smiles")
     = Raise (SyntaxError "invalid syntax").
Proof.
  split; [vm_compute; reflexivity |].
  apply (spaced_column_name_raises spaced_app (sample_point 0 1) []
           (MenuStr "mol smiles")
           [("mol smiles", VStr "CCO"); ("name", VStr "ethanol")]
           "mol smiles" [] (VStr "CCO")).
  - reflexivity.
  - reflexivity.
  - reflexivity.
  - reflexivity.
  - reflexivity.
  - reflexivity.
Defined.

(** X6. A title cell that is not text has no length: when the title column
    holds a number or a truth value, no hover on that row returns a box, and
    with images off the error is the TypeError of [len]. *)
Theorem title_must_be_text (app : App) (pt : Point) (rest : list Point)
  (value : menu_value) (row : Series) (tc : string) (cell : Py.value) :
  title_col (options app) = Some tc ->
  resolve_row app (pointNumber pt) (curveNumber pt) = Ok row ->
  series_find tc row = Some cell ->
  (forall s, cell <> VStr s) ->
  (exists e, display_hover app (Some (pt :: rest)) value = Raise e)
  /\ (show_img (options app) = false ->
      exists msg, display_hover app (Some (pt :: rest)) value
                  = Raise (TypeError msg)).
Proof.
  intros Htc Hrow Hcell Hnot.
  assert (Htitle : exists msg, title_block app row (curveNumber pt)
                               = Raise (TypeError msg)).
  { unfold title_block, getitem. rewrite Htc, Hcell. simpl bind.
    destruct cell as [b | n | s].
    - eexists. reflexivity.
    - eexists. reflexivity.
    - exfalso. apply (Hnot s). reflexivity. }
  destruct Htitle as [msg Htitle].
  rewrite display_hover_point, Hrow. simpl bind. split.
  - destruct (if show_img (options app)
              then image_blocks app row value (smiles_cols app)
              else Ok []) as [images | e].
    + simpl bind. rewrite Htitle. eexists. reflexivity.
    + eexists. reflexivity.
  - intros ->. simpl bind. rewrite Htitle. exists msg. reflexivity.
Qed.

Lemma title_must_be_text_witness :
  (exists e,
      display_hover (sample_app_with (bare_options (Some "mw") None))
        (Some [sample_point 1 0]) (MenuStr "SMILES") = Raise e)
  /\ (show_img (options (sample_app_with (bare_options (Some "mw") None)))
      = false ->
      exists msg,
        display_hover (sample_app_with (bare_options (Some "mw") None))
          (Some [sample_point 1 0]) (MenuStr "SMILES") = Raise (TypeError msg)).
Proof.
  apply (title_must_be_text (sample_app_with (bare_options (Some "mw") None))
           (sample_point 1 0) [] (MenuStr "SMILES")
           (sample_row "CCO" "ethanol" false 46) "mw" (VInt 46)).
  - reflexivity.
  - reflexivity.
  - reflexivity.
  - intros s. discriminate.
Defined.

(** X7. A negative point number counts from the end of the series, as
    [iloc] does: within the series' length it resolves to the same row as
    the position it stands for, and raises nothing. *)
Theorem negative_point_counts_back (app : App) (num curve : Z)
  (subset : list Series) :
  series_rows app curve = Some subset ->
  (- Z.of_nat (List.length subset) <= num < 0)%Z ->
  exists row,
    resolve_row app num curve = Ok row
    /\ nth_error subset (Z.to_nat (Z.of_nat (List.length subset) + num))
       = Some row
    /\ resolve_row app (Z.of_nat (List.length subset) + num) curve = Ok row.
Proof.
  intros Hs Hnum.
  rewrite !(resolve_row_iloc _ _ _ _ Hs).
  set (n := List.length subset) in *.
  destruct (nth_error subset (Z.to_nat (Z.of_nat n + num))) as [row |] eqn:Hrow.
  - exists row. split; [| split; [reflexivity |]].
    + unfold iloc. fold n.
      destruct (Z.ltb_spec num 0) as [_ | Hge]; [| lia].
      replace (num + Z.of_nat n)%Z with (Z.of_nat n + num)%Z by lia.
      destruct (Z.leb_spec 0 (Z.of_nat n + num)) as [_ | Hlt]; [| lia].
      destruct (Z.ltb_spec (Z.of_nat n + num) (Z.of_nat n)) as [_ | Hge]; [| lia].
      simpl. rewrite Hrow. reflexivity.
    + rewrite <- (Z2Nat.id (Z.of_nat n + num)) by lia.
      apply iloc_nth. exact Hrow.
  - apply nth_error_None in Hrow. fold n in Hrow. lia.
Qed.

Lemma negative_point_counts_back_witness :
  exists row,
    resolve_row sample_app (-1) 1 = Ok row
    /\ nth_error [sample_row "CCO" "ethanol" false 46;
                  sample_row "c1ccccc1" "benzene" false 78]
                 (Z.to_nat (Z.of_nat 2 + -1))
       = Some row
    /\ resolve_row sample_app (Z.of_nat 2 + -1) 1 = Ok row.
Proof.
  apply (negative_point_counts_back sample_app (-1) 1
           [sample_row "CCO" "ethanol" false 46;
            sample_row "c1ccccc1" "benzene" false 78]).
  - reflexivity.
  - simpl. lia.
Defined.

(** ** The colour of the title *)

Lemma build_series_colors (f : Figure) (d : DataFrame) (cc : option string)
  (cd : list (Z * string) * list (Z * Py.value)) :
  build_series f d cc = Ok cd ->
  fst cd = if Nat.eqb (List.length (data f)) 1
           then [(0%Z, "black")]
           else map (fun ix => (fst ix, marker_color (snd ix)))
                    (enumerate (data f)).
Proof.
  unfold build_series.
  destruct (Nat.eqb (List.length (data f)) 1); simpl.
  - intros H. injection H as <-. reflexivity.
  - destruct cc as [c |]; [| discriminate].
    intros H. apply bind_ok in H. destruct H as [t [_ H]].
    apply bind_ok in H. destruct H as [dd [_ H]].
    injection H as <-. reflexivity.
Qed.

Lemma trace_colour (f : Figure) (curve : Z) (color : string) :
  dict_get (map (fun ix : Z * Trace => (fst ix, marker_color (snd ix)))
                (enumerate (data f))) curve = Some color ->
  exists i tr, curve = Z.of_nat i /\ nth_error (data f) i = Some tr
               /\ color = marker_color tr.
Proof.
  intros H.
  assert (Hk : In curve (map fst (map (fun ix : Z * Trace =>
                 (fst ix, marker_color (snd ix))) (enumerate (data f)))))
    by (apply dict_get_keys; exists color; exact H).
  rewrite map_map in Hk. simpl in Hk.
  apply (enumerate_from_keys (data f) 0 curve) in Hk.
  exists (Z.to_nat curve).
  assert (Hc : curve = Z.of_nat (Z.to_nat curve)) by lia.
  rewrite Hc in H.
  rewrite (dict_get_enumerate (fun ix : Z * Trace => marker_color (snd ix)))
    in H.
  destruct (nth_error (data f) (Z.to_nat curve)) as [tr |]; [| discriminate].
  exists tr. simpl in H. injection H as <-.
  split; [exact Hc |]. split; reflexivity.
Qed.

(** X8. The colour of the title.  When a title column is configured, every
    hover box has a title block; its colour is black in a chart of one
    series, where only series 0 can be hovered, and in a chart of several
    series it is the marker colour of the hovered trace. *)
Theorem title_takes_trace_colour (rdkit : Drawing) (f : Figure)
  (d : DataFrame) (o : Options) (app : App) (tc : string) (pt : Point)
  (rest : list Point) (value : menu_value) (shown : bool) (box : output BBox)
  (children : output (list container)) :
  add_molecules rdkit f d o = Ok app ->
  title_col o = Some tc ->
  display_hover app (Some (pt :: rest)) value = Ok (shown, box, children) ->
  exists colour images text others style,
    children
    = update [Div (images
                   ++ H2 text [("color", VStr colour);
                               ("font-family", VStr (fontfamily o));
                               ("fontSize", VInt (fontsize o + 2))]
                   :: others) style]
    /\ (List.length (data f) = 1%nat ->
        curveNumber pt = 0%Z /\ colour = "black")
    /\ (List.length (data f) <> 1%nat ->
        exists i tr, curveNumber pt = Z.of_nat i
                     /\ nth_error (data f) i = Some tr
                     /\ colour = marker_color tr).
Proof.
  intros Hsetup Htc H.
  destruct (add_molecules_inv _ _ _ _ _ Hsetup) as [dd [cd [_ [Hcd Happ]]]].
  apply build_series_colors in Hcd.
  rewrite display_hover_point in H.
  apply bind_ok in H. destruct H as [row [_ H]].
  apply bind_ok in H. destruct H as [images [_ H]].
  apply bind_ok in H. destruct H as [title [Htitle H]].
  apply bind_ok in H. destruct H as [captions [_ H]].
  injection H as <- <- <-.
  unfold title_block in Htitle. subst app. cbn [options colors] in Htitle.
  rewrite Htc in Htitle.
  apply bind_ok in Htitle. destruct Htitle as [cell [_ Htitle]].
  apply bind_ok in Htitle. destruct Htitle as [text [_ Htitle]].
  destruct (dict_get (fst cd) (curveNumber pt)) as [colour |] eqn:Hcol;
    [| discriminate].
  injection Htitle as <-.
  exists colour, images, text. eexists. eexists.
  split; [reflexivity |].
  rewrite Hcd in Hcol. split.
  - intros H1. rewrite H1 in Hcol. simpl in Hcol.
    destruct (curveNumber pt); try discriminate Hcol.
    injection Hcol as <-. split; reflexivity.
  - intros Hn.
    destruct (Nat.eqb_spec (List.length (data f)) 1) as [E | _];
      [contradiction |].
    apply trace_colour. exact Hcol.
Qed.

Lemma title_takes_trace_colour_witness :
  exists colour images text others style,
    update
      [Div
         [Img (VStr "data:image/svg+xml;base64,<svg>CCO</svg>")
            [("width", VStr "100%");
             ("background-color", VStr "rgba(255,255,255,0.7)")];
          H2 "ethanol"
            [("color", VStr "#EF553B"); ("font-family", VStr "Arial");
             ("fontSize", VInt 14)];
          P "logp: 2" (caption_style sample_options);
          P "mw : 46 Da" (caption_style sample_options);
          P "mw : 46 Da" (caption_style sample_options)]
         [("width", VStr "150px"); ("white-space", VStr "normal")]]
    = update [Div (images
                   ++ H2 text [("color", VStr colour);
                               ("font-family", VStr (fontfamily sample_options));
                               ("fontSize", VInt (fontsize sample_options + 2))]
                   :: others) style]
    /\ (List.length (data two_series) = 1%nat ->
        curveNumber (sample_point 1 0) = 0%Z /\ colour = "black")
    /\ (List.length (data two_series) <> 1%nat ->
        exists i tr, curveNumber (sample_point 1 0) = Z.of_nat i
                     /\ nth_error (data two_series) i = Some tr
                     /\ colour = marker_color tr).
Proof.
  apply (title_takes_trace_colour sample_drawing two_series sample_df
           sample_options sample_app "name" (sample_point 1 0) []
           (MenuStr "SMILES") true
           (update {| x0 := 10; x1 := 14; y0 := 20; y1 := 24 |})).
  - vm_compute. reflexivity.
  - reflexivity.
  - vm_compute. reflexivity.
Defined.

(** ** Missing caption columns *)

Lemma caption_list_missing (o : Options) (row : Series) :
  forall (captions : list string) (c : string),
    In c captions -> series_find c row = None ->
    exists c', In c' captions /\ series_find c' row = None
               /\ caption_list o row captions = Raise (KeyError c').
Proof.
  induction captions as [| a captions IH]; intros c Hin Hc; [contradiction |].
  simpl. unfold getitem.
  destruct (series_find a row) as [v |] eqn:Ha.
  - destruct Hin as [-> | Hin]; [congruence |].
    destruct (IH c Hin Hc) as [c' [Hc' [Hm Hs]]].
    exists c'. split; [right; exact Hc' |]. split; [exact Hm |].
    simpl. rewrite Hs. reflexivity.
  - exists a. split; [left; reflexivity |]. split; [exact Ha | reflexivity].
Qed.

(** X9. A caption column that the hovered row does not have makes the hover
    fail: no box is returned, and when the image and title blocks are built
    the error is a KeyError naming a missing caption column. *)
Theorem caption_column_must_exist (app : App) (pt : Point)
  (rest : list Point) (value : menu_value) (row : Series)
  (captions : list string) (c : string) :
  caption_cols (options app) = Some captions ->
  resolve_row app (pointNumber pt) (curveNumber pt) = Ok row ->
  In c captions ->
  series_find c row = None ->
  exists e,
    display_hover app (Some (pt :: rest)) value = Raise e
    /\ (forall images title,
          (if show_img (options app)
           then image_blocks app row value (smiles_cols app)
           else Ok []) = Ok images ->
          title_block app row (curveNumber pt) = Ok title ->
          exists c', In c' captions /\ series_find c' row = None
                     /\ e = KeyError c').
Proof.
  intros Hcaps Hrow Hin Hc.
  destruct (caption_list_missing (options app) row captions c Hin Hc)
    as [c' [Hc' [Hm Hs]]].
  rewrite display_hover_point, Hrow. simpl bind.
  unfold caption_blocks. rewrite Hcaps, Hs.
  destruct (if show_img (options app)
            then image_blocks app row value (smiles_cols app)
            else Ok []) as [images | e1].
  - simpl bind.
    destruct (title_block app row (curveNumber pt)) as [title | e2].
    + simpl bind. eexists. split; [reflexivity |].
      intros _ _ _ _. exists c'. split; [exact Hc' |].
      split; [exact Hm | reflexivity].
    + simpl bind. eexists. split; [reflexivity |].
      intros _ title _ Habs. discriminate Habs.
  - simpl bind. eexists. split; [reflexivity |].
    intros images title Habs. discriminate Habs.
Qed.

Lemma caption_column_must_exist_witness :
  exists e,
    display_hover (sample_app_with (bare_options None (Some ["mw"; "logp"])))
      (Some [sample_point 1 0]) (MenuStr "SMILES") = Raise e
    /\ (forall images title,
          (if show_img (bare_options None (Some ["mw"; "logp"]))
           then image_blocks
                  (sample_app_with (bare_options None (Some ["mw"; "logp"])))
                  (sample_row "CCO" "ethanol" false 46) (MenuStr "SMILES")
                  ["SMILES"]
           else Ok []) = Ok images ->
          title_block (sample_app_with (bare_options None (Some ["mw"; "logp"])))
            (sample_row "CCO" "ethanol" false 46) 1 = Ok title ->
          exists c', In c' ["mw"; "logp"]
                     /\ series_find c' (sample_row "CCO" "ethanol" false 46)
                        = None
                     /\ e = KeyError c').
Proof.
  apply (caption_column_must_exist
           (sample_app_with (bare_options None (Some ["mw"; "logp"])))
           (sample_point 1 0) [] (MenuStr "SMILES")
           (sample_row "CCO" "ethanol" false 46) ["mw"; "logp"] "logp").
  - reflexivity.
  - reflexivity.
  - right. left. reflexivity.
  - reflexivity.
Defined.

(** ** The order of the points of a series *)

Lemma iloc_ok_nth {A : Type} (l : list A) (i : nat) (a : A) :
  iloc l (Z.of_nat i) = Ok a -> nth_error l i = Some a.
Proof.
  unfold iloc.
  destruct (Z.ltb_spec (Z.of_nat i) 0) as [Hlt | _]; [lia |].
  destruct ((0 <=? Z.of_nat i)%Z && (Z.of_nat i <? Z.of_nat (List.length l))%Z);
    [| discriminate].
  rewrite Nat2Z.id.
  destruct (nth_error l i) as [b |]; [| discriminate].
  intros H. injection H as <-. reflexivity.
Qed.

Lemma filter_firstn_le {A : Type} (p : A -> bool) (l : list A) :
  forall (k1 k2 : nat),
    (k1 <= k2)%nat ->
    (List.length (filter p (firstn k1 l))
     <= List.length (filter p (firstn k2 l)))%nat.
Proof.
  induction l as [| a l IH]; intros k1 k2 Hle.
  - rewrite !firstn_nil. simpl. lia.
  - destruct k1 as [| k1]; [simpl; lia |].
    destruct k2 as [| k2]; [lia |].
    simpl. specialize (IH k1 k2 ltac:(lia)).
    destruct (p a); simpl; lia.
Qed.

(** X12. Within one series the point numbers follow the order of the data
    frame: two points of the same series with numbers [i < j] stand for two
    rows of the frame at positions [ki < kj], each preceded by exactly as
    many rows of the group as its point number says. *)
Theorem series_points_keep_frame_order (app : App) (c : string)
  (group : Py.value) (curve : Z) (i j : nat) (ri rj : Series) :
  List.length (data (fig app)) <> 1%nat ->
  color_col (options app) = Some c ->
  dict_get (curve_dict app) curve = Some group ->
  resolve_row app (Z.of_nat i) curve = Ok ri ->
  resolve_row app (Z.of_nat j) curve = Ok rj ->
  (i < j)%nat ->
  exists ki kj li lj,
    nth_error (rows (df app)) ki = Some (li, ri)
    /\ nth_error (rows (df app)) kj = Some (lj, rj)
    /\ (ki < kj)%nat
    /\ matches_before c group (df app) ki = i
    /\ matches_before c group (df app) kj = j.
Proof.
  intros Hn Hc Hg Hi Hj Hij.
  assert (Hpos : forall n r,
            resolve_row app (Z.of_nat n) curve = Ok r ->
            exists k l, nth_error (rows (df app)) k = Some (l, r)
                        /\ matches_before c group (df app) k = n).
  { intros n r H. unfold resolve_row in H.
    destruct (Nat.eqb_spec (List.length (data (fig app))) 1) as [E | _];
      [contradiction |].
    simpl negb in H. cbv iota in H. rewrite Hc in H.
    apply bind_ok in H. destruct H as [t [_ H]]. rewrite Hg in H.
    apply iloc_ok_nth in H. unfold where_eq in H.
    rewrite nth_error_map in H.
    destruct (nth_error (filter (fun ir => cell_is c group (snd ir))
                                (rows (df app))) n) as [[l r'] |] eqn:Hf;
      [| discriminate].
    simpl in H. injection H as ->.
    destruct (nth_error_filter _ _ _ _ Hf) as [k [Hk [_ Hm]]].
    exists k, l. split; [exact Hk | exact Hm]. }
  destruct (Hpos i ri Hi) as [ki [li [Hki Hmi]]].
  destruct (Hpos j rj Hj) as [kj [lj [Hkj Hmj]]].
  exists ki, kj, li, lj. repeat (split; [assumption |]).
  split; [| split; assumption].
  destruct (Nat.lt_ge_cases ki kj) as [Hlt | Hge]; [exact Hlt |].
  pose proof (filter_firstn_le (fun ir : Z * Series => cell_is c group (snd ir))
                (rows (df app)) kj ki Hge) as Hmono.
  unfold matches_before in Hmi, Hmj. lia.
Qed.

Lemma series_points_keep_frame_order_witness :
  exists ki kj li lj,
    nth_error (rows (df sample_app)) ki
    = Some (li, sample_row "CCO" "ethanol" false 46)
    /\ nth_error (rows (df sample_app)) kj
       = Some (lj, sample_row "c1ccccc1" "benzene" false 78)
    /\ (ki < kj)%nat
    /\ matches_before "active" (VBool false) (df sample_app) ki = 0%nat
    /\ matches_before "active" (VBool false) (df sample_app) kj = 1%nat.
Proof.
  apply (series_points_keep_frame_order sample_app "active" (VBool false) 1
           0 1).
  - simpl. discriminate.
  - reflexivity.
  - reflexivity.
  - reflexivity.
  - reflexivity.
  - lia.
Defined.

(** ** A wrap length that is not positive *)

(** X13. A wrap length of zero or less.  Every title longer than the wrap
    length (any title at all when it is negative) then fails to wrap:
    [textwrap.fill] rejects the width with a ValueError.  With wrapping off
    a negative wrap length makes the slice count from the end: the title
    loses its last characters, as many as the wrap length is below zero,
    before the dots are added. *)
Theorem nonpositive_wraplen (o : Options) (s : string) :
  (wraplen o <= 0)%Z ->
  (wraplen o < Z.of_nat (String.length s))%Z ->
  (wrap o = true ->
   exists msg, title_text o (VStr s) = Raise (ValueError msg))
  /\ (wrap o = false ->
      (wraplen o < 0)%Z ->
      exists text,
        title_text o (VStr s) = Ok text
        /\ text = (substring 0 (Z.to_nat (Z.of_nat (String.length s)
                                          + wraplen o)) s ++ "...")%string
        /\ Z.of_nat (String.length text)
           = (Z.max 0 (Z.of_nat (String.length s) + wraplen o) + 3)%Z).
Proof.
  intros Hw Hlen. rewrite title_text_str.
  destruct (Z.ltb_spec (wraplen o) (Z.of_nat (String.length s))) as [_ | Hge];
    [| lia].
  split.
  - intros ->. unfold textwrap.fill, textwrap.wrap, textwrap._wrap_chunks.
    destruct (Z.leb_spec (wraplen o) 0) as [_ | Hgt]; [| lia].
    eexists. reflexivity.
  - intros -> Hneg. eexists. split; [reflexivity |].
    unfold slice_to.
    destruct (Z.ltb_spec (wraplen o) 0) as [_ | Hnn]; [| lia].
    split.
    + rewrite firstn_string_substring. reflexivity.
    + rewrite string_length_append, firstn_string_length by lia.
      simpl String.length. lia.
Qed.

Lemma nonpositive_wraplen_witness :
  (true = true ->
   exists msg,
     title_text
       {| smiles_col := One "SMILES"; show_img := true; svg_size := 200;
          alpha := "0.75"; img_alpha := "0.7"; title_col := Some "name";
          show_coords := true; caption_cols := None;
          caption_transform := fun _ => None; color_col := None;
          wrap := true; wraplen := -2; width := 150;
          fontfamily := "Arial"; fontsize := 12 |} (VStr "ethanol")
     = Raise (ValueError msg))
  /\ (true = false ->
      (-2 < 0)%Z ->
      exists text,
        title_text
          {| smiles_col := One "SMILES"; show_img := true; svg_size := 200;
             alpha := "0.75"; img_alpha := "0.7"; title_col := Some "name";
             show_coords := true; caption_cols := None;
             caption_transform := fun _ => None; color_col := None;
             wrap := true; wraplen := -2; width := 150;
             fontfamily := "Arial"; fontsize := 12 |} (VStr "ethanol")
        = Ok text
        /\ text = (substring 0 (Z.to_nat (Z.of_nat (String.length "ethanol")
                                          + -2)) "ethanol" ++ "...")%string
        /\ Z.of_nat (String.length text)
           = (Z.max 0 (Z.of_nat (String.length "ethanol") + -2) + 3)%Z).
Proof.
  apply (nonpositive_wraplen
           {| smiles_col := One "SMILES"; show_img := true; svg_size := 200;
              alpha := "0.75"; img_alpha := "0.7"; title_col := Some "name";
              show_coords := true; caption_cols := None;
              caption_transform := fun _ => None; color_col := None;
              wrap := true; wraplen := -2; width := 150;
              fontfamily := "Arial"; fontsize := 12 |} "ethanol").
  - simpl. lia.
  - simpl. lia.
Defined.

(** ** The shape of the image cache *)

(** X14. The image cache has the rows of the data frame: the same labels in
    the same order.  It keeps every structure column, and once the frame has
    a row it has an image column beside each of them. *)
Theorem image_cache_shape (rdkit : Drawing) (f : Figure) (d : DataFrame)
  (o : Options) (app : App) :
  add_molecules rdkit f d o = Ok app ->
  map fst (rows (df_data app)) = map fst (rows d)
  /\ (forall col, In col (smiles_cols app) ->
        (exists t, find_dtype col (columns d) = Some t)
        /\ (exists t, find_dtype col (columns (df_data app)) = Some t)
        /\ (rows d <> [] ->
            exists t, find_dtype (col ++ "_img")%string
                        (columns (df_data app)) = Some t)).
Proof.
  intros Hsetup.
  destruct (add_molecules_inv _ _ _ _ _ Hsetup) as [dd [cd [Hdd [_ Happ]]]].
  subst app. cbn [smiles_cols df_data].
  set (cols := match smiles_col o with One s => [s] | Many l => l end) in *.
  unfold build_images in Hdd.
  apply bind_ok in Hdd. destruct Hdd as [sel [Hsel Hdraw]].
  unfold select in Hsel.
  apply bind_ok in Hsel. destruct Hsel as [ts [Hts Hsel]].
  injection Hsel as <-. cbn [rows] in Hdraw.
  pose proof (draw_rows_rows _ _ _ _ _ _ Hdraw) as Hrows.
  destruct (draw_rows_columns _ _ _ _ _ _ Hdraw) as [Hkeep Himg].
  cbn [rows columns] in Hrows, Hkeep, Himg.
  split.
  - rewrite Hrows, !map_map. reflexivity.
  - intros col Hcol.
    destruct (select_dtypes_has _ _ _ Hts col Hcol) as [t Ht].
    split; [| split].
    + clear - Hts Hcol. revert ts Hts.
      induction cols as [| a cols IH]; intros ts Hts; [contradiction |].
      simpl in Hts. apply bind_ok in Hts. destruct Hts as [t [Ht Hts]].
      apply bind_ok in Hts. destruct Hts as [ts' [Hts' _]].
      destruct Hcol as [<- | Hcol].
      * unfold column_dtype in Ht.
        destruct (find_dtype a (columns d)) as [t' |]; [| discriminate].
        exists t'. reflexivity.
      * apply (IH Hcol ts' Hts').
    + exists t. apply Hkeep. exact Ht.
    + intros Hne. apply Himg; [| exact Hcol].
      destruct (rows d); [contradiction | discriminate].
Qed.

Lemma image_cache_shape_witness :
  map fst (rows (df_data sample_app)) = map fst (rows sample_df)
  /\ (forall col, In col (smiles_cols sample_app) ->
        (exists t, find_dtype col (columns sample_df) = Some t)
        /\ (exists t, find_dtype col (columns (df_data sample_app)) = Some t)
        /\ (rows sample_df <> [] ->
            exists t, find_dtype (col ++ "_img")%string
                        (columns (df_data sample_app)) = Some t)).
Proof.
  apply (image_cache_shape sample_drawing two_series sample_df sample_options
           sample_app).
  vm_compute. reflexivity.
Defined.

(* ================================================================== *)
(** * Properties of the static export *)

Import unicode static.

(** ** UTF-8 *)

(** Arithmetic with quotients and remainders by constants. *)
Ltac euclid := zify; Z.to_euclidean_division_equations; lia.

Lemma byte_of_to_N (b : Byte.byte) : byte_of (Byte.to_N b) = b.
Proof. unfold byte_of. rewrite Byte.of_to_N. reflexivity. Qed.

Lemma to_N_byte_of (n : N) : (n <= 255)%N -> Byte.to_N (byte_of n) = n.
Proof.
  intros H. unfold byte_of.
  destruct (Byte.of_N n) as [b |] eqn:E.
  - apply Byte.to_of_N. exact E.
  - apply Byte.of_N_None_iff in E. lia.
Qed.

Lemma between_spec (lo hi : N) (b : Byte.byte) :
  between lo hi b = true <-> (lo <= Byte.to_N b <= hi)%N.
Proof.
  unfold between. rewrite andb_true_iff, !N.leb_le. tauto.
Qed.

(** The encoder on the first bytes the decoder accepts. *)
Lemma encode_point_1 (a : N) :
  (a < 0x80)%N -> encode_point a = Some [byte_of a].
Proof.
  intros H. unfold encode_point.
  destruct (N.ltb_spec a 0x80); [reflexivity | lia].
Qed.

Lemma encode_point_2 (a b : N) :
  (0xC2 <= a <= 0xDF)%N -> (0x80 <= b <= 0xBF)%N ->
  encode_point ((a - 0xC0) * 64 + (b - 0x80)) = Some [byte_of a; byte_of b].
Proof.
  intros Ha Hb. unfold encode_point.
  set (c := ((a - 0xC0) * 64 + (b - 0x80))%N).
  assert (Hc : (0x80 <= c < 0x800)%N) by (unfold c; lia).
  destruct (N.ltb_spec c 0x80); [lia |].
  destruct (N.ltb_spec c 0x800); [| lia].
  replace (0xC0 + c / 64)%N with a by (unfold c; euclid).
  replace (0x80 + c mod 64)%N with b by (unfold c; euclid).
  reflexivity.
Qed.

Lemma encode_point_3 (a b d : N) :
  (0xE0 <= a <= 0xEF)%N ->
  ((if (a =? 0xE0)%N then 0xA0 else 0x80) <= b
   <= (if (a =? 0xED)%N then 0x9F else 0xBF))%N ->
  (0x80 <= d <= 0xBF)%N ->
  encode_point ((a - 0xE0) * 4096 + (b - 0x80) * 64 + (d - 0x80))
  = Some [byte_of a; byte_of b; byte_of d].
Proof.
  intros Ha Hb Hd. unfold encode_point.
  set (c := ((a - 0xE0) * 4096 + (b - 0x80) * 64 + (d - 0x80))%N).
  assert (Hb' : (0x80 <= b <= 0xBF)%N).
  { destruct (a =? 0xE0)%N, (a =? 0xED)%N; lia. }
  assert (Hc : (0x800 <= c < 0x10000)%N).
  { unfold c. destruct (N.eqb_spec a 0xE0); lia. }
  assert (Hs : ~ (0xD800 <= c <= 0xDFFF)%N).
  { unfold c. destruct (N.eqb_spec a 0xED); lia. }
  destruct (N.ltb_spec c 0x80); [lia |].
  destruct (N.ltb_spec c 0x800); [lia |].
  destruct (N.ltb_spec c 0x10000); [| lia].
  destruct (N.leb_spec 0xD800 c); destruct (N.leb_spec c 0xDFFF);
    simpl andb; cbv iota; try lia.
  all: replace (0xE0 + c / 4096)%N with a by (unfold c; euclid).
  all: replace (0x80 + (c / 64) mod 64)%N with b by (unfold c; euclid).
  all: replace (0x80 + c mod 64)%N with d by (unfold c; euclid).
  all: reflexivity.
Qed.

Lemma encode_point_4 (a b d e : N) :
  (0xF0 <= a <= 0xF4)%N ->
  ((if (a =? 0xF0)%N then 0x90 else 0x80) <= b
   <= (if (a =? 0xF4)%N then 0x8F else 0xBF))%N ->
  (0x80 <= d <= 0xBF)%N ->
  (0x80 <= e <= 0xBF)%N ->
  encode_point ((a - 0xF0) * 262144 + (b - 0x80) * 4096 + (d - 0x80) * 64
                + (e - 0x80))
  = Some [byte_of a; byte_of b; byte_of d; byte_of e].
Proof.
  intros Ha Hb Hd He. unfold encode_point.
  set (c := ((a - 0xF0) * 262144 + (b - 0x80) * 4096 + (d - 0x80) * 64
             + (e - 0x80))%N).
  assert (Hb' : (0x80 <= b <= 0xBF)%N).
  { destruct (a =? 0xF0)%N, (a =? 0xF4)%N; lia. }
  assert (Hc : (0x10000 <= c < 0x110000)%N).
  { unfold c. destruct (N.eqb_spec a 0xF0); destruct (N.eqb_spec a 0xF4); lia. }
  destruct (N.ltb_spec c 0x80); [lia |].
  destruct (N.ltb_spec c 0x800); [lia |].
  destruct (N.ltb_spec c 0x10000); [lia |].
  destruct (N.ltb_spec c 0x110000); [| lia].
  replace (0xF0 + c / 262144)%N with a by (unfold c; euclid).
  replace (0x80 + (c / 4096) mod 64)%N with b by (unfold c; euclid).
  replace (0x80 + (c / 64) mod 64)%N with d by (unfold c; euclid).
  replace (0x80 + c mod 64)%N with e by (unfold c; euclid).
  reflexivity.
Qed.

Lemma decode_step (b0 : Byte.byte) (r0 : bytes) :
  decode (b0 :: r0)
  = let n0 := Byte.to_N b0 in
    if (n0 <? 0x80)%N
    then option_map (cons n0) (decode r0)
    else if between 0xC2 0xDF b0
    then match r0 with
         | b1 :: r1 =>
             if between 0x80 0xBF b1
             then option_map (cons ((n0 - 0xC0) * 64 + low6 b1)%N) (decode r1)
             else None
         | _ => None
         end
    else if between 0xE0 0xEF b0
    then match r0 with
         | b1 :: b2 :: r2 =>
             if between (if (n0 =? 0xE0)%N then 0xA0 else 0x80)
                        (if (n0 =? 0xED)%N then 0x9F else 0xBF) b1
                && between 0x80 0xBF b2
             then option_map
                    (cons ((n0 - 0xE0) * 4096 + low6 b1 * 64 + low6 b2)%N)
                    (decode r2)
             else None
         | _ => None
         end
    else if between 0xF0 0xF4 b0
    then match r0 with
         | b1 :: b2 :: b3 :: r3 =>
             if between (if (n0 =? 0xF0)%N then 0x90 else 0x80)
                        (if (n0 =? 0xF4)%N then 0x8F else 0xBF) b1
                && between 0x80 0xBF b2 && between 0x80 0xBF b3
             then option_map
                    (cons ((n0 - 0xF0) * 262144 + low6 b1 * 4096
                           + low6 b2 * 64 + low6 b3)%N)
                    (decode r3)
             else None
         | _ => None
         end
    else None.
Proof. reflexivity. Qed.

(** One step of the decoder: the first code point, its bytes and what is
    left. *)
Lemma decode_inv (b : bytes) (c : N) (s : ustr) :
  decode b = Some (c :: s) ->
  exists first rest,
    b = first ++ rest /\ first <> [] /\ encode_point c = Some first
    /\ decode rest = Some s.
Proof.
  destruct b as [| b0 r0]; [discriminate |].
  rewrite decode_step. cbv zeta.
  destruct (N.ltb_spec (Byte.to_N b0) 0x80) as [H1 | H1].
  { destruct (decode r0) as [s' |] eqn:E; [| discriminate].
    intros H. injection H as <- <-.
    exists [b0], r0. repeat split; [discriminate | | exact E].
    rewrite encode_point_1 by exact H1. rewrite byte_of_to_N. reflexivity. }
  destruct (between 0xC2 0xDF b0) eqn:H2.
  { apply between_spec in H2.
    destruct r0 as [| b1 r1]; [discriminate |].
    destruct (between 0x80 0xBF b1) eqn:B1; [| discriminate].
    apply between_spec in B1.
    destruct (decode r1) as [s' |] eqn:E; [| discriminate].
    intros H. injection H as <- <-.
    exists [b0; b1], r1. repeat split; [discriminate | | exact E].
    unfold low6. rewrite encode_point_2 by assumption.
    rewrite !byte_of_to_N. reflexivity. }
  destruct (between 0xE0 0xEF b0) eqn:H3.
  { apply between_spec in H3.
    destruct r0 as [| b1 [| b2 r2]]; [discriminate | discriminate |].
    destruct (between _ _ b1) eqn:B1; [| discriminate].
    destruct (between 0x80 0xBF b2) eqn:B2; [| discriminate].
    apply between_spec in B1, B2. simpl andb. cbv iota.
    destruct (decode r2) as [s' |] eqn:E; [| discriminate].
    intros H. injection H as <- <-.
    exists [b0; b1; b2], r2. repeat split; [discriminate | | exact E].
    unfold low6. rewrite encode_point_3 by assumption.
    rewrite !byte_of_to_N. reflexivity. }
  destruct (between 0xF0 0xF4 b0) eqn:H4; [| discriminate].
  apply between_spec in H4.
  destruct r0 as [| b1 [| b2 [| b3 r3]]]; try discriminate.
  destruct (between _ _ b1) eqn:B1; [| discriminate].
  destruct (between 0x80 0xBF b2) eqn:B2; [| discriminate].
  destruct (between 0x80 0xBF b3) eqn:B3; [| discriminate].
  apply between_spec in B1, B2, B3. simpl andb. cbv iota.
  destruct (decode r3) as [s' |] eqn:E; [| discriminate].
  intros H. injection H as <- <-.
  exists [b0; b1; b2; b3], r3. repeat split; [discriminate | | exact E].
  unfold low6. rewrite encode_point_4 by assumption.
  rewrite !byte_of_to_N. reflexivity.
Qed.

Lemma decode_nil_inv (b : bytes) : decode b = Some [] -> b = [].
Proof.
  destruct b as [| b0 r0]; [reflexivity |].
  rewrite decode_step. cbv zeta.
  destruct (Byte.to_N b0 <? 0x80)%N.
  { destruct (decode r0); discriminate. }
  destruct (between 0xC2 0xDF b0).
  { destruct r0 as [| b1 r1]; [discriminate |].
    destruct (between 0x80 0xBF b1); [| discriminate].
    destruct (decode r1); discriminate. }
  destruct (between 0xE0 0xEF b0).
  { destruct r0 as [| b1 [| b2 r2]]; try discriminate.
    destruct (_ && _); [| discriminate].
    destruct (decode r2); discriminate. }
  destruct (between 0xF0 0xF4 b0); [| discriminate].
  destruct r0 as [| b1 [| b2 [| b3 r3]]]; try discriminate.
  destruct (_ && _); [| discriminate].
  destruct (decode r3); discriminate.
Qed.

(** Encoding undoes decoding: the decoder accepts only the bytes the
    encoder writes. *)
Lemma decode_encode (s : ustr) :
  forall b, decode b = Some s -> encode s = Some b.
Proof.
  induction s as [| c s IH]; intros b H.
  - apply decode_nil_inv in H. subst b. reflexivity.
  - destruct (decode_inv _ _ _ H) as [first [rest [-> [_ [Hc Hrest]]]]].
    simpl. rewrite Hc, (IH _ Hrest). reflexivity.
Qed.

Lemma encode_point_scalar (c : N) :
  scalar c = true <-> exists b, encode_point c = Some b.
Proof.
  unfold scalar, encode_point.
  destruct (N.ltb_spec c 0x80); destruct (N.ltb_spec c 0x800);
    destruct (N.ltb_spec c 0x10000); destruct (N.ltb_spec c 0x110000);
    destruct (N.ltb_spec c 0xD800); destruct (N.ltb_spec 0xDFFF c);
    destruct (N.leb_spec 0xD800 c); destruct (N.leb_spec c 0xDFFF);
    simpl; try lia;
    split; intros H'; try reflexivity; try discriminate;
    try (eexists; reflexivity); destruct H' as [b Hb]; discriminate.
Qed.

Lemma decode_scalar (s : ustr) :
  forall b, decode b = Some s -> forallb scalar s = true.
Proof.
  induction s as [| c s IH]; intros b H; [reflexivity |].
  destruct (decode_inv _ _ _ H) as [first [rest [_ [_ [Hc Hrest]]]]].
  simpl. rewrite (IH _ Hrest), andb_true_r.
  apply encode_point_scalar. exists first. exact Hc.
Qed.

Lemma encode_total (s : ustr) :
  forallb scalar s = true <-> exists b, encode s = Some b.
Proof.
  induction s as [| c s IH]; simpl.
  - split; [eexists; reflexivity | reflexivity].
  - rewrite andb_true_iff, IH, encode_point_scalar. split.
    + intros [[b Hb] [bs Hbs]]. rewrite Hb, Hbs. eexists. reflexivity.
    + destruct (encode_point c) as [b |]; [| intros [x Hx]; discriminate].
      destruct (encode s) as [bs |]; [| intros [x Hx]; discriminate].
      intros _. split; eexists; reflexivity.
Qed.

Lemma Some_inj {A : Type} (a b : A) : Some a = Some b -> a = b.
Proof. intros H. injection H as H. exact H. Qed.

(** Decoding undoes encoding. *)
Lemma decode_point (c : N) (first rest : bytes) :
  encode_point c = Some first ->
  decode (first ++ rest) = option_map (cons c) (decode rest).
Proof.
  unfold encode_point.
  destruct (N.ltb_spec c 0x80) as [H1 | H1].
  { intros H. apply Some_inj in H. subst first. cbn [app].
    rewrite decode_step. cbv zeta.
    rewrite to_N_byte_of by lia.
    destruct (N.ltb_spec c 0x80); [reflexivity | lia]. }
  destruct (N.ltb_spec c 0x800) as [H2 | H2].
  { intros H. apply Some_inj in H. subst first. cbn [app].
    rewrite decode_step. cbv zeta.
    unfold between, low6. rewrite !to_N_byte_of by euclid.
    destruct (N.ltb_spec (0xC0 + c / 64) 0x80); [euclid |].
    destruct (N.leb_spec 0xC2 (0xC0 + c / 64)); [| euclid].
    destruct (N.leb_spec (0xC0 + c / 64) 0xDF); [| euclid].
    destruct (N.leb_spec 0x80 (0x80 + c mod 64)); [| euclid].
    destruct (N.leb_spec (0x80 + c mod 64) 0xBF); [| euclid].
    cbn [andb]. cbv iota.
    replace ((0xC0 + c / 64 - 0xC0) * 64 + (0x80 + c mod 64 - 0x80))%N
      with c by euclid.
    reflexivity. }
  destruct (N.ltb_spec c 0x10000) as [H3 | H3].
  { destruct (N.leb_spec 0xD800 c) as [S1 | S1];
      destruct (N.leb_spec c 0xDFFF) as [S2 | S2]; cbn [andb]; cbv iota;
      try discriminate.
    all: intros H; apply Some_inj in H; subst first; cbn [app];
      rewrite decode_step; cbv zeta.
    all: unfold between, low6; rewrite !to_N_byte_of by euclid.
    all: destruct (N.ltb_spec (0xE0 + c / 4096) 0x80); [euclid |].
    all: destruct (N.leb_spec 0xC2 (0xE0 + c / 4096)); [| euclid].
    all: destruct (N.leb_spec (0xE0 + c / 4096) 0xDF); [euclid |].
    all: destruct (N.leb_spec 0xE0 (0xE0 + c / 4096)); [| euclid].
    all: destruct (N.leb_spec (0xE0 + c / 4096) 0xEF); [| euclid].
    all: cbn [andb]; cbv iota.
    all: destruct (N.eqb_spec (0xE0 + c / 4096) 0xE0);
      destruct (N.eqb_spec (0xE0 + c / 4096) 0xED).
    all: try (exfalso; euclid).
    all: match goal with
         | |- context [(?lo <=? 0x80 + (?x / 64) mod 64)%N] =>
             destruct (N.leb_spec lo (0x80 + (x / 64) mod 64)); [| euclid]
         end.
    all: match goal with
         | |- context [(0x80 + (?x / 64) mod 64 <=? ?hi)%N] =>
             destruct (N.leb_spec (0x80 + (x / 64) mod 64) hi); [| euclid]
         end.
    all: destruct (N.leb_spec 0x80 (0x80 + c mod 64)); [| euclid].
    all: destruct (N.leb_spec (0x80 + c mod 64) 0xBF); [| euclid].
    all: cbn [andb]; cbv iota.
    all: replace ((0xE0 + c / 4096 - 0xE0) * 4096
                  + (0x80 + (c / 64) mod 64 - 0x80) * 64
                  + (0x80 + c mod 64 - 0x80))%N with c by euclid.
    all: reflexivity. }
  destruct (N.ltb_spec c 0x110000) as [H4 | H4]; [| discriminate].
  intros H; apply Some_inj in H; subst first; cbn [app];
    rewrite decode_step; cbv zeta.
  unfold between, low6; rewrite !to_N_byte_of by euclid.
  destruct (N.ltb_spec (0xF0 + c / 262144) 0x80); [euclid |].
  destruct (N.leb_spec 0xC2 (0xF0 + c / 262144)); [| euclid].
  destruct (N.leb_spec (0xF0 + c / 262144) 0xDF); [euclid |].
  destruct (N.leb_spec 0xE0 (0xF0 + c / 262144)); [| euclid].
  destruct (N.leb_spec (0xF0 + c / 262144) 0xEF); [euclid |].
  destruct (N.leb_spec 0xF0 (0xF0 + c / 262144)); [| euclid].
  destruct (N.leb_spec (0xF0 + c / 262144) 0xF4); [| euclid].
  cbn [andb]; cbv iota.
  destruct (N.eqb_spec (0xF0 + c / 262144) 0xF0);
    destruct (N.eqb_spec (0xF0 + c / 262144) 0xF4).
  all: try (exfalso; euclid).
  all: match goal with
       | |- context [(?lo <=? 0x80 + (?x / 4096) mod 64)%N] =>
           destruct (N.leb_spec lo (0x80 + (x / 4096) mod 64)); [| euclid]
       end.
  all: match goal with
       | |- context [(0x80 + (?x / 4096) mod 64 <=? ?hi)%N] =>
           destruct (N.leb_spec (0x80 + (x / 4096) mod 64) hi); [| euclid]
       end.
  all: destruct (N.leb_spec 0x80 (0x80 + (c / 64) mod 64)); [| euclid].
  all: destruct (N.leb_spec (0x80 + (c / 64) mod 64) 0xBF); [| euclid].
  all: destruct (N.leb_spec 0x80 (0x80 + c mod 64)); [| euclid].
  all: destruct (N.leb_spec (0x80 + c mod 64) 0xBF); [| euclid].
  all: cbn [andb]; cbv iota.
  all: replace ((0xF0 + c / 262144 - 0xF0) * 262144
                + (0x80 + (c / 4096) mod 64 - 0x80) * 4096
                + (0x80 + (c / 64) mod 64 - 0x80) * 64
                + (0x80 + c mod 64 - 0x80))%N with c by euclid.
  all: reflexivity.
Qed.

Lemma encode_decode (s : ustr) :
  forall b, encode s = Some b -> decode b = Some s.
Proof.
  induction s as [| c s IH]; intros b H.
  - injection H as <-. reflexivity.
  - simpl in H.
    destruct (encode_point c) as [first |] eqn:Hc; [| discriminate].
    destruct (encode s) as [rest |] eqn:Hs; [| discriminate].
    injection H as <-.
    rewrite (decode_point _ _ _ Hc), (IH _ eq_refl). reflexivity.
Qed.

(** ** Text operations *)

Lemma ustr_eqb_spec (a : ustr) : forall b, eqb a b = true <-> a = b.
Proof.
  induction a as [| x a IH]; intros [| y b]; simpl;
    try (split; [discriminate | discriminate]); [tauto |].
  rewrite andb_true_iff, N.eqb_eq, IH. split.
  - intros [-> ->]. reflexivity.
  - intros H. injection H as -> ->. split; reflexivity.
Qed.

Lemma u_scalar (s : string) : forallb scalar (u s) = true.
Proof.
  unfold u. apply forallb_forall. intros c Hc.
  apply in_map_iff in Hc. destruct Hc as [a [<- _]].
  pose proof (N_ascii_bounded a) as Hb. unfold scalar.
  destruct (N.ltb_spec (N_of_ascii a) 0xD800); [reflexivity | lia].
Qed.

Lemma join_scalar (sep : ustr) (items : list ustr) :
  forallb scalar sep = true ->
  Forall (fun i => forallb scalar i = true) items ->
  forallb scalar (join sep items) = true.
Proof.
  intros Hsep H. induction H as [| x items Hx Hitems IH]; [reflexivity |].
  simpl. destruct items as [| y items]; [exact Hx |].
  rewrite !forallb_app, Hx, Hsep, IH. reflexivity.
Qed.

Lemma lines_scalar (l : list string) : forallb scalar (lines l) = true.
Proof.
  unfold lines. apply join_scalar; [reflexivity |].
  apply Forall_forall. intros i Hi.
  apply in_map_iff in Hi. destruct Hi as [s [<- _]]. apply u_scalar.
Qed.

Lemma replace_from_scalar (old new : ustr) :
  forallb scalar new = true ->
  forall (s : ustr) (skip : nat),
    forallb scalar s = true ->
    forallb scalar (replace_from old new skip s) = true.
Proof.
  intros Hnew. induction s as [| c s IH]; intros skip Hs; [reflexivity |].
  simpl in Hs. apply andb_true_iff in Hs. destruct Hs as [Hc Hs].
  cbn [replace_from]. destruct skip as [| k]; [| apply IH; exact Hs].
  destruct (startswith old (c :: s)).
  - rewrite forallb_app, Hnew. apply IH. exact Hs.
  - simpl. rewrite Hc. apply IH. exact Hs.
Qed.

Lemma replace_scalar (old new s : ustr) :
  forallb scalar new = true ->
  forallb scalar s = true ->
  forallb scalar (replace old new s) = true.
Proof.
  intros Hnew Hs. unfold replace. destruct old as [| o old].
  - rewrite forallb_app, Hnew. simpl.
    induction s as [| c s IH]; [reflexivity |].
    simpl in Hs. apply andb_true_iff in Hs. destruct Hs as [Hc Hs].
    simpl. rewrite Hc, forallb_app, Hnew. apply IH. exact Hs.
  - apply replace_from_scalar; assumption.
Qed.

(** Replacing what does not occur changes nothing. *)
Lemma replace_absent (old new s : ustr) :
  old <> [] -> contains old s = false -> replace old new s = s.
Proof.
  intros Hold. unfold replace. destruct old as [| o old]; [contradiction |].
  induction s as [| c s IH]; intros H; [reflexivity |].
  cbn [contains] in H. apply orb_false_iff in H. destruct H as [Hs Hrest].
  cbn [replace_from]. rewrite Hs, (IH Hrest). reflexivity.
Qed.

(** ** patch_file *)

Lemma extra_items_ok (extra : list (ustr * bytes)) :
  Forall (fun kv => exists text, decode (snd kv) = Some text) extra ->
  exists items,
    extra_items extra = Returns items
    /\ (Forall (fun kv => forallb scalar (fst kv) = true) extra ->
        Forall (fun i => forallb scalar i = true) items).
Proof.
  intros H. induction H as [| [k v] extra [text Hv] Hextra IH].
  - exists []. split; [reflexivity | constructor].
  - destruct IH as [items [Hitems Hsc]].
    eexists. split.
    + cbn [extra_items]. unfold decode_utf8. simpl snd in Hv. rewrite Hv.
      cbn [and_then]. rewrite Hitems. reflexivity.
    + intros Hk. inversion Hk as [| ? ? Hk1 Hk2]; subst.
      constructor; [| apply Hsc; exact Hk2].
      simpl fst in Hk1.
      rewrite !forallb_app, !u_scalar, Hk1, (decode_scalar _ _ Hv).
      reflexivity.
Qed.

Lemma extra_items_bad (extra : list (ustr * bytes)) :
  Exists (fun kv => decode (snd kv) = None) extra ->
  extra_items extra = Raises UnicodeDecodeError.
Proof.
  intros H. induction H as [[k v] extra Hv | [k v] extra Hextra IH].
  - cbn [extra_items]. unfold decode_utf8. simpl snd in Hv. rewrite Hv.
    reflexivity.
  - cbn [extra_items]. unfold decode_utf8.
    destruct (decode v); [| reflexivity].
    cbn [and_then]. rewrite IH. reflexivity.
Qed.

Lemma footer_patch_scalar (items : list ustr) :
  Forall (fun i => forallb scalar i = true) items ->
  forallb scalar (footer_patch items) = true.
Proof.
  intros H. unfold footer_patch, extra_jsons.
  rewrite !forallb_app, !lines_scalar, (join_scalar _ _ (u_scalar ",") H).
  reflexivity.
Qed.

Lemma patch_file_index (content : bytes) (extra : option (list (ustr * bytes))) :
  patch_file (u "index.html") content extra
  = (index_html_content <~ decode_utf8 content ;;
     items <~ match extra with
              | Some d => extra_items d
              | None =>
                  Raises (AttributeError
                            "'NoneType' object has no attribute 'items'")
              end ;;
     encode_utf8
       (replace (u "src=" ++ quote ++ u "/") (u "src=" ++ quote)
          (replace (u "href=" ++ quote ++ u "/") (u "href=" ++ quote)
             (replace (u "<footer>") (footer_patch items)
                      index_html_content)))).
Proof. reflexivity. Qed.

(** What the patch returns for the index page is valid UTF-8. *)
Lemma patch_index_returns (content : bytes) (extra : list (ustr * bytes))
  (page : ustr) :
  Forall (fun kv => forallb scalar (fst kv) = true) extra ->
  decode content = Some page ->
  Forall (fun kv => exists text, decode (snd kv) = Some text) extra ->
  exists out text,
    patch_file (u "index.html") content (Some extra) = Returns out
    /\ decode out = Some text.
Proof.
  intros Hkeys Hpage Hvals. rewrite patch_file_index.
  destruct (extra_items_ok extra Hvals) as [items [Hitems Hsc]].
  unfold decode_utf8. rewrite Hpage. cbn [and_then]. rewrite Hitems.
  cbn [and_then]. unfold encode_utf8.
  match goal with
  | |- context [encode ?t] =>
      assert (Ht : forallb scalar t = true)
  end.
  { repeat apply replace_scalar;
      try (rewrite ?forallb_app, ?u_scalar; reflexivity).
    - apply footer_patch_scalar, Hsc, Hkeys.
    - apply (decode_scalar _ _ Hpage). }
  apply encode_total in Ht. destruct Ht as [out Hout].
  rewrite Hout. eexists. eexists. split; [reflexivity |].
  apply encode_decode. exact Hout.
Qed.

(** X15. On the index page the patch raises nothing but
    UnicodeDecodeError, and that exactly when the page or one of the extra
    JSON bodies is not valid UTF-8; otherwise it returns bytes that are
    valid UTF-8 again.  (The keys of [extra] are text that can be encoded.) *)
Theorem patch_index_utf8 (content : bytes) (extra : list (ustr * bytes)) :
  Forall (fun kv => forallb scalar (fst kv) = true) extra ->
  ((exists page, decode content = Some page) ->
   Forall (fun kv => exists text, decode (snd kv) = Some text) extra ->
   exists out text,
     patch_file (u "index.html") content (Some extra) = Returns out
     /\ decode out = Some text)
  /\ ((decode content = None
       \/ Exists (fun kv => decode (snd kv) = None) extra) ->
      patch_file (u "index.html") content (Some extra)
      = Raises UnicodeDecodeError).
Proof.
  intros Hkeys. split.
  - intros [page Hpage] Hvals.
    apply (patch_index_returns content extra page Hkeys Hpage Hvals).
  - rewrite patch_file_index.
    intros [Hpage | Hvals]; unfold decode_utf8.
    + rewrite Hpage. reflexivity.
    + destruct (decode content); [| reflexivity].
      cbn [and_then]. rewrite (extra_items_bad _ Hvals). reflexivity.
Qed.

(** X16. A page without a footer tag never receives the extra JSON: it is
    patched the same whatever [extra] holds; and a page that has no
    root-relative [href] or [src] either is returned byte for byte. *)
Theorem patch_without_footer (content : bytes) (page : ustr)
  (extra extra' : list (ustr * bytes)) :
  decode content = Some page ->
  contains (u "<footer>") page = false ->
  Forall (fun kv => exists text, decode (snd kv) = Some text) extra ->
  Forall (fun kv => exists text, decode (snd kv) = Some text) extra' ->
  patch_file (u "index.html") content (Some extra)
  = patch_file (u "index.html") content (Some extra')
  /\ (contains (u "href=" ++ quote ++ u "/") page = false ->
      contains (u "src=" ++ quote ++ u "/") page = false ->
      patch_file (u "index.html") content (Some extra) = Returns content).
Proof.
  intros Hpage Hfoot Hvals Hvals'.
  destruct (extra_items_ok extra Hvals) as [items [Hitems _]].
  destruct (extra_items_ok extra' Hvals') as [items' [Hitems' _]].
  rewrite !patch_file_index. unfold decode_utf8. rewrite Hpage.
  cbn [and_then]. rewrite Hitems, Hitems'. cbn [and_then].
  rewrite !(replace_absent (u "<footer>") _ page) by (discriminate || exact Hfoot).
  split; [reflexivity |].
  intros Hhref Hsrc.
  rewrite (replace_absent _ _ page) by (discriminate || exact Hhref).
  rewrite (replace_absent _ _ page) by (discriminate || exact Hsrc).
  unfold encode_utf8. rewrite (decode_encode _ _ Hpage). reflexivity.
Qed.

Lemma patch_other_path (file_path : ustr) (content : bytes)
  (extra : option (list (ustr * bytes))) :
  file_path <> u "index.html" ->
  patch_file file_path content extra = Returns content.
Proof.
  intros Hne. unfold patch_file.
  destruct (eqb file_path (u "index.html")) eqn:E; [| reflexivity].
  apply ustr_eqb_spec in E. contradiction.
Qed.

Lemma patch_index_none (content : bytes) :
  patch_file (u "index.html") content None
  = match decode content with
    | Some _ =>
        Raises (AttributeError "'NoneType' object has no attribute 'items'")
    | None => Raises UnicodeDecodeError
    end.
Proof.
  rewrite patch_file_index. unfold decode_utf8.
  destruct (decode content); reflexivity.
Qed.

(** X17. The default [extra=None] works for every path but the index page:
    there the patch returns the content untouched, here it always raises,
    UnicodeDecodeError on a page that is not UTF-8 and AttributeError on
    one that is. *)
Theorem patch_without_extra (file_path : ustr) (content : bytes) :
  (file_path <> u "index.html" ->
   patch_file file_path content None = Returns content)
  /\ (file_path = u "index.html" ->
      (decode content = None ->
       patch_file file_path content None = Raises UnicodeDecodeError)
      /\ ((exists page, decode content = Some page) ->
          exists msg,
            patch_file file_path content None = Raises (AttributeError msg))).
Proof.
  split.
  - apply patch_other_path.
  - intros ->. rewrite patch_index_none. split.
    + intros ->. reflexivity.
    + intros [page ->]. eexists. reflexivity.
Qed.

Lemma patch_index_utf8_witness :
  exists out text,
    patch_file (u "index.html") (map byte_of sample_page)
               (Some [(u "_dash-layout", map byte_of (u "{}"))])
    = Returns out
    /\ decode out = Some text.
Proof.
  destruct (patch_index_utf8 (map byte_of sample_page)
              [(u "_dash-layout", map byte_of (u "{}"))]) as [Hok _].
  - repeat constructor.
  - apply Hok.
    + exists sample_page. vm_compute. reflexivity.
    + repeat constructor. exists (u "{}"). vm_compute. reflexivity.
Defined.

Lemma patch_without_footer_witness :
  patch_file (u "index.html") (map byte_of (u "<p>hi</p>")) (Some [])
  = patch_file (u "index.html") (map byte_of (u "<p>hi</p>"))
               (Some [(u "_dash-layout", map byte_of (u "{}"))])
  /\ patch_file (u "index.html") (map byte_of (u "<p>hi</p>")) (Some [])
     = Returns (map byte_of (u "<p>hi</p>")).
Proof.
  destruct (patch_without_footer (map byte_of (u "<p>hi</p>")) (u "<p>hi</p>")
              [] [(u "_dash-layout", map byte_of (u "{}"))]) as [Hsame Hkeep].
  - vm_compute. reflexivity.
  - vm_compute. reflexivity.
  - constructor.
  - repeat constructor. exists (u "{}"). vm_compute. reflexivity.
  - split; [exact Hsame |].
    apply Hkeep; vm_compute; reflexivity.
Defined.

(** ** write_file *)

Lemma startswith_slash (c : N) (s : ustr) :
  startswith (u "/") (c :: s) = N.eqb 47 c.
Proof.
  change (startswith (u "/") (c :: s)) with (N.eqb 47 c && true).
  apply andb_true_r.
Qed.

Lemma lstrip_cons (c : N) (s : ustr) :
  lstrip (u "/") (c :: s) = if N.eqb c 47 then lstrip (u "/") s else c :: s.
Proof.
  cbn [lstrip]. change (existsb (N.eqb c) (u "/")) with (N.eqb c 47 || false).
  rewrite orb_false_r. reflexivity.
Qed.

Lemma lstrip_slashes (s : ustr) :
  exists k, s = repeat 47%N k ++ lstrip (u "/") s
            /\ startswith (u "/") (lstrip (u "/") s) = false.
Proof.
  induction s as [| c s [k [Hk Hs]]].
  - exists 0%nat. split; reflexivity.
  - rewrite lstrip_cons.
    destruct (N.eqb_spec c 47) as [-> | Hne].
    + exists (S k). split; [simpl; f_equal; exact Hk | exact Hs].
    + exists 0%nat. split; [reflexivity |].
      rewrite startswith_slash.
      destruct (N.eqb_spec 47 c) as [E | _]; [| reflexivity].
      symmetry in E. contradiction.
Qed.

Lemma lstrip_repeat (k : nat) (s : ustr) :
  startswith (u "/") s = false -> lstrip (u "/") (repeat 47%N k ++ s) = s.
Proof.
  intros Hs. induction k as [| k IH]; simpl.
  - destruct s as [| c s]; [reflexivity |].
    rewrite lstrip_cons. rewrite startswith_slash in Hs.
    destruct (N.eqb_spec 47 c) as [<- | Hne]; [discriminate |].
    destruct (N.eqb_spec c 47) as [E | _]; [symmetry in E; contradiction |].
    reflexivity.
  - exact IH.
Qed.

Lemma split_fields (s : ustr) :
  exists rest, s = fst (split 63 s) ++ rest
               /\ ~ In 63%N (fst (split 63 s))
               /\ (rest = [] \/ exists q, rest = 63%N :: q).
Proof.
  induction s as [| c s [rest [Hs [Hno Hrest]]]].
  - exists []. split; [reflexivity |]. split; [intros [] | left; reflexivity].
  - cbn [split]. destruct (split 63 s) as [first others] eqn:E.
    simpl fst in *.
    destruct (N.eqb_spec c 63) as [-> | Hne].
    + exists (63%N :: s). split; [reflexivity |].
      split; [intros [] | right; exists s; reflexivity].
    + exists rest. simpl. split; [f_equal; exact Hs |].
      split; [| exact Hrest].
      intros [H | H]; [contradiction | exact (Hno H)].
Qed.

Lemma split_first (rel rest : ustr) :
  ~ In 63%N rel -> (rest = [] \/ exists q, rest = 63%N :: q) ->
  fst (split 63 (rel ++ rest)) = rel.
Proof.
  intros Hno Hrest. induction rel as [| c rel IH]; simpl.
  - destruct Hrest as [-> | [q ->]]; [reflexivity |].
    cbn [split]. destruct (split 63 q). reflexivity.
  - destruct (split 63 (rel ++ rest)) as [first others] eqn:E.
    simpl fst in IH.
    destruct (N.eqb_spec c 63) as [-> | Hne].
    + exfalso. apply Hno. left. reflexivity.
    + simpl. f_equal. apply IH. intros H. apply Hno. right. exact H.
Qed.

Lemma startswith_prefix (p s t : ustr) :
  startswith p s = true -> startswith p (s ++ t) = true.
Proof.
  revert s. induction p as [| x p IH]; intros [| y s] H; simpl in *;
    try reflexivity; try discriminate.
  apply andb_true_iff in H. destruct H as [-> H]. apply IH. exact H.
Qed.

Lemma join_relative (a b : ustr) :
  startswith (u "/") b = false ->
  exists sep, (sep = [] \/ sep = u "/") /\ posixpath.join a b = a ++ sep ++ b.
Proof.
  intros Hb. unfold posixpath.join. rewrite Hb.
  destruct (match a with [] => true | _ => endswith (u "/") a end).
  - exists []. split; [left; reflexivity | reflexivity].
  - exists (u "/"). split; [right; reflexivity | reflexivity].
Qed.

Lemma join_relative_sep (a b : ustr) :
  startswith (u "/") b = false ->
  exists sep,
    (sep = u "/" \/ (sep = [] /\ (a = [] \/ endswith (u "/") a = true)))
    /\ posixpath.join a b = a ++ sep ++ b.
Proof.
  intros Hb. unfold posixpath.join. rewrite Hb.
  destruct a as [| x a].
  - exists []. split; [right; split; [reflexivity | left; reflexivity] |].
    reflexivity.
  - destruct (endswith (u "/") (x :: a)) eqn:E.
    + exists []. split; [right; split; [reflexivity | right; reflexivity] |].
      reflexivity.
    + exists (u "/"). split; [left; reflexivity | reflexivity].
Qed.

Lemma endswith_slash_snoc (a : ustr) (c : N) :
  endswith (u "/") (a ++ [c]) = N.eqb 47 c.
Proof.
  unfold endswith. rewrite rev_app_distr.
  change (rev (u "/")) with (u "/"). apply startswith_slash.
Qed.

Lemma endswith_slash_app (a b : ustr) :
  b <> [] -> endswith (u "/") (a ++ b) = endswith (u "/") b.
Proof.
  intros Hb. destruct (exists_last Hb) as [b' [c ->]].
  rewrite app_assoc, !endswith_slash_snoc. reflexivity.
Qed.

Lemma endswith_slash_in (a : ustr) : endswith (u "/") a = true -> In 47%N a.
Proof.
  destruct a as [| x a] using rev_ind; [discriminate |].
  rewrite endswith_slash_snoc. intros H. apply N.eqb_eq in H. subst x.
  apply in_or_app. right. left. reflexivity.
Qed.

Lemma after_last_slash_pos (p : ustr) :
  In 47%N p -> posixpath.after_last_slash p <> 0%nat.
Proof.
  induction p as [| c p IH]; [contradiction |].
  intros Hin. cbn [posixpath.after_last_slash].
  destruct (posixpath.after_last_slash p) as [| k] eqn:E; [| discriminate].
  destruct Hin as [-> | Hin]; [discriminate |].
  exfalso. apply (IH Hin). reflexivity.
Qed.

Lemma lstrip_slash_nil (t : ustr) :
  lstrip (u "/") t = [] -> forallb (N.eqb 47) t = true.
Proof.
  induction t as [| c t IH]; [reflexivity |].
  rewrite lstrip_cons.
  destruct (N.eqb_spec c 47) as [-> | Hne]; [| discriminate].
  intros H. simpl. apply IH. exact H.
Qed.

(** A path with a slash in it has a directory. *)
Lemma dirname_nonempty (p : ustr) :
  In 47%N p -> posixpath.dirname p <> [].
Proof.
  intros Hin. unfold posixpath.dirname.
  pose proof (after_last_slash_pos p Hin) as Hpos.
  destruct (posixpath.after_last_slash p) as [| k]; [contradiction |].
  destruct p as [| c p]; [contradiction |].
  cbn [firstn]. cbn [andb].
  destruct (forallb (N.eqb 47) (c :: firstn k p)) eqn:E; cbn [negb];
    [discriminate |].
  unfold rstrip. intros H.
  assert (Hrev : lstrip (u "/") (rev (c :: firstn k p)) = []).
  { apply (f_equal (@rev N)) in H. rewrite rev_involutive in H. exact H. }
  apply lstrip_slash_nil in Hrev.
  assert (Hall : forallb (N.eqb 47) (c :: firstn k p) = true).
  { apply forallb_forall. intros x Hx.
    rewrite forallb_forall in Hrev. apply Hrev. apply -> in_rev. exact Hx. }
  rewrite Hall in E. discriminate.
Qed.


(** The run of [write_file], call by call. *)
Lemma write_file_run (fs : Filesystem) (file_path : ustr) (content : bytes)
  (target_dir : ustr) (log : list effect) :
  write_file fs file_path content target_dir log
  = match posixpath.dirname (target_path target_dir file_path) with
    | [] =>
        (log ++ [Makedirs []], Raises (OSError "FileNotFoundError"))
    | c :: leaf =>
        match makedirs_error fs log (c :: leaf) with
        | Some e => (log ++ [Makedirs (c :: leaf)], Raises e)
        | None =>
            (log ++ [Makedirs (c :: leaf);
                     WriteFile (target_path target_dir file_path) content],
             match target_path target_dir file_path with
             | [] => Raises (OSError "FileNotFoundError")
             | _ :: _ =>
                 if endswith (u "/") (target_path target_dir file_path)
                 then Raises (OSError "IsADirectoryError")
                 else match write_error fs (log ++ [Makedirs (c :: leaf)])
                              (target_path target_dir file_path) content with
                      | Some e => Raises e
                      | None => Returns tt
                      end
             end)
        end
    end.
Proof.
  unfold write_file, io_then, os_makedirs, open_write.
  fold (target_path target_dir file_path).
  destruct (posixpath.dirname (target_path target_dir file_path))
    as [| c leaf]; [reflexivity |].
  destruct (makedirs_error fs log (c :: leaf)); [reflexivity |].
  rewrite <- app_assoc. reflexivity.
Qed.

Lemma write_file_ok (fs : Filesystem) (file_path : ustr) (content : bytes)
  (target_dir : ustr) (log : list effect) :
  posixpath.dirname (target_path target_dir file_path) <> [] ->
  endswith (u "/") (target_path target_dir file_path) = false ->
  makedirs_error fs log (posixpath.dirname (target_path target_dir file_path))
  = None ->
  write_error fs
    (log ++ [Makedirs (posixpath.dirname (target_path target_dir file_path))])
    (target_path target_dir file_path) content = None ->
  write_file fs file_path content target_dir log
  = (log ++ [Makedirs (posixpath.dirname (target_path target_dir file_path));
             WriteFile (target_path target_dir file_path) content],
     Returns tt).
Proof.
  intros Hleaf Hslash Hmk Hwr. rewrite write_file_run.
  destruct (posixpath.dirname (target_path target_dir file_path))
    as [| c leaf] eqn:E; [contradiction |].
  rewrite Hmk, Hslash, Hwr.
  destruct (target_path target_dir file_path); [discriminate E | reflexivity].
Qed.

Lemma target_path_parts (target_dir file_path : ustr) :
  exists k rel rest sep,
    file_path = repeat 47%N k ++ rel ++ rest
    /\ startswith (u "/") rel = false
    /\ ~ In 63%N rel
    /\ (rest = [] \/ exists q, rest = 63%N :: q)
    /\ (sep = u "/"
        \/ (sep = [] /\ (target_dir = [] \/ endswith (u "/") target_dir = true)))
    /\ rel = fst (split 63 (lstrip (u "/") file_path))
    /\ target_path target_dir file_path = target_dir ++ sep ++ rel.
Proof.
  destruct (lstrip_slashes file_path) as [k [Hk Hs]].
  destruct (split_fields (lstrip (u "/") file_path)) as [rest [Hf [Hno Hrest]]].
  set (rel := fst (split 63 (lstrip (u "/") file_path))) in *.
  assert (Hrel : startswith (u "/") rel = false).
  { destruct (startswith (u "/") rel) eqn:E; [| reflexivity].
    rewrite Hf in Hs. rewrite (startswith_prefix _ _ rest E) in Hs.
    discriminate. }
  destruct (join_relative_sep target_dir rel Hrel) as [sep [Hsep Hjoin]].
  exists k, rel, rest, sep.
  split; [rewrite <- Hf; exact Hk |].
  repeat (split; [assumption |]).
  split; [reflexivity |]. exact Hjoin.
Qed.


(** X19. Leading slashes and a query string never tell two files apart:
    a resource path with either is written to the very file of the bare
    path, so the later of two such resources overwrites the earlier. *)
Theorem same_file_for_same_path (fs : Filesystem) (target_dir rel q : ustr)
  (k : nat) (content : bytes) (log : list effect) :
  startswith (u "/") rel = false ->
  ~ In 63%N rel ->
  write_file fs (repeat 47%N k ++ rel ++ 63%N :: q) content target_dir log
  = write_file fs rel content target_dir log
  /\ write_file fs (repeat 47%N k ++ rel) content target_dir log
     = write_file fs rel content target_dir log.
Proof.
  intros Hrel Hno.
  assert (Hfirst : forall rest, (rest = [] \/ exists q', rest = 63%N :: q') ->
            forall n, fst (split 63 (lstrip (u "/") (repeat 47%N n ++ rel ++ rest)))
                      = rel).
  { intros rest Hrest n. rewrite lstrip_repeat.
    - apply split_first; assumption.
    - destruct rel as [| c rel].
      + destruct Hrest as [-> | [q' ->]]; reflexivity.
      + change ((c :: rel) ++ rest) with (c :: rel ++ rest).
        rewrite startswith_slash in *. exact Hrel. }
  pose proof (Hfirst [] (or_introl eq_refl) 0%nat) as Hbare.
  pose proof (Hfirst [] (or_introl eq_refl) k) as Hslashes.
  pose proof (Hfirst (63%N :: q) (or_intror (ex_intro _ q eq_refl)) k) as Hquery.
  rewrite app_nil_r in Hbare, Hslashes. simpl repeat in Hbare.
  simpl app in Hbare.
  rewrite !write_file_run. unfold target_path.
  rewrite Hbare, Hslashes, Hquery. split; reflexivity.
Qed.

Lemma same_file_for_same_path_witness :
  write_file sample_fs (repeat 47%N 2 ++ u "b.js" ++ 63%N :: u "v=1")
             (map byte_of (u "x")) (u "target") []
  = write_file sample_fs (u "b.js") (map byte_of (u "x")) (u "target") []
  /\ write_file sample_fs (repeat 47%N 2 ++ u "b.js") (map byte_of (u "x"))
                (u "target") []
     = write_file sample_fs (u "b.js") (map byte_of (u "x")) (u "target") [].
Proof.
  apply (same_file_for_same_path sample_fs (u "target") (u "b.js") (u "v=1") 2).
  - reflexivity.
  - vm_compute. intuition discriminate.
Defined.

(** Under a target directory, a resource that names a file has a place. *)
Lemma writable_path (target_dir file_path : ustr) :
  target_dir <> [] ->
  names_file file_path = true ->
  posixpath.dirname (target_path target_dir file_path) <> []
  /\ endswith (u "/") (target_path target_dir file_path) = false.
Proof.
  intros Hdir Hname.
  destruct (target_path_parts target_dir file_path)
    as [k [rel [rest [sep [_ [_ [_ [_ [Hsep [Hrel Hpath]]]]]]]]]].
  unfold names_file in Hname. rewrite <- Hrel in Hname.
  assert (Hne : rel <> []) by (destruct rel; [discriminate | discriminate]).
  assert (Hend : endswith (u "/") rel = false).
  { destruct rel; [contradiction |]. apply negb_true_iff. exact Hname. }
  rewrite Hpath. split.
  - apply dirname_nonempty.
    destruct Hsep as [-> | [-> [E | E]]].
    + apply in_or_app. right. left. reflexivity.
    + contradiction.
    + apply in_or_app. left. apply endswith_slash_in. exact E.
  - rewrite app_assoc, (endswith_slash_app _ _ Hne). exact Hend.
Qed.
(** ** ExternalResourceParser *)

Lemma attr_values_filter (key : ustr) (attrs : list (ustr * option ustr)) :
  forall resources,
    attr_values key attrs resources
    = resources ++ map snd (filter (fun kv => eqb (fst kv) key) attrs).
Proof.
  unfold attr_values.
  induction attrs as [| kv attrs IH]; intros resources; simpl.
  - rewrite app_nil_r. reflexivity.
  - rewrite IH. destruct (eqb (fst kv) key); [| reflexivity].
    simpl. rewrite <- app_assoc. reflexivity.
Qed.

Lemma handle_starttag_appends (resources : list (option ustr)) (tag : ustr)
  (attrs : list (ustr * option ustr)) :
  handle_starttag resources tag attrs
  = resources
    ++ (if eqb tag (u "link")
        then map snd (filter (fun kv => eqb (fst kv) (u "href")) attrs)
        else [])
    ++ (if eqb tag (u "script")
        then map snd (filter (fun kv => eqb (fst kv) (u "src")) attrs)
        else []).
Proof.
  unfold handle_starttag.
  destruct (eqb tag (u "link")); destruct (eqb tag (u "script"));
    rewrite ?attr_values_filter, ?app_nil_r, <- ?app_assoc; reflexivity.
Qed.

Lemma feed_from (tags : list (ustr * list (ustr * option ustr))) :
  forall resources,
    fold_left (fun res ta => handle_starttag res (fst ta) (snd ta)) tags
              resources
    = resources ++ flat_map (fun ta => handle_starttag [] (fst ta) (snd ta))
                            tags.
Proof.
  induction tags as [| ta tags IH]; intros resources; simpl.
  - rewrite app_nil_r. reflexivity.
  - rewrite IH, (handle_starttag_appends resources),
      (handle_starttag_appends []), <- !app_assoc. reflexivity.
Qed.

Lemma in_attr_values (key : ustr) (attrs : list (ustr * option ustr))
  (v : option ustr) :
  In v (map snd (filter (fun kv => eqb (fst kv) key) attrs))
  <-> In (key, v) attrs.
Proof.
  rewrite in_map_iff. split.
  - intros [[k v'] [<- H]]. apply filter_In in H. destruct H as [H E].
    simpl in E. apply ustr_eqb_spec in E. subst k. exact H.
  - intros H. exists (key, v). split; [reflexivity |].
    apply filter_In. split; [exact H |].
    simpl. apply ustr_eqb_spec. reflexivity.
Qed.

(** X20. What the parser collects: a value is among the resources exactly
    when it is the [href] of a reported [link] tag or the [src] of a
    reported [script] tag, a missing value ([None]) included. *)
Theorem parser_collects (w : Web) (text : ustr) (v : option ustr) :
  In v (feed w text)
  <-> exists tag attrs,
        In (tag, attrs) (starttags w text)
        /\ ((tag = u "link" /\ In (u "href", v) attrs)
            \/ (tag = u "script" /\ In (u "src", v) attrs)).
Proof.
  unfold feed. rewrite feed_from. simpl app. rewrite in_flat_map. split.
  - intros [[tag attrs] [Hin Hv]]. exists tag, attrs. split; [exact Hin |].
    simpl fst in Hv. simpl snd in Hv.
    rewrite handle_starttag_appends in Hv. simpl app in Hv.
    apply in_app_or in Hv. destruct Hv as [Hv | Hv].
    + destruct (eqb tag (u "link")) eqn:E; [| contradiction].
      left. split; [apply ustr_eqb_spec; exact E |].
      apply in_attr_values. exact Hv.
    + destruct (eqb tag (u "script")) eqn:E; [| contradiction].
      right. split; [apply ustr_eqb_spec; exact E |].
      apply in_attr_values. exact Hv.
  - intros [tag [attrs [Hin Hv]]]. exists (tag, attrs). split; [exact Hin |].
    simpl fst. simpl snd. rewrite handle_starttag_appends. simpl app.
    apply in_or_app. destruct Hv as [[-> Hv] | [-> Hv]].
    + left. change (eqb (u "link") (u "link")) with true. cbv iota.
      apply in_attr_values. exact Hv.
    + right. change (eqb (u "script") (u "script")) with true. cbv iota.
      apply in_attr_values. exact Hv.
Qed.

(** ** make_static *)

Lemma requests_sent_app (a b : list effect) :
  requests_sent (a ++ b) = (requests_sent a + requests_sent b)%nat.
Proof. unfold requests_sent. rewrite filter_app, length_app. reflexivity. Qed.

Lemma fetch_resources_step (w : Web) (fs : Filesystem)
  (base_url target_dir url : ustr) (rest : list (option ustr))
  (log : list effect) :
  (forall l p, makedirs_error fs l p = None) ->
  (forall l p c, write_error fs l p c = None) ->
  target_dir <> [] ->
  url <> u "index.html" ->
  names_file url = true ->
  fetch_resources w fs base_url target_dir (Some url :: rest) log
  = fetch_resources w fs base_url target_dir rest
      (log ++ resource_trace w base_url target_dir (requests_sent log) [url]).
Proof.
  intros Hmk Hwr Hdir Hurl Hname. cbn [fetch_resources resource_trace].
  unfold io_then at 1. unfold ret at 1.
  unfold io_then at 1. unfold emit at 1.
  unfold io_then at 1. unfold requests_get at 1.
  unfold io_then at 1. unfold lift at 1.
  rewrite (patch_other_path url _ None Hurl).
  destruct (writable_path target_dir url Hdir Hname) as [Hleaf Hslash].
  unfold io_then at 1.
  rewrite (write_file_ok fs url _ target_dir _ Hleaf Hslash (Hmk _ _)
             (Hwr _ _ _)).
  rewrite requests_sent_app. simpl requests_sent. rewrite Nat.add_0_r.
  rewrite app_nil_r, <- !app_assoc. reflexivity.
Qed.

Lemma fetch_resources_good (w : Web) (fs : Filesystem)
  (base_url target_dir : ustr) (rest : list (option ustr)) :
  (forall l p, makedirs_error fs l p = None) ->
  (forall l p c, write_error fs l p c = None) ->
  target_dir <> [] ->
  forall (urls : list ustr) (log : list effect),
    Forall (fun url => url <> u "index.html") urls ->
    Forall (fun url => names_file url = true) urls ->
    fetch_resources w fs base_url target_dir (map Some urls ++ rest) log
    = fetch_resources w fs base_url target_dir rest
        (log ++ resource_trace w base_url target_dir (requests_sent log) urls).
Proof.
  intros Hmk Hwr Hdir.
  induction urls as [| url urls IH]; intros log H Hn.
  - simpl. rewrite app_nil_r. reflexivity.
  - inversion H as [| ? ? Hurl Hurls]; subst.
    inversion Hn as [| ? ? Hname Hnames]; subst.
    change (map Some (url :: urls) ++ rest)
      with (Some url :: (map Some urls ++ rest)).
    rewrite (fetch_resources_step _ _ _ _ _ _ _ Hmk Hwr Hdir Hurl Hname),
      (IH _ Hurls Hnames).
    replace (requests_sent
               (log ++ resource_trace w base_url target_dir (requests_sent log)
                         [url]))
      with (S (requests_sent log))
      by (rewrite requests_sent_app;
          change (requests_sent (resource_trace w base_url target_dir
                                   (requests_sent log) [url])) with 1%nat;
          lia).
    rewrite <- app_assoc. reflexivity.
Qed.

Lemma fetch_jsons_run (w : Web) (base_url : ustr) (log : list effect) :
  fetch_jsons w base_url [u "_dash-layout"; u "_dash-dependencies"] [] log
  = (log ++ [Request (base_url ++ u "_dash-layout");
             Request (base_url ++ u "_dash-dependencies")],
     Returns
       [(u "_dash-layout",
         get w (requests_sent log) (base_url ++ u "_dash-layout"));
        (u "_dash-dependencies",
         get w (S (requests_sent log)) (base_url ++ u "_dash-dependencies"))]).
Proof.
  cbn [fetch_jsons]. unfold io_then, requests_get, ret. cbn [dict_set].
  change (eqb (u "_dash-layout") (u "_dash-dependencies")) with false.
  cbv iota. rewrite requests_sent_app, <- app_assoc.
  change (requests_sent [Request (base_url ++ u "_dash-layout")]) with 1%nat.
  rewrite Nat.add_1_r. reflexivity.
Qed.

(** The export up to the write of the index page. *)
Lemma make_static_start (w : Web) (fs : Filesystem)
  (base_url target_dir : ustr) (log : list effect) (page layout deps : ustr) :
  decode (get w (requests_sent log) base_url) = Some page ->
  decode (get w (S (requests_sent log)) (base_url ++ u "_dash-layout"))
  = Some layout ->
  decode (get w (S (S (requests_sent log)))
              (base_url ++ u "_dash-dependencies")) = Some deps ->
  exists patched text,
    patch_file (u "index.html") (get w (requests_sent log) base_url)
               (Some (extra_json_of w base_url (requests_sent log)))
    = Returns patched
    /\ decode patched = Some text
    /\ make_static w fs base_url target_dir log
       = (_ <<~ write_file fs (u "index.html") patched target_dir ;;
          fetch_resources w fs base_url target_dir
            (feed w text ++ map Some extra_js))
           (log ++ [Request base_url;
                    Request (base_url ++ u "_dash-layout");
                    Request (base_url ++ u "_dash-dependencies")]).
Proof.
  intros Hpage Hlayout Hdeps.
  destruct (patch_index_returns (get w (requests_sent log) base_url)
              (extra_json_of w base_url (requests_sent log)) page)
    as [patched [text [Hpatched Htext]]].
  { repeat constructor. }
  { exact Hpage. }
  { repeat constructor; simpl snd; eexists; eassumption. }
  exists patched, text. split; [exact Hpatched |]. split; [exact Htext |].
  unfold make_static.
  unfold io_then at 1. unfold requests_get at 1.
  unfold io_then at 1. rewrite fetch_jsons_run.
  rewrite requests_sent_app.
  change (requests_sent [Request base_url]) with 1%nat.
  rewrite !Nat.add_1_r.
  unfold io_then at 1. unfold lift at 1.
  change [(u "_dash-layout",
           get w (S (requests_sent log)) (base_url ++ u "_dash-layout"));
          (u "_dash-dependencies",
           get w (S (S (requests_sent log)))
               (base_url ++ u "_dash-dependencies"))]
    with (extra_json_of w base_url (requests_sent log)).
  rewrite Hpatched, <- !app_assoc.
  unfold io_then. unfold lift, decode_utf8. rewrite Htext.
  cbn [app].
  destruct (write_file fs (u "index.html") patched target_dir
              (log ++ [Request base_url;
                       Request (base_url ++ u "_dash-layout");
                       Request (base_url ++ u "_dash-dependencies")]))
    as [log' [[] | e]]; reflexivity.
Qed.

(** The export up to the resources, when the index page can be written. *)
Lemma make_static_head (w : Web) (fs : Filesystem)
  (base_url target_dir : ustr) (log : list effect) (page layout deps : ustr) :
  (forall l p, makedirs_error fs l p = None) ->
  (forall l p c, write_error fs l p c = None) ->
  target_dir <> [] ->
  decode (get w (requests_sent log) base_url) = Some page ->
  decode (get w (S (requests_sent log)) (base_url ++ u "_dash-layout"))
  = Some layout ->
  decode (get w (S (S (requests_sent log)))
              (base_url ++ u "_dash-dependencies")) = Some deps ->
  exists patched text,
    patch_file (u "index.html") (get w (requests_sent log) base_url)
               (Some (extra_json_of w base_url (requests_sent log)))
    = Returns patched
    /\ decode patched = Some text
    /\ make_static w fs base_url target_dir log
       = fetch_resources w fs base_url target_dir
           (feed w text ++ map Some extra_js)
           (log ++ index_trace base_url target_dir patched).
Proof.
  intros Hmk Hwr Hdir Hpage Hlayout Hdeps.
  destruct (make_static_start w fs base_url target_dir log page layout deps
              Hpage Hlayout Hdeps) as [patched [text [Hpatched [Htext Hrun]]]].
  exists patched, text. split; [exact Hpatched |]. split; [exact Htext |].
  rewrite Hrun. unfold io_then.
  destruct (writable_path target_dir (u "index.html") Hdir eq_refl)
    as [Hleaf Hslash].
  rewrite (write_file_ok fs (u "index.html") _ target_dir _ Hleaf Hslash
             (Hmk _ _) (Hwr _ _ _)).
  unfold index_trace. rewrite <- !app_assoc. reflexivity.
Qed.

Lemma requests_sent_index (base_url target_dir : ustr) (patched : bytes)
  (log : list effect) :
  requests_sent (log ++ index_trace base_url target_dir patched)
  = (requests_sent log + 3)%nat.
Proof. rewrite requests_sent_app. reflexivity. Qed.

Lemma extra_js_good : Forall (fun url => url <> u "index.html") extra_js.
Proof. repeat constructor; discriminate. Qed.

Lemma extra_js_name_files : Forall (fun url => names_file url = true) extra_js.
Proof. repeat constructor. Qed.

(** X21. A run of the export that goes through.  The target directory is
    not empty and the file system accepts every call.  When the page and
    the two JSON bodies are valid UTF-8, the page is patched and written
    first; and when every resource the parser reports has a value, other
    than [index.html], that names a file, each of them and then the four
    fixed scripts are requested in that order, one request each, and every
    body is written as it was received.  Nothing else is requested, printed
    or written. *)
Theorem make_static_exports (w : Web) (fs : Filesystem)
  (base_url target_dir : ustr) (log : list effect) (page layout deps : ustr) :
  (forall l p, makedirs_error fs l p = None) ->
  (forall l p c, write_error fs l p c = None) ->
  target_dir <> [] ->
  decode (get w (requests_sent log) base_url) = Some page ->
  decode (get w (S (requests_sent log)) (base_url ++ u "_dash-layout"))
  = Some layout ->
  decode (get w (S (S (requests_sent log)))
              (base_url ++ u "_dash-dependencies")) = Some deps ->
  exists patched text,
    patch_file (u "index.html") (get w (requests_sent log) base_url)
               (Some (extra_json_of w base_url (requests_sent log)))
    = Returns patched
    /\ decode patched = Some text
    /\ forall urls,
         feed w text = map Some urls ->
         Forall (fun url => url <> u "index.html") urls ->
         Forall (fun url => names_file url = true) urls ->
         make_static w fs base_url target_dir log
         = (log ++ index_trace base_url target_dir patched
                ++ resource_trace w base_url target_dir
                     (requests_sent log + 3) (urls ++ extra_js),
            Returns tt).
Proof.
  intros Hmk Hwr Hdir Hpage Hlayout Hdeps.
  destruct (make_static_head w fs base_url target_dir log page layout deps
              Hmk Hwr Hdir Hpage Hlayout Hdeps)
    as [patched [text [Hpatched [Htext Hrun]]]].
  exists patched, text. split; [exact Hpatched |]. split; [exact Htext |].
  intros urls Hfeed Hgood Hnames.
  rewrite Hrun, Hfeed, <- map_app, <- (app_nil_r (map Some (urls ++ extra_js))).
  rewrite (fetch_resources_good w fs base_url target_dir [] Hmk Hwr Hdir).
  - rewrite requests_sent_index, <- app_assoc. reflexivity.
  - apply Forall_app. split; [exact Hgood | exact extra_js_good].
  - apply Forall_app. split; [exact Hnames | exact extra_js_name_files].
Qed.

Lemma make_static_exports_witness :
  exists patched,
    make_static (sample_web page_tags) sample_fs (u "http://h/") (u "target") []
    = ([] ++ index_trace (u "http://h/") (u "target") patched
          ++ resource_trace (sample_web page_tags) (u "http://h/")
               (u "target") (requests_sent [] + 3)
               ([u "a.css"; u "b.js?v=1"] ++ extra_js),
       Returns tt).
Proof.
  destruct (make_static_exports (sample_web page_tags) sample_fs
              (u "http://h/") (u "target") [] sample_page
              (u "http://h/_dash-layout") (u "http://h/_dash-dependencies"))
    as [patched [text [_ [_ Hrun]]]].
  - reflexivity.
  - reflexivity.
  - discriminate.
  - vm_compute. reflexivity.
  - vm_compute. reflexivity.
  - vm_compute. reflexivity.
  - exists patched. apply Hrun.
    + reflexivity.
    + repeat constructor; discriminate.
    + repeat constructor.
Defined.

(** X22. A run of the export that stops half way.  The target directory is
    not empty and the file system accepts every call.  The resources before
    the first one that has no value, or that is named [index.html], are
    fetched and written like in a full run, and they stay written: at a
    resource without a value the export raises TypeError before any request
    for it; at [index.html] it prints and requests, then raises
    UnicodeDecodeError or AttributeError without writing.  Neither the
    resources after it nor the four fixed scripts are requested. *)
Theorem make_static_stops (w : Web) (fs : Filesystem)
  (base_url target_dir : ustr) (log : list effect) (page layout deps : ustr) :
  (forall l p, makedirs_error fs l p = None) ->
  (forall l p c, write_error fs l p c = None) ->
  target_dir <> [] ->
  decode (get w (requests_sent log) base_url) = Some page ->
  decode (get w (S (requests_sent log)) (base_url ++ u "_dash-layout"))
  = Some layout ->
  decode (get w (S (S (requests_sent log)))
              (base_url ++ u "_dash-dependencies")) = Some deps ->
  exists patched text,
    patch_file (u "index.html") (get w (requests_sent log) base_url)
               (Some (extra_json_of w base_url (requests_sent log)))
    = Returns patched
    /\ decode patched = Some text
    /\ forall pre post,
         Forall (fun url => url <> u "index.html") pre ->
         Forall (fun url => names_file url = true) pre ->
         (feed w text = map Some pre ++ None :: post ->
          exists msg,
            make_static w fs base_url target_dir log
            = (log ++ index_trace base_url target_dir patched
                   ++ resource_trace w base_url target_dir
                        (requests_sent log + 3) pre,
               Raises (Builtin (TypeError msg))))
         /\ (feed w text = map Some pre ++ Some (u "index.html") :: post ->
             exists e,
               make_static w fs base_url target_dir log
               = (log ++ index_trace base_url target_dir patched
                      ++ resource_trace w base_url target_dir
                           (requests_sent log + 3) pre
                      ++ [Print (u "get " ++ base_url ++ u "index.html");
                          Request (base_url ++ u "index.html")],
                  Raises e)
               /\ (e = UnicodeDecodeError \/ exists msg, e = AttributeError msg)).
Proof.
  intros Hmk Hwr Hdir Hpage Hlayout Hdeps.
  destruct (make_static_head w fs base_url target_dir log page layout deps
              Hmk Hwr Hdir Hpage Hlayout Hdeps)
    as [patched [text [Hpatched [Htext Hrun]]]].
  exists patched, text. split; [exact Hpatched |]. split; [exact Htext |].
  intros pre post Hgood Hnames. split.
  - intros Hfeed. rewrite Hrun, Hfeed, <- app_assoc.
    rewrite (fetch_resources_good w fs base_url target_dir _ Hmk Hwr Hdir)
      by assumption.
    rewrite requests_sent_index, <- app_assoc.
    eexists. reflexivity.
  - intros Hfeed. rewrite Hrun, Hfeed, <- app_assoc.
    rewrite (fetch_resources_good w fs base_url target_dir _ Hmk Hwr Hdir)
      by assumption.
    rewrite requests_sent_index.
    change ((Some (u "index.html") :: post) ++ map Some extra_js)
      with (Some (u "index.html") :: (post ++ map Some extra_js)).
    cbn [fetch_resources].
    unfold io_then at 1. unfold ret at 1.
    unfold io_then at 1. unfold emit at 1.
    unfold io_then at 1. unfold requests_get at 1.
    unfold io_then at 1. unfold lift at 1.
    rewrite patch_index_none.
    match goal with
    | |- context [decode ?c] => destruct (decode c) as [t |]
    end.
    + eexists. split.
      * rewrite <- !app_assoc. reflexivity.
      * right. eexists. reflexivity.
    + eexists. split.
      * rewrite <- !app_assoc. reflexivity.
      * left. reflexivity.
Qed.

Lemma make_static_stops_witness :
  exists patched msg,
    make_static (sample_web valueless_tags) sample_fs (u "http://h/")
                (u "target") []
    = ([] ++ index_trace (u "http://h/") (u "target") patched
          ++ resource_trace (sample_web valueless_tags) (u "http://h/")
               (u "target") (requests_sent [] + 3) [u "a.css"],
       Raises (Builtin (TypeError msg))).
Proof.
  destruct (make_static_stops (sample_web valueless_tags) sample_fs
              (u "http://h/") (u "target") [] sample_page
              (u "http://h/_dash-layout") (u "http://h/_dash-dependencies"))
    as [patched [text [_ [_ Hrun]]]].
  - reflexivity.
  - reflexivity.
  - discriminate.
  - vm_compute. reflexivity.
  - vm_compute. reflexivity.
  - vm_compute. reflexivity.
  - exists patched.
    destruct (Hrun [u "a.css"] [Some (u "b.js?v=1")]) as [Hnone _].
    + repeat constructor; discriminate.
    + repeat constructor.
    + apply Hnone. reflexivity.
Defined.

(** X23. Without a target directory nothing is exported: with an empty
    [target_dir] the index page has no directory part, so after the three
    requests the export raises at [os.makedirs], whatever the file system
    would accept, and no file is written. *)
Theorem make_static_needs_target_dir (w : Web) (fs : Filesystem)
  (base_url : ustr) (log : list effect) (page layout deps : ustr) :
  decode (get w (requests_sent log) base_url) = Some page ->
  decode (get w (S (requests_sent log)) (base_url ++ u "_dash-layout"))
  = Some layout ->
  decode (get w (S (S (requests_sent log)))
              (base_url ++ u "_dash-dependencies")) = Some deps ->
  make_static w fs base_url [] log
  = (log ++ [Request base_url;
             Request (base_url ++ u "_dash-layout");
             Request (base_url ++ u "_dash-dependencies");
             Makedirs []],
     Raises (OSError "FileNotFoundError")).
Proof.
  intros Hpage Hlayout Hdeps.
  destruct (make_static_start w fs base_url [] log page layout deps
              Hpage Hlayout Hdeps) as [patched [text [_ [_ Hrun]]]].
  rewrite Hrun. unfold io_then. rewrite write_file_run.
  change (posixpath.dirname (target_path [] (u "index.html"))) with (@nil N).
  rewrite <- app_assoc. reflexivity.
Qed.

Lemma make_static_needs_target_dir_witness :
  make_static (sample_web page_tags) sample_fs (u "http://h/") [] []
  = ([] ++ [Request (u "http://h/");
            Request (u "http://h/" ++ u "_dash-layout");
            Request (u "http://h/" ++ u "_dash-dependencies");
            Makedirs []],
     Raises (OSError "FileNotFoundError")).
Proof.
  apply (make_static_needs_target_dir (sample_web page_tags) sample_fs
           (u "http://h/") [] sample_page (u "http://h/_dash-layout")
           (u "http://h/_dash-dependencies")).
  - vm_compute. reflexivity.
  - vm_compute. reflexivity.
  - vm_compute. reflexivity.
Defined.
